(** * Developer tooling scripts of ai-sdk-cpp: build.py, format.py, lint.py

    A shallow embedding of the three scripts under [scripts/] and the
    properties of their file discovery, toolchain resolution, sequential
    command execution and bounded-concurrency fan-out. *)

From Stdlib Require Import ZArith Lia DecimalString.
From stdpp Require Import base decidable option list strings sorting relations.

Local Open Scope string_scope.
Local Open Scope list_scope.
Local Open Scope nat_scope.

(** * Paths

    A [pathlib.Path] is represented by its [parts]: the anchor (if any)
    followed by the directory chain and the final component. *)

Definition Path := list string.

(** [Path.name]: the final component, or the empty string. *)
Definition name (p : Path) : string := default "" (last p).

(** [Path.__truediv__]: [p / q]. *)
Definition joinpath (p q : Path) : Path := p ++ q.

(** The glob pattern [*ext] (an extension holds no glob metacharacter):
    some tail of the name is [ext]. *)
Fixpoint fnmatch_star (nm ext : string) : bool :=
  String.eqb nm ext ||
  match nm with
  | EmptyString => false
  | String _ nm' => fnmatch_star nm' ext
  end.

(** [Path.__lt__] / [__le__] compare the parts sequences, as Python compares
    sequences: the first differing component decides, a proper prefix is
    smaller. *)
Fixpoint path_leb (p q : Path) : bool :=
  match p, q with
  | [], _ => true
  | _ :: _, [] => false
  | a :: p', b :: q' => if String.eqb a b then path_leb p' q' else String.leb a b
  end.

Definition path_le (p q : Path) : Prop := path_leb p q = true.

Global Instance path_le_dec : RelDecision path_le.
Proof. intros p q. unfold path_le. apply _. Defined.

(** [sorted(files)] on a list of paths. *)
Definition sorted (l : list Path) : list Path := merge_sort path_le l.

(** [any(excluded in file.parts for excluded in exclude_dirs)] *)
Definition in_excluded_dir (exclude_dirs : list string) (file : Path) : bool :=
  existsb (fun excluded => bool_decide (excluded ∈ file)) exclude_dirs.

(** The state of the file system below the project directory: the entries
    (files and directories) that a recursive walk meets, each given by its
    parts relative to the project directory, in the order of the walk. *)
Definition tree := list Path.

(** [project_dir.rglob(f"*{ext}")] *)
Definition rglob (project_dir : Path) (fs : tree) (ext : string) : list Path :=
  joinpath project_dir <$> filter (fun rel => fnmatch_star (name rel) ext = true) fs.

(** The body shared by the two copies of [find_cpp_files]; [extensions] is
    given in the order in which the set is iterated. *)
Definition collect_files (extensions exclude_dirs : list string)
    (project_dir : Path) (fs : tree) : list Path :=
  ext ← extensions;
  filter (fun file => in_excluded_dir exclude_dirs file = false)
         (rglob project_dir fs ext).

Definition exclude_dirs : list string := ["build"; "vcpkg_installed"; ".cache"; ".git"].

(** * Scripts as programs over a world

    A script either returns, leaves through [sys.exit(code)], or dies from
    an exception that nothing catches.  The world [W] (console, file system,
    child processes spawned) is threaded through.  The terminal is taken to
    accept what is written to it (its encoding has the characters, the
    stream is open); what rich raises on markup that is not well formed is
    modelled where build.py and lint.py interpolate a path or the output
    of a tool into a line. *)

Inductive exception :=
  | CalledProcessError (cmd : list string) (returncode : Z)
  | FileNotFoundError (cmd : list string)
  | ValueError (msg : string)
  | OSError (msg : string)
  | UnicodeDecodeError
  | MarkupError.

Global Instance exception_eq_dec : EqDecision exception.
Proof. solve_decision. Defined.

Inductive result (A : Type) :=
  | Return (a : A)
  | SysExit (code : Z)
  | Raise (exn : exception).
Arguments Return {_} _.
Arguments SysExit {_} _.
Arguments Raise {_} _.

Definition M (W A : Type) : Type := W → result A * W.

Global Instance M_ret W : MRet (M W) := λ A a w, (Return a, w).
Global Instance M_bind W : MBind (M W) := λ A B f m w,
  match m w with
  | (Return a, w') => f a w'
  | (SysExit c, w') => (SysExit c, w')
  | (Raise e, w') => (Raise e, w')
  end.

Definition sys_exit {W A} (code : Z) : M W A := λ w, (SysExit code, w).
Definition raise {W A} (exn : exception) : M W A := λ w, (Raise exn, w).

(** The exit status the operating system sees: 0 after a normal return (the
    click entry point then exits with 0), the argument of [sys.exit], and 1
    when the interpreter dies from an exception. *)
Definition exit_status {A} (r : result A) : Z :=
  match r with
  | Return _ => 0
  | SysExit code => code
  | Raise _ => 1
  end.

(** [str(n)] for an [int]. *)
Definition str_int (n : Z) : string := NilZero.string_of_int (Z.to_int n).

(** [str(path)] on a POSIX path. *)
Definition str_path (p : Path) : string :=
  match p with
  | [] => "."
  | "/" :: rest => "/" +:+ String.concat "/" rest
  | _ => String.concat "/" p
  end.

(** The line feed, written [\n] in the scripts. *)
Definition nl : string := String (Ascii.ascii_of_nat 10) "".

(** The double quote. *)
Definition dq : string := String (Ascii.ascii_of_nat 34) "".

(** Truth value of a string: non-empty. *)
Definition nonempty (s : string) : bool := negb (String.eqb s "").

(** * build.py *)

Module Build.

Record CompletedProcess := {
  returncode : Z;
  stdout : string;
  stderr : string
}.

(** How [subprocess.run(cmd, cwd=cwd, capture_output=True, text=True)] ends
    before [check] is looked at: with a completed process; with
    [FileNotFoundError] because the executable is missing; with
    [UnicodeDecodeError] because the captured output is not text in the
    locale's encoding; or with another [OSError] of [Popen]. *)
Inductive outcome :=
  | Completed (cp : CompletedProcess)
  | NotFound
  | Undecodable
  | OSFailure (msg : string).

(** What the run did: a directory tree removed, a directory made (or found
    in place), [subprocess.run] called (with the file system at that moment
    and the way it ended), a file copied.  An operation that raised leaves
    no event, except [subprocess.run]. *)
Inductive event :=
  | EvRmtree (p : Path)
  | EvMkdir (p : Path)
  | EvSpawn (argv : list string) (cwd : Path) (fs_before : list Path)
            (o : outcome)
  | EvCopy (src dst : Path).

(** [fs]: the paths that exist; [console]: the renderables that
    [console.print] has rendered, oldest first; [trace]: the events of the
    run, oldest first. *)
Record World := {
  fs : list Path;
  console : list string;
  trace : list event
}.

(** What the script reads from its surroundings and the library calls it
    relies on.
    - [subprocess_run] is the external tool: from the argument vector, the
      working directory and the file system it yields the way
      [subprocess.run] ends and the file system the tool leaves;
    - [markup_error text] tells whether rich raises [MarkupError] when it
      renders [text] as console markup (a closing tag without an opening
      one, for instance);
    - [str_strip] is [str.strip], [str_repr] is [repr] on strings,
      [signal_repr n] is [repr(signal.Signals(n))] when [n] is a signal
      number;
    - [shutil_rmtree d fs] is [None] when [shutil.rmtree(d)] succeeds on
      [fs], and otherwise the message of the [OSError] it raises (on a
      symbolic link, on something that is not a directory, without
      permission) with the file system it leaves behind;
    - [path_mkdir d fs] is [None] when [d.mkdir(exist_ok=True)] succeeds on
      [fs], and otherwise the message of the [OSError] (the path exists and
      is not a directory, the parent is missing);
    - [shutil_copy2 src dst fs] likewise for [shutil.copy2] (for instance
      [SameFileError] when [dst] is a link to [src]). *)
Record Env := {
  project_root : Path;
  home : Path;
  environ_VCPKG_ROOT : option string;
  cpu_count : option Z;
  resolve : Path → Path;
  path_of_string : string → Path;
  subprocess_run : list string → Path → list Path → outcome * list Path;
  markup_error : string → bool;
  str_strip : string → string;
  str_repr : string → string;
  signal_repr : Z → option string;
  shutil_rmtree : Path → list Path → option (string * list Path);
  path_mkdir : Path → list Path → option string;
  shutil_copy2 : Path → Path → list Path → option (string * list Path)
}.

(** [console.print(line)] for a line that is fixed in the text of the
    script: its markup is well formed, rich renders it. *)
Definition print (line : string) : M World () := λ w,
  (Return (), {| fs := fs w; console := console w ++ [line]; trace := trace w |}).

(** [console.print(line)] for a line into which a path, an argument vector
    or the output of a tool is interpolated: rich parses the whole line as
    markup and raises [MarkupError] when it is not well formed; nothing is
    printed then. *)
Definition print_markup (e : Env) (line : string) : M World () := λ w,
  if markup_error e line then (Raise MarkupError, w)
  else (Return (),
        {| fs := fs w; console := console w ++ [line]; trace := trace w |}).

(** [console.print(table)]: every cell is rendered as markup; [cells] are
    the cells that hold interpolated text, [line] stands for the table on
    the console. *)
Definition print_table (e : Env) (cells : list string) (line : string)
    : M World () := λ w,
  if existsb (markup_error e) cells then (Raise MarkupError, w)
  else (Return (),
        {| fs := fs w; console := console w ++ [line]; trace := trace w |}).

Definition exists_ (p : Path) : M World bool := λ w,
  (Return (bool_decide (p ∈ fs w)), w).

(** [shutil.rmtree(d)]: [d] and everything below it is gone, or an
    [OSError]. *)
Definition rmtree (e : Env) (d : Path) : M World () := λ w,
  match shutil_rmtree e d (fs w) with
  | Some (msg, fs') =>
      (Raise (OSError msg),
       {| fs := fs'; console := console w; trace := trace w |})
  | None =>
      (Return (), {| fs := filter (λ p, ¬ d `prefix_of` p) (fs w);
                     console := console w;
                     trace := trace w ++ [EvRmtree d] |})
  end.

(** [d.mkdir(exist_ok=True)] *)
Definition mkdir (e : Env) (d : Path) : M World () := λ w,
  match path_mkdir e d (fs w) with
  | Some msg => (Raise (OSError msg), w)
  | None =>
      (Return (), {| fs := if bool_decide (d ∈ fs w) then fs w else d :: fs w;
                     console := console w;
                     trace := trace w ++ [EvMkdir d] |})
  end.

(** [shutil.copy2(src, dst)] *)
Definition copy2 (e : Env) (src dst : Path) : M World () := λ w,
  match shutil_copy2 e src dst (fs w) with
  | Some (msg, fs') =>
      (Raise (OSError msg),
       {| fs := fs'; console := console w; trace := trace w |})
  | None =>
      (Return (), {| fs := if bool_decide (dst ∈ fs w) then fs w else dst :: fs w;
                     console := console w;
                     trace := trace w ++ [EvCopy src dst] |})
  end.

(** The exception with which [subprocess.run] ends when the process does
    not complete. *)
Definition spawn_exception (cmd : list string) (o : outcome) : option exception :=
  match o with
  | Completed _ => None
  | NotFound => Some (FileNotFoundError cmd)
  | Undecodable => Some UnicodeDecodeError
  | OSFailure msg => Some (OSError msg)
  end.

(** [subprocess.run(cmd, cwd=cwd, check=False, capture_output=True,
    text=True)] *)
Definition spawn (e : Env) (cmd : list string) (cwd : Path)
    : M World CompletedProcess := λ w,
  let '(o, fs') := subprocess_run e cmd cwd (fs w) in
  let w' := {| fs := fs'; console := console w;
               trace := trace w ++ [EvSpawn cmd cwd (fs w) o] |} in
  match o with
  | Completed cp => (Return cp, w')
  | NotFound => (Raise (FileNotFoundError cmd), w')
  | Undecodable => (Raise UnicodeDecodeError, w')
  | OSFailure msg => (Raise (OSError msg), w')
  end.

(** [str(e)] for a [CalledProcessError]: a negative return code is the
    number of the signal that killed the process. *)
Definition str_CalledProcessError (e : Env) (cmd : list string) (rc : Z) : string :=
  "Command '[" +:+ String.concat ", " (str_repr e <$> cmd) +:+ "]' " +:+
  (if (rc <? 0)%Z then
     match signal_repr e (- rc) with
     | Some sig => "died with " +:+ sig +:+ "."
     | None => "died with unknown signal " +:+ str_int (- rc) +:+ "."
     end
   else "returned non-zero exit status " +:+ str_int rc +:+ ".").

Definition when (b : bool) (m : M World ()) : M World () :=
  if b then m else mret ().

(** The lines of [run_command]. *)
Definition running_line (cmd : list string) : string :=
  "[dim]Running:[/dim] [cyan]" +:+ String.concat " " cmd +:+ "[/cyan]".
Definition stdout_line (e : Env) (cp : CompletedProcess) : string :=
  "[dim]" +:+ str_strip e (stdout cp) +:+ "[/dim]".
Definition error_line (e : Env) (cmd : list string) (cp : CompletedProcess) : string :=
  "[red]Error running command:[/red] " +:+ str_CalledProcessError e cmd (returncode cp).
Definition stderr_line (cp : CompletedProcess) : string :=
  "[red]Error output:[/red] " +:+ stderr cp.
Definition output_line (cp : CompletedProcess) : string :=
  "[yellow]Output:[/yellow] " +:+ stdout cp.

(** [run_command]: with [check], [subprocess.run] raises
    [CalledProcessError] on a non-zero exit status and the handler prints
    and exits; every other exception passes through, also the
    [MarkupError] of a [console.print] inside the [try] block or inside the
    handler. *)
Definition run_command (e : Env) (cmd : list string) (cwd : Path)
    (check : bool) : M World CompletedProcess :=
  print_markup e (running_line cmd);;
  result ← spawn e cmd cwd;
  if check && negb (returncode result =? 0)%Z then
    (* except subprocess.CalledProcessError as e *)
    print_markup e (error_line e cmd result);;
    when (nonempty (stderr result)) (print_markup e (stderr_line result));;
    when (nonempty (stdout result)) (print_markup e (output_line result));;
    sys_exit 1
  else
    when (nonempty (str_strip e (stdout result)))
      (print_markup e (stdout_line e result));;
    mret result.

Definition possible_locations (e : Env) : list Path :=
  [ ["vcpkg"; "scripts"; "buildsystems"; "vcpkg.cmake"];
    joinpath (joinpath (joinpath (joinpath (home e) ["vcpkg"]) ["scripts"])
                       ["buildsystems"]) ["vcpkg.cmake"];
    ["/"; "usr"; "local"; "share"; "vcpkg"; "scripts"; "buildsystems"; "vcpkg.cmake"];
    ["C:"; "vcpkg"; "scripts"; "buildsystems"; "vcpkg.cmake"] ].

(** [Path(vcpkg_root) / "scripts" / "buildsystems" / "vcpkg.cmake"] *)
Definition toolchain_under (e : Env) (vcpkg_root : string) : Path :=
  joinpath (joinpath (joinpath (path_of_string e vcpkg_root) ["scripts"])
                     ["buildsystems"]) ["vcpkg.cmake"].

(** [find_vcpkg_toolchain], on the file system [files]. *)
Definition find_vcpkg_toolchain (e : Env) (files : list Path) : option string :=
  match find (λ location, bool_decide (location ∈ files)) (possible_locations e) with
  | Some location => Some (str_path (resolve e location))
  | None =>
      match environ_VCPKG_ROOT e with
      | Some vcpkg_root =>
          if nonempty vcpkg_root then
            let toolchain := toolchain_under e vcpkg_root in
            if bool_decide (toolchain ∈ files)
            then Some (str_path (resolve e toolchain))
            else None
          else None
      | None => None
      end
  end.

Inductive build_mode := debug | release.

(** [mode.title()] and [mode.upper()] *)
Definition title (mode : build_mode) : string :=
  match mode with debug => "Debug" | release => "Release" end.
Definition upper (mode : build_mode) : string :=
  match mode with debug => "DEBUG" | release => "RELEASE" end.

(** [a or b] on optional integers: [None] and [0] are false. *)
Definition or_ (a b : option Z) : option Z :=
  match a with
  | Some n => if (n =? 0)%Z then b else a
  | None => b
  end.

(** [jobs or os.cpu_count() or 4] *)
Definition parallel_jobs (e : Env) (jobs : option Z) : Z :=
  default 4%Z (or_ (or_ jobs (cpu_count e)) (Some 4%Z)).

Definition mark (b : bool) : string := if b then "✓" else "✗".

Definition cmake_args (e : Env) (mode : build_mode) (tests : bool)
    (export_compile_commands : bool) (toolchain_file : option string)
    : list string :=
  ["cmake"; str_path (project_root e); "-DCMAKE_BUILD_TYPE=" +:+ title mode]
  ++ match toolchain_file with
     | Some t => if nonempty t then ["-DCMAKE_TOOLCHAIN_FILE=" +:+ t] else []
     | None => []
     end
  ++ (if export_compile_commands then ["-DCMAKE_EXPORT_COMPILE_COMMANDS=ON"] else [])
  ++ ["-DBUILD_TESTS=" +:+ (if tests then "ON" else "OFF")]
  ++ ["-DBUILD_EXAMPLES=ON"].

Definition build_args (e : Env) (verbose : bool) (jobs : option Z) : list string :=
  ["cmake"; "--build"; "."]
  ++ (if verbose then ["--verbose"] else [])
  ++ ["--parallel"; str_int (parallel_jobs e jobs)].

Definition build_dir (e : Env) : Path := joinpath (project_root e) ["build"].

(** Lines 142-155 of [main]: the optional clean step, then [mkdir]. *)
Definition clean_step (e : Env) (clean : bool) : M World () :=
  build_exists ← exists_ (build_dir e);
  when (clean && build_exists)
    (rmtree e (build_dir e);;
     print "[green]✓[/green] Build directory cleaned");;
  mkdir e (build_dir e).

Definition warn_no_toolchain : M World () :=
  print "[yellow]⚠ Warning: vcpkg toolchain not found. Dependencies may not be available.[/yellow]";;
  print "[dim]Please ensure vcpkg is installed and VCPKG_ROOT is set, or vcpkg is in a standard location.[/dim]".

Definition toolchain_line (toolchain_file : string) : string :=
  "[green]✓[/green] Using vcpkg toolchain: [cyan]" +:+ toolchain_file +:+ "[/cyan]".

(** Lines 157-163 of [main]. *)
Definition toolchain_step (e : Env) : M World (option string) :=
  toolchain_file ← (λ w, (Return (find_vcpkg_toolchain e (fs w)), w));
  match toolchain_file with
  | Some t =>
      if nonempty t then print_markup e (toolchain_line t) else warn_no_toolchain
  | None => warn_no_toolchain
  end;;
  mret toolchain_file.

Definition compile_commands_src (e : Env) : Path :=
  joinpath (build_dir e) ["compile_commands.json"].
Definition compile_commands_dst (e : Env) : Path :=
  joinpath (project_root e) ["compile_commands.json"].

Definition exported_line (e : Env) : string :=
  "[green]✓[/green] Exported compile commands to [cyan]" +:+
  str_path (compile_commands_dst e) +:+ "[/cyan]".

(** Lines 222-231 of [main]. *)
Definition export_step (e : Env) : M World () :=
  src_exists ← exists_ (compile_commands_src e);
  if (src_exists : bool) then
    copy2 e (compile_commands_src e) (compile_commands_dst e);;
    print_markup e (exported_line e)
  else
    print "[yellow]⚠ Warning: compile_commands.json not generated[/yellow]".

(** The rows of the configuration table, on one line; and its two cells
    that hold a path. *)
Definition config_table (e : Env) (mode : build_mode)
    (tests clean export_compile_commands : bool) (jobs : option Z) : string :=
  "Build Configuration: Project root=" +:+ str_path (project_root e)
  +:+ " Build directory=" +:+ str_path (build_dir e)
  +:+ " Build mode=" +:+ upper mode
  +:+ " With tests=" +:+ mark tests
  +:+ " Clean build=" +:+ mark clean
  +:+ " Export compile commands=" +:+ mark export_compile_commands
  +:+ " Parallel jobs=" +:+ str_int (parallel_jobs e jobs).

Definition config_cells (e : Env) : list string :=
  [str_path (project_root e); str_path (build_dir e)].

(** The text of the closing panel (lines 237-253). *)
Definition results_panel (e : Env) (tests : bool) : string :=
  "[bold green]Build Results[/bold green]" +:+ nl +:+ nl +:+
  "[bold]Built targets:[/bold]" +:+ nl +:+
  "  📚 Library: " +:+ str_path (build_dir e) +:+
    "/libai-sdk-cpp.a (or .lib on Windows)" +:+ nl +:+
  "  🎯 Examples: " +:+ str_path (build_dir e) +:+ "/examples/" +:+ nl +:+
  (if tests then "  🧪 Tests: " +:+ str_path (build_dir e) +:+ "/tests/" else "")
    +:+ nl +:+ nl +:+
  "[bold]To run examples (after setting API keys):[/bold]" +:+ nl +:+
  "  [cyan]export OPENAI_API_KEY=your_openai_key[/cyan]" +:+ nl +:+
  "  [cyan]export ANTHROPIC_API_KEY=your_anthropic_key[/cyan]" +:+ nl +:+
  "  [cyan]" +:+ str_path (build_dir e) +:+ "/examples/basic_chat[/cyan]" +:+ nl +:+
  "  [cyan]" +:+ str_path (build_dir e) +:+ "/examples/streaming_chat[/cyan]"
    +:+ nl +:+ nl +:+
  (if tests then
     "[bold]To run tests:[/bold]" +:+ nl +:+
     "  [cyan]cd build && ctest[/cyan]" +:+ nl +:+
     "  [cyan]cd build && ctest --verbose[/cyan]" +:+ nl +:+
     "  [cyan]cd build && ctest -R " +:+ dq +:+ "test_types" +:+ dq +:+
       "[/cyan] (run specific test)"
   else "").

(** Lines 167-198 of [main]. *)
Definition configure_step (e : Env) (mode : build_mode)
    (tests export_compile_commands : bool) (toolchain_file : option string)
    : M World () :=
  run_command e (cmake_args e mode tests export_compile_commands toolchain_file)
              (build_dir e) true;;
  print "[green]✓[/green] CMake configuration completed".

(** Lines 200-220 of [main]. *)
Definition build_step (e : Env) (verbose : bool) (jobs : option Z) : M World () :=
  run_command e (build_args e verbose jobs) (build_dir e) true;;
  print "[green]✓[/green] Build completed successfully!".

(** The body of [main], entered once click has parsed the options; the
    progress spinners are left out. *)
Definition main (e : Env) (mode : build_mode)
    (tests clean verbose export_compile_commands : bool) (jobs : option Z)
    : M World () :=
  print_table e (config_cells e)
    (config_table e mode tests clean export_compile_commands jobs);;
  print "";;
  clean_step e clean;;
  toolchain_file ← toolchain_step e;
  print "";;
  configure_step e mode tests export_compile_commands toolchain_file;;
  build_step e verbose jobs;;
  when export_compile_commands (export_step e);;
  print "";;
  print_markup e (results_panel e tests).

End Build.

(** * format.py *)

Module Format.

Definition extensions : list string := [".h"; ".hpp"; ".cc"; ".cpp"; ".cxx"].

(** [find_cpp_files], with the iteration order of the extension set made
    explicit. *)
Definition find_cpp_files_in (order : list string) (project_dir : Path)
    (fs : tree) : list Path :=
  sorted (collect_files order exclude_dirs project_dir fs).

Definition find_cpp_files : Path → tree → list Path :=
  find_cpp_files_in extensions.

(** [console]: arguments of [console.print]; [spawned]: the argument
    vectors of the child processes, oldest first. *)
Record World := {
  console : list string;
  spawned : list (list string)
}.

(** [clang_format argv] is the exit status of the external formatter. *)
Record Env := {
  project_dir : Path;
  files_below : tree;
  which_clang_format : bool;
  clang_format : list string → Z
}.

(** [console.print(line)], taken to render its line: format.py interpolates
    only counts, names of files and, in check mode, the last two parts of
    a path. *)
Definition print (line : string) : M World () := λ w,
  (Return (), {| console := console w ++ [line]; spawned := spawned w |}).

Definition spawn (e : Env) (cmd : list string) : M World Z := λ w,
  (Return (clang_format e cmd),
   {| console := console w; spawned := spawned w ++ [cmd] |}).

Definition check_cmd (file : Path) : list string :=
  ["clang-format"; "--dry-run"; "--Werror"; str_path file].

Definition check_file_format (e : Env) (file : Path) : M World bool :=
  returncode ← spawn e (check_cmd file);
  mret (returncode =? 0)%Z.

Definition format_cmd (file : Path) : list string :=
  ["clang-format"; "-i"; str_path file].

(** [subprocess.run(..., check=True)] raises on a non-zero exit. *)
Definition format_file (e : Env) (file : Path) : M World () :=
  returncode ← spawn e (format_cmd file);
  if (returncode =? 0)%Z then mret ()
  else raise (CalledProcessError (format_cmd file) returncode).

Fixpoint for_each {A} (l : list A) (body : A → M World ()) : M World () :=
  match l with
  | [] => mret ()
  | x :: l' => body x;; for_each l' body
  end.

(** [Path.parent] and [Path.relative_to]. *)
Definition parent (p : Path) : Path :=
  match p with
  | ["/"] => ["/"]
  | _ => removelast p
  end.
Definition relative_to (p other : Path) : Path := drop (length other) p.

Definition shown (file : Path) : string :=
  str_path (relative_to file (parent (parent file))).

(** The loop of check mode, threading [needs_format]. *)
Fixpoint check_loop (e : Env) (files needs_format : list Path)
    : M World (list Path) :=
  match files with
  | [] => mret needs_format
  | file :: files' =>
      ok ← check_file_format e file;
      if (ok : bool) then check_loop e files' needs_format
      else
        print ("[red]✗[/red] " +:+ shown file);;
        check_loop e files' (needs_format ++ [file])
  end.

Definition tick (file : Path) : string := "[green]✓[/green] " +:+ name file.

Definition formatting_banner (files : list Path) : string :=
  "[blue]Formatting " +:+ str_int (Z.of_nat (length files)) +:+
  " C++ files...[/blue]" +:+ nl.

(** The body of the loop of apply mode. *)
Definition format_and_tick (e : Env) (file : Path) : M World () :=
  format_file e file;;
  print (tick file).

(** The two branches of [main]. *)
Definition check_mode (e : Env) (files : list Path) : M World () :=
  print ("[blue]Checking code formatting for " +:+
         str_int (Z.of_nat (length files)) +:+ " files...[/blue]" +:+ nl);;
  needs_format ← check_loop e files [];
  match needs_format with
  | [] =>
      print (nl +:+ "[green]✅ All files are properly formatted[/green]");;
      sys_exit 0
  | _ :: _ =>
      print (nl +:+ "[red]❌ " +:+ str_int (Z.of_nat (length needs_format)) +:+
             " files need formatting:[/red]");;
      for_each needs_format (λ file, print ("  • " +:+ shown file));;
      print (nl +:+ "[yellow]Run 'uv run scripts/format.py' to fix them.[/yellow]");;
      sys_exit 1
  end.

Definition apply_mode (e : Env) (files : list Path) : M World () :=
  print (formatting_banner files);;
  for_each files (format_and_tick e);;
  print (nl +:+ "[green]✅ All files have been formatted[/green]").

Definition main (e : Env) (check : bool) : M World () :=
  if negb (which_clang_format e) then
    print "[red]Error: clang-format is not installed.[/red]";;
    print "Install it with: brew install clang-format (macOS) or apt-get install clang-format (Ubuntu)";;
    sys_exit 1
  else
    let files := find_cpp_files (project_dir e) (files_below e) in
    match files with
    | [] => print "[yellow]No C++ files found[/yellow]"
    | _ :: _ => if check then check_mode e files else apply_mode e files
    end.

End Format.

(** * lint.py *)

Module Lint.

Definition extensions : list string := [".cc"; ".cpp"; ".cxx"].

Definition find_cpp_files_in (order : list string) (project_dir : Path)
    (fs : tree) : list Path :=
  sorted (collect_files order exclude_dirs project_dir fs).

Definition find_cpp_files : Path → tree → list Path :=
  find_cpp_files_in extensions.

(** The surroundings of the script.  [platform_darwin] is
    [sys.platform == "darwin"]; [xcode_include_args] is what lines 53-72 of
    [get_system_include_args] return there (the three include arguments, or
    nothing: every exception is caught); [markup_error text] tells whether
    rich raises [MarkupError] when it renders [text] as console markup. *)
Record Env := {
  project_dir : Path;
  files_below : tree;
  which_clang_tidy : bool;
  platform_darwin : bool;
  xcode_include_args : list string;
  markup_error : string → bool
}.

Definition find_compile_commands (e : Env) : option Path :=
  let build_commands := ["build"; "compile_commands.json"] in
  if bool_decide (build_commands ∈ files_below e)
  then Some (joinpath (project_dir e) build_commands)
  else
    let root_commands := ["compile_commands.json"] in
    if bool_decide (root_commands ∈ files_below e)
    then Some (joinpath (project_dir e) root_commands)
    else None.

(** [get_system_include_args]: nothing but on macOS. *)
Definition get_system_include_args (e : Env) : list string :=
  if platform_darwin e then xcode_include_args e else [].

(** The argument vector [lint_file] builds. *)
Definition lint_cmd (compile_commands : Path) (fix_ : bool)
    (extra_args : list string) (file : Path) : list string :=
  ["clang-tidy"; "-p=" +:+ str_path compile_commands]
  ++ extra_args
  ++ (if fix_ then ["--fix"; "--fix-errors"] else [])
  ++ [str_path file].

Definition lint_result : Type := Path * bool * string.

(** What [lint_file] returns once its child process has exited, from the
    two captured streams decoded as UTF-8. *)
Definition lint_file_result (file : Path) (returncode : Z)
    (stdout stderr : string) : lint_result :=
  (file, (returncode =? 0)%Z, stdout +:+ stderr).


(** One coroutine [lint_file] per file: waiting for the semaphore, inside
    [async with semaphore], returned, or ended by an exception. *)
Inductive task :=
  | Waiting
  | InFlight
  | Finished (r : lint_result)
  | Crashed (exn : exception).

Global Instance task_eq_dec : EqDecision task.
Proof. unfold lint_result. solve_decision. Defined.

(** The event loop while [lint_all_files] runs: the semaphore's counter,
    the tasks by position in [files], the ended tasks that [as_completed]
    has not handed out yet, the iterations its loop has left, and what the
    body of the loop has built so far. *)
Record state := {
  sem_value : nat;
  tasks : list task;
  done_queue : list nat;
  todo : nat;
  progress : nat;
  console : list string;
  failed_files : list (Path * string)
}.

(** What happens in a run of the script:
    - [Probe cmd]: [get_system_include_args] calls [subprocess.run(cmd)];
    - [Spawn i cmd]: task [i] has started its child process;
    - [SpawnFailed i cmd exn]: [asyncio.create_subprocess_exec] raised
      [exn] in task [i], no child process was started;
    - [Exit i returncode stdout stderr]: the child process of task [i] has
      exited and both streams decode to the given texts;
    - [Garbled i returncode]: the child process of task [i] has exited and
      one of the streams is not valid UTF-8;
    - [Yield r]: the loop over [as_completed] has received [r]. *)
Inductive label :=
  | Probe (cmd : list string)
  | Spawn (i : nat) (cmd : list string)
  | SpawnFailed (i : nat) (cmd : list string) (exn : exception)
  | Exit (i : nat) (returncode : Z) (stdout stderr : string)
  | Garbled (i : nat) (returncode : Z)
  | Yield (r : lint_result).

Section fan_out.
Context (files : list Path) (compile_commands : Path) (fix_ : bool)
        (extra : list string).

(** - a waiting task enters [async with semaphore] when the counter is
      positive and starts its child process;
    - or the start of the child process raises: the task leaves the
      [async with] block at once, ended by the exception;
    - a child process exits with output that decodes: its task leaves the
      [async with] block and returns its triple;
    - or one of its streams does not decode: [stdout.decode()] or
      [stderr.decode()] raises [UnicodeDecodeError], the task leaves the
      block ended by it;
    - the loop over [as_completed] takes the oldest ended task when that
      one has returned, and prints its progress line; only the name of the
      file is interpolated there, which holds no slash and so no closing
      tag for rich to refuse.  (When the oldest ended task was ended by an
      exception, [await] raises it in the loop: see [main].) *)
Inductive step : state → label → state → Prop :=
  | step_acquire st i file :
      tasks st !! i = Some Waiting →
      files !! i = Some file →
      0 < sem_value st →
      step st (Spawn i (lint_cmd compile_commands fix_ extra file))
        {| sem_value := sem_value st - 1;
           tasks := <[i := InFlight]> (tasks st);
           done_queue := done_queue st;
           todo := todo st;
           progress := progress st;
           console := console st;
           failed_files := failed_files st |}
  | step_spawn_failed st i file exn :
      tasks st !! i = Some Waiting →
      files !! i = Some file →
      0 < sem_value st →
      step st (SpawnFailed i (lint_cmd compile_commands fix_ extra file) exn)
        {| sem_value := sem_value st;
           tasks := <[i := Crashed exn]> (tasks st);
           done_queue := done_queue st ++ [i];
           todo := todo st;
           progress := progress st;
           console := console st;
           failed_files := failed_files st |}
  | step_exit st i file returncode stdout stderr :
      tasks st !! i = Some InFlight →
      files !! i = Some file →
      step st (Exit i returncode stdout stderr)
        {| sem_value := S (sem_value st);
           tasks := <[i := Finished (lint_file_result file returncode stdout stderr)]>
                      (tasks st);
           done_queue := done_queue st ++ [i];
           todo := todo st;
           progress := progress st;
           console := console st;
           failed_files := failed_files st |}
  | step_garbled st i file returncode :
      tasks st !! i = Some InFlight →
      files !! i = Some file →
      step st (Garbled i returncode)
        {| sem_value := S (sem_value st);
           tasks := <[i := Crashed UnicodeDecodeError]> (tasks st);
           done_queue := done_queue st ++ [i];
           todo := todo st;
           progress := progress st;
           console := console st;
           failed_files := failed_files st |}
  | step_yield st i queue n file (success : bool) output :
      done_queue st = i :: queue →
      tasks st !! i = Some (Finished (file, success, output)) →
      todo st = S n →
      step st (Yield (file, success, output))
        {| sem_value := sem_value st;
           tasks := tasks st;
           done_queue := queue;
           todo := n;
           progress := S (progress st);
           console := console st ++
             [(if success then "[green]✓[/green] " else "[red]✗[/red] ")
              +:+ name file];
           failed_files :=
             if success then failed_files st
             else failed_files st ++ [(file, output)] |}.

(** Runs of the event loop, with the labels of their steps. *)
Inductive run (st0 : state) : list label → state → Prop :=
  | run_nil : run st0 [] st0
  | run_snoc tr st l st' :
      run st0 tr st → step st l st' → run st0 (tr ++ [l]) st'.

End fan_out.

(** [asyncio.Semaphore(jobs)] refuses a negative value; the tasks are
    created, none has run yet. *)
Definition init (files : list Path) (jobs : Z) : result state :=
  if (jobs <? 0)%Z then Raise (ValueError "Semaphore initial value must be >= 0")
  else Return {| sem_value := Z.to_nat jobs;
                 tasks := replicate (length files) Waiting;
                 done_queue := [];
                 todo := length files;
                 progress := 0;
                 console := [];
                 failed_files := [] |}.

(** The tasks that hold a permit. *)
Definition in_flight (st : state) : nat :=
  length (filter (λ t, t = InFlight) (tasks st)).

(** The loop over [as_completed] is over. *)
Definition loop_done (st : state) : Prop := todo st = 0.

(** The loop over [as_completed] is about to receive a task that an
    exception has ended: [await coro] raises it, nothing in
    [lint_all_files] or [main] catches it, and [asyncio.run] cancels the
    tasks that are left. *)
Definition loop_raises (st : state) (exn : exception) : Prop :=
  ∃ i queue, done_queue st = i :: queue ∧ tasks st !! i = Some (Crashed exn).

(** What [lint_all_files] sets out to print once the loop is over (lines
    163-168): a heading fixed in the script, then for every failed file its
    path and the output of its clang-tidy, each given to [console.print]
    as it is. *)
Definition report_heading : string :=
  nl +:+ "[red]Issues found in the following files:[/red]".

Definition report_details (st : state) : list string :=
  entry ← failed_files st;
  [nl +:+ "[yellow]" +:+ str_path entry.1 +:+ ":[/yellow]"; entry.2].

Definition lint_all_files_report (st : state) : list string :=
  match failed_files st with
  | [] => []
  | _ :: _ => report_heading :: report_details st
  end.

(** [console.print] on each of [lines] in turn, each parsed by rich as
    markup: the lines printed, up to the first one that rich refuses with
    [MarkupError]. *)
Fixpoint print_lines (e : Env) (lines : list string) : result () * list string :=
  match lines with
  | [] => (Return (), [])
  | line :: lines' =>
      if markup_error e line then (Raise MarkupError, [])
      else let '(r, printed) := print_lines e lines' in (r, line :: printed)
  end.

(** Lines 163-168 as they run. *)
Definition print_report (e : Env) (st : state) : result () * list string :=
  match failed_files st with
  | [] => (Return (), [])
  | _ :: _ =>
      let '(r, printed) := print_lines e (report_details st) in
      (r, report_heading :: printed)
  end.

(** [return len(failed_files) == 0] *)
Definition lint_all_files_value (st : state) : bool :=
  bool_decide (failed_files st = []).

(** The summary [main] prints after the fan-out, and the status it exits
    with. *)
Definition summary (fix_ success : bool) : string * Z :=
  if success then
    (if fix_ then "[green]✅ Linting completed with fixes applied[/green]"
     else "[green]✅ No linting issues found[/green]", 0%Z)
  else
    (if fix_ then "[yellow]⚠️  Some files could not be automatically fixed[/yellow]"
     else "[red]❌ Linting issues found. Run 'uv run scripts/lint.py --fix' to auto-fix some issues.[/red]", 1%Z).

(** Line 193: the path of the compile database goes through rich. *)
Definition using_line (compile_commands : Path) : string :=
  "[blue]Using compile commands: " +:+ str_path compile_commands +:+ "[/blue]".

(** The child process that [get_system_include_args] starts on macOS,
    before the semaphore is made. *)
Definition probe (e : Env) : list label :=
  if platform_darwin e then [Probe ["xcode-select"; "-p"]] else [].

(** The body of [main], entered once click has parsed the options: the runs
    of the script with their labels and exit status.  An exception that
    nothing catches ends the script with status 1. *)
Inductive main (e : Env) (fix_ : bool) (jobs : Z) : list label → Z → Prop :=
  | main_no_clang_tidy :
      which_clang_tidy e = false →
      main e fix_ jobs [] 1
  | main_no_compile_commands :
      which_clang_tidy e = true →
      find_compile_commands e = None →
      main e fix_ jobs [] 1
  | main_path_refused compile_commands :
      which_clang_tidy e = true →
      find_compile_commands e = Some compile_commands →
      markup_error e (using_line compile_commands) = true →
      main e fix_ jobs [] (exit_status (@Raise () MarkupError))
  | main_no_files compile_commands :
      which_clang_tidy e = true →
      find_compile_commands e = Some compile_commands →
      markup_error e (using_line compile_commands) = false →
      find_cpp_files (project_dir e) (files_below e) = [] →
      main e fix_ jobs [] 0
  | main_semaphore_refused compile_commands exn :
      which_clang_tidy e = true →
      find_compile_commands e = Some compile_commands →
      markup_error e (using_line compile_commands) = false →
      find_cpp_files (project_dir e) (files_below e) ≠ [] →
      init (find_cpp_files (project_dir e) (files_below e)) jobs = Raise exn →
      main e fix_ jobs (probe e) (exit_status (@Raise () exn))
  | main_task_raised compile_commands st0 tr st exn :
      which_clang_tidy e = true →
      find_compile_commands e = Some compile_commands →
      markup_error e (using_line compile_commands) = false →
      find_cpp_files (project_dir e) (files_below e) ≠ [] →
      init (find_cpp_files (project_dir e) (files_below e)) jobs = Return st0 →
      run (find_cpp_files (project_dir e) (files_below e)) compile_commands fix_
          (get_system_include_args e) st0 tr st →
      loop_raises st exn →
      main e fix_ jobs (probe e ++ tr) (exit_status (@Raise () exn))
  | main_report_refused compile_commands st0 tr st exn :
      which_clang_tidy e = true →
      find_compile_commands e = Some compile_commands →
      markup_error e (using_line compile_commands) = false →
      find_cpp_files (project_dir e) (files_below e) ≠ [] →
      init (find_cpp_files (project_dir e) (files_below e)) jobs = Return st0 →
      run (find_cpp_files (project_dir e) (files_below e)) compile_commands fix_
          (get_system_include_args e) st0 tr st →
      loop_done st →
      (print_report e st).1 = Raise exn →
      main e fix_ jobs (probe e ++ tr) (exit_status (@Raise () exn))
  | main_linted compile_commands st0 tr st :
      which_clang_tidy e = true →
      find_compile_commands e = Some compile_commands →
      markup_error e (using_line compile_commands) = false →
      find_cpp_files (project_dir e) (files_below e) ≠ [] →
      init (find_cpp_files (project_dir e) (files_below e)) jobs = Return st0 →
      run (find_cpp_files (project_dir e) (files_below e)) compile_commands fix_
          (get_system_include_args e) st0 tr st →
      loop_done st →
      (print_report e st).1 = Return () →
      main e fix_ jobs (probe e ++ tr) (summary fix_ (lint_all_files_value st)).2.

End Lint.

(** * Vocabulary of the statements *)

(** No extension of a list is a proper tail of another one. *)
Definition tail_free (exts : list string) : Prop :=
  Forall (λ ext1, Forall (λ ext2, fnmatch_star ext1 ext2 = true → ext1 = ext2) exts) exts.

(** [p] lies below the project directory, its name ends in one of the
    extensions, and none of its parts is an excluded directory name. *)
Definition discovered (exts : list string) (project_dir : Path) (fs : tree)
    (p : Path) : Prop :=
  ∃ rel ext, rel ∈ fs ∧ p = joinpath project_dir rel ∧ ext ∈ exts ∧
             (∃ pre, name rel = pre +:+ ext) ∧
             ∀ d, d ∈ exclude_dirs → d ∉ p.

(** A list of paths is the sorted set of the discovered paths. *)
Definition sorted_set_of (files : list Path) (exts : list string)
    (project_dir : Path) (fs : tree) : Prop :=
  (∀ p, p ∈ files ↔ discovered exts project_dir fs p) ∧
  Sorted path_le files ∧
  (NoDup fs → NoDup files).


(** ** format.py *)

(** Sample surroundings of format.py: three sources, the formatter refuses
    the second. *)
Definition sample_format_env : Format.Env :=
  {| Format.project_dir := ["/"; "repo"];
     Format.files_below := [["src"; "c.cpp"]; ["src"; "a.cpp"]; ["src"; "b.cpp"]];
     Format.which_clang_format := true;
     Format.clang_format := λ argv,
       if bool_decide (argv = ["clang-format"; "-i"; "/repo/src/b.cpp"])
       then 1%Z else 0%Z |}.



(** Sample surroundings of format.py in which the dry run refuses
    [b.cpp]. *)
Definition sample_check_env : Format.Env :=
  {| Format.project_dir := ["/"; "repo"];
     Format.files_below := [["src"; "c.cpp"]; ["src"; "a.cpp"]; ["src"; "b.cpp"]];
     Format.which_clang_format := true;
     Format.clang_format := λ argv,
       if bool_decide (argv = ["clang-format"; "--dry-run"; "--Werror";
                               "/repo/src/b.cpp"])
       then 1%Z else 0%Z |}.

(** ** build.py *)

(** Rich renders every one of [lines]. *)
Definition renders (e : Build.Env) (lines : list string) : Prop :=
  Forall (λ line, Build.markup_error e line = false) lines.

(** The lines of [lines] that get printed when they are given to
    [console.print] in turn: those before the first one rich refuses. *)
Fixpoint printed (e : Build.Env) (lines : list string) : list string :=
  match lines with
  | [] => []
  | line :: lines' =>
      if Build.markup_error e line then [] else line :: printed e lines'
  end.

(** What [Build.run_command] (with [check=True]) sets out to print after a
    child process has completed: its stripped standard output when it
    exited with 0, and otherwise the error, its standard error and its
    standard output. *)
Definition success_lines (e : Build.Env) (cp : Build.CompletedProcess)
    : list string :=
  if nonempty (Build.str_strip e (Build.stdout cp))
  then [Build.stdout_line e cp] else [].

Definition failure_lines (e : Build.Env) (cmd : list string)
    (cp : Build.CompletedProcess) : list string :=
  [Build.error_line e cmd cp] ++
  (if nonempty (Build.stderr cp) then [Build.stderr_line cp] else []) ++
  (if nonempty (Build.stdout cp) then [Build.output_line cp] else []).

(** The line about the toolchain that holds its path, if one is found. *)
Definition toolchain_lines (toolchain_file : option string) : list string :=
  match toolchain_file with
  | Some t => if nonempty t then [Build.toolchain_line t] else []
  | None => []
  end.

(** Whether [Build.clean_step] calls [rmtree]; the file system on which it
    calls [mkdir]; the file system and the events it leaves when both
    succeed. *)
Definition cleaning (e : Build.Env) (clean : bool) (fs0 : list Path) : bool :=
  clean && bool_decide (Build.build_dir e ∈ fs0).

Definition fs_before_mkdir (e : Build.Env) (clean : bool) (fs0 : list Path)
    : list Path :=
  if cleaning e clean fs0
  then filter (λ p, ¬ Build.build_dir e `prefix_of` p) fs0 else fs0.

Definition rmtree_events (e : Build.Env) (clean : bool) (fs0 : list Path)
    : list Build.event :=
  if cleaning e clean fs0 then [Build.EvRmtree (Build.build_dir e)] else [].

Definition fs_after_clean (e : Build.Env) (clean : bool) (fs0 : list Path) : list Path :=
  if clean && bool_decide (Build.build_dir e ∈ fs0)
  then Build.build_dir e :: filter (λ p, ¬ Build.build_dir e `prefix_of` p) fs0
  else if bool_decide (Build.build_dir e ∈ fs0) then fs0
  else Build.build_dir e :: fs0.

Definition clean_events (e : Build.Env) (clean : bool) (fs0 : list Path)
    : list Build.event :=
  (if clean && bool_decide (Build.build_dir e ∈ fs0)
   then [Build.EvRmtree (Build.build_dir e)] else [])
  ++ [Build.EvMkdir (Build.build_dir e)].



Definition is_copy (ev : Build.event) : Prop :=
  match ev with Build.EvCopy _ _ => True | _ => False end.


Definition is_spawn (ev : Build.event) : Prop :=
  match ev with Build.EvSpawn _ _ _ _ => True | _ => False end.

Definition database_warning : string :=
  "[yellow]⚠ Warning: compile_commands.json not generated[/yellow]".

(** The file system after [shutil.copy2] has made [dst]. *)
Definition fs_with (dst : Path) (fs0 : list Path) : list Path :=
  if bool_decide (dst ∈ fs0) then fs0 else dst :: fs0.

(** The ways in which a run of [Build.main] ends, each with its cause, the
    result, and the world it leaves. *)
Section main_ending.
Context (e : Build.Env) (mode : Build.build_mode)
        (tests clean verbose export_compile_commands : bool) (jobs : option Z)
        (w : Build.World).

Local Abbreviation bd := (Build.build_dir e).
Local Abbreviation fs1 := (fs_after_clean e clean (Build.fs w)).
Local Abbreviation cfg :=
  (Build.cmake_args e mode tests export_compile_commands
     (Build.find_vcpkg_toolchain e fs1)).
Local Abbreviation r1 := (Build.subprocess_run e cfg bd fs1).
Local Abbreviation bld := (Build.build_args e verbose jobs).
Local Abbreviation r2 := (Build.subprocess_run e bld bd r1.2).
Local Abbreviation ev1 := (Build.EvSpawn cfg bd fs1 r1.1).
Local Abbreviation ev2 := (Build.EvSpawn bld bd r1.2 r2.1).
Local Abbreviation src := (Build.compile_commands_src e).
Local Abbreviation dst := (Build.compile_commands_dst e).

(** Everything before the configuration step goes through. *)
Definition prologue_ok : Prop :=
  renders e (Build.config_cells e) ∧
  (cleaning e clean (Build.fs w) = true →
   Build.shutil_rmtree e bd (Build.fs w) = None) ∧
  Build.path_mkdir e bd (fs_before_mkdir e clean (Build.fs w)) = None ∧
  renders e (toolchain_lines (Build.find_vcpkg_toolchain e fs1)).

(** The configuration process is started. *)
Definition configure_started : Prop :=
  prologue_ok ∧ Build.markup_error e (Build.running_line cfg) = false.

(** The configuration step goes through, with completed process [cp1]. *)
Definition configured (cp1 : Build.CompletedProcess) : Prop :=
  configure_started ∧ r1.1 = Build.Completed cp1 ∧
  Build.returncode cp1 = 0%Z ∧ renders e (success_lines e cp1).

Definition build_started (cp1 : Build.CompletedProcess) : Prop :=
  configured cp1 ∧ Build.markup_error e (Build.running_line bld) = false.

Definition built (cp1 cp2 : Build.CompletedProcess) : Prop :=
  build_started cp1 ∧ r2.1 = Build.Completed cp2 ∧
  Build.returncode cp2 = 0%Z ∧ renders e (success_lines e cp2).

(** Whether the export step copies the compile database. *)
Definition copying : bool :=
  export_compile_commands && bool_decide (src ∈ r2.2).

Inductive main_ending : result () * Build.World → Prop :=
  | end_table :
      ¬ renders e (Build.config_cells e) →
      main_ending (Raise MarkupError, w)
  | end_rmtree msg fs' lines :
      renders e (Build.config_cells e) →
      cleaning e clean (Build.fs w) = true →
      Build.shutil_rmtree e bd (Build.fs w) = Some (msg, fs') →
      main_ending
        (Raise (OSError msg),
         {| Build.fs := fs';
            Build.console := Build.console w ++ lines;
            Build.trace := Build.trace w |})
  | end_mkdir msg lines :
      renders e (Build.config_cells e) →
      (cleaning e clean (Build.fs w) = true →
       Build.shutil_rmtree e bd (Build.fs w) = None) →
      Build.path_mkdir e bd (fs_before_mkdir e clean (Build.fs w)) = Some msg →
      main_ending
        (Raise (OSError msg),
         {| Build.fs := fs_before_mkdir e clean (Build.fs w);
            Build.console := Build.console w ++ lines;
            Build.trace := Build.trace w ++ rmtree_events e clean (Build.fs w) |})
  | end_toolchain lines :
      renders e (Build.config_cells e) →
      (cleaning e clean (Build.fs w) = true →
       Build.shutil_rmtree e bd (Build.fs w) = None) →
      Build.path_mkdir e bd (fs_before_mkdir e clean (Build.fs w)) = None →
      ¬ renders e (toolchain_lines (Build.find_vcpkg_toolchain e fs1)) →
      main_ending
        (Raise MarkupError,
         {| Build.fs := fs1;
            Build.console := Build.console w ++ lines;
            Build.trace := Build.trace w ++ clean_events e clean (Build.fs w) |})
  | end_configure_line lines :
      prologue_ok →
      Build.markup_error e (Build.running_line cfg) = true →
      main_ending
        (Raise MarkupError,
         {| Build.fs := fs1;
            Build.console := Build.console w ++ lines;
            Build.trace := Build.trace w ++ clean_events e clean (Build.fs w) |})
  | end_configure_spawn exn lines :
      configure_started →
      Build.spawn_exception cfg r1.1 = Some exn →
      main_ending
        (Raise exn,
         {| Build.fs := r1.2;
            Build.console := Build.console w ++ lines;
            Build.trace := Build.trace w ++ clean_events e clean (Build.fs w) ++ [ev1] |})
  | end_configure_failed cp1 lines :
      configure_started →
      r1.1 = Build.Completed cp1 →
      Build.returncode cp1 ≠ 0%Z →
      renders e (failure_lines e cfg cp1) →
      (∀ line, line ∈ failure_lines e cfg cp1 → line ∈ lines) →
      main_ending
        (SysExit 1,
         {| Build.fs := r1.2;
            Build.console := Build.console w ++ lines;
            Build.trace := Build.trace w ++ clean_events e clean (Build.fs w) ++ [ev1] |})
  | end_configure_report cp1 lines :
      configure_started →
      r1.1 = Build.Completed cp1 →
      Build.returncode cp1 ≠ 0%Z →
      ¬ renders e (failure_lines e cfg cp1) →
      main_ending
        (Raise MarkupError,
         {| Build.fs := r1.2;
            Build.console := Build.console w ++ lines;
            Build.trace := Build.trace w ++ clean_events e clean (Build.fs w) ++ [ev1] |})
  | end_configure_stdout cp1 lines :
      configure_started →
      r1.1 = Build.Completed cp1 →
      Build.returncode cp1 = 0%Z →
      ¬ renders e (success_lines e cp1) →
      main_ending
        (Raise MarkupError,
         {| Build.fs := r1.2;
            Build.console := Build.console w ++ lines;
            Build.trace := Build.trace w ++ clean_events e clean (Build.fs w) ++ [ev1] |})
  | end_build_line cp1 lines :
      configured cp1 →
      Build.markup_error e (Build.running_line bld) = true →
      main_ending
        (Raise MarkupError,
         {| Build.fs := r1.2;
            Build.console := Build.console w ++ lines;
            Build.trace := Build.trace w ++ clean_events e clean (Build.fs w) ++ [ev1] |})
  | end_build_spawn cp1 exn lines :
      build_started cp1 →
      Build.spawn_exception bld r2.1 = Some exn →
      main_ending
        (Raise exn,
         {| Build.fs := r2.2;
            Build.console := Build.console w ++ lines;
            Build.trace :=
              Build.trace w ++ clean_events e clean (Build.fs w) ++ [ev1; ev2] |})
  | end_build_failed cp1 cp2 lines :
      build_started cp1 →
      r2.1 = Build.Completed cp2 →
      Build.returncode cp2 ≠ 0%Z →
      renders e (failure_lines e bld cp2) →
      (∀ line, line ∈ failure_lines e bld cp2 → line ∈ lines) →
      main_ending
        (SysExit 1,
         {| Build.fs := r2.2;
            Build.console := Build.console w ++ lines;
            Build.trace :=
              Build.trace w ++ clean_events e clean (Build.fs w) ++ [ev1; ev2] |})
  | end_build_report cp1 cp2 lines :
      build_started cp1 →
      r2.1 = Build.Completed cp2 →
      Build.returncode cp2 ≠ 0%Z →
      ¬ renders e (failure_lines e bld cp2) →
      main_ending
        (Raise MarkupError,
         {| Build.fs := r2.2;
            Build.console := Build.console w ++ lines;
            Build.trace :=
              Build.trace w ++ clean_events e clean (Build.fs w) ++ [ev1; ev2] |})
  | end_build_stdout cp1 cp2 lines :
      build_started cp1 →
      r2.1 = Build.Completed cp2 →
      Build.returncode cp2 = 0%Z →
      ¬ renders e (success_lines e cp2) →
      main_ending
        (Raise MarkupError,
         {| Build.fs := r2.2;
            Build.console := Build.console w ++ lines;
            Build.trace :=
              Build.trace w ++ clean_events e clean (Build.fs w) ++ [ev1; ev2] |})
  | end_copy cp1 cp2 msg fs' lines :
      built cp1 cp2 →
      copying = true →
      Build.shutil_copy2 e src dst r2.2 = Some (msg, fs') →
      main_ending
        (Raise (OSError msg),
         {| Build.fs := fs';
            Build.console := Build.console w ++ lines;
            Build.trace :=
              Build.trace w ++ clean_events e clean (Build.fs w) ++ [ev1; ev2] |})
  | end_exported_line cp1 cp2 lines :
      built cp1 cp2 →
      copying = true →
      Build.shutil_copy2 e src dst r2.2 = None →
      Build.markup_error e (Build.exported_line e) = true →
      main_ending
        (Raise MarkupError,
         {| Build.fs := fs_with dst r2.2;
            Build.console := Build.console w ++ lines;
            Build.trace :=
              Build.trace w ++ clean_events e clean (Build.fs w) ++
              [ev1; ev2; Build.EvCopy src dst] |})
  | end_exported_panel cp1 cp2 lines :
      built cp1 cp2 →
      copying = true →
      Build.shutil_copy2 e src dst r2.2 = None →
      Build.markup_error e (Build.exported_line e) = false →
      Build.markup_error e (Build.results_panel e tests) = true →
      main_ending
        (Raise MarkupError,
         {| Build.fs := fs_with dst r2.2;
            Build.console := Build.console w ++ lines;
            Build.trace :=
              Build.trace w ++ clean_events e clean (Build.fs w) ++
              [ev1; ev2; Build.EvCopy src dst] |})
  | end_exported cp1 cp2 lines :
      built cp1 cp2 →
      copying = true →
      Build.shutil_copy2 e src dst r2.2 = None →
      Build.markup_error e (Build.exported_line e) = false →
      Build.markup_error e (Build.results_panel e tests) = false →
      Build.exported_line e ∈ lines →
      main_ending
        (Return (),
         {| Build.fs := fs_with dst r2.2;
            Build.console := Build.console w ++ lines;
            Build.trace :=
              Build.trace w ++ clean_events e clean (Build.fs w) ++
              [ev1; ev2; Build.EvCopy src dst] |})
  | end_panel cp1 cp2 lines :
      built cp1 cp2 →
      copying = false →
      Build.markup_error e (Build.results_panel e tests) = true →
      (export_compile_commands = true → database_warning ∈ lines) →
      main_ending
        (Raise MarkupError,
         {| Build.fs := r2.2;
            Build.console := Build.console w ++ lines;
            Build.trace :=
              Build.trace w ++ clean_events e clean (Build.fs w) ++ [ev1; ev2] |})
  | end_not_exported cp1 cp2 lines :
      built cp1 cp2 →
      copying = false →
      Build.markup_error e (Build.results_panel e tests) = false →
      (export_compile_commands = true → database_warning ∈ lines) →
      main_ending
        (Return (),
         {| Build.fs := r2.2;
            Build.console := Build.console w ++ lines;
            Build.trace :=
              Build.trace w ++ clean_events e clean (Build.fs w) ++ [ev1; ev2] |}).

End main_ending.

(** Sample surroundings of build.py, by the processor count, [VCPKG_ROOT],
    the external tool, the texts rich refuses and the behaviour of
    [shutil.rmtree]; [mkdir] and [copy2] succeed, and no string of the
    samples has white space around it or a quote in it. *)
Definition sample_surroundings (cpu : option Z) (vcpkg_root : option string)
    (tool : list string → Path → list Path → Build.outcome * list Path)
    (refused : string → bool)
    (rmtree : Path → list Path → option (string * list Path)) : Build.Env :=
  {| Build.project_root := ["/"; "repo"];
     Build.home := ["/"; "home"; "dev"];
     Build.environ_VCPKG_ROOT := vcpkg_root;
     Build.cpu_count := cpu;
     Build.resolve := λ p, p;
     Build.path_of_string := λ s, [s];
     Build.subprocess_run := tool;
     Build.markup_error := refused;
     Build.str_strip := λ s, s;
     Build.str_repr := λ s, "'" +:+ s +:+ "'";
     Build.signal_repr := λ n, None;
     Build.shutil_rmtree := rmtree;
     Build.path_mkdir := λ d fs0, None;
     Build.shutil_copy2 := λ src dst fs0, None |}.

(** A [cmake] whose configuration and build steps exit with the given
    statuses and leave the file system as it is. *)
Definition sample_cmake (configure_status build_status : Z)
    (argv : list string) (cwd : Path) (fs0 : list Path)
    : Build.outcome * list Path :=
  (Build.Completed
     (if bool_decide (argv !! 1 = Some "--build")
      then {| Build.returncode := build_status;
              Build.stdout := "[1/2] Building"; Build.stderr := "" |}
      else {| Build.returncode := configure_status;
              Build.stdout := "-- Configuring";
              Build.stderr := "CMake Error" |}),
   fs0).

(** No toolchain anywhere, eight cores, that [cmake], a rich that refuses
    nothing, an [rmtree] that succeeds. *)
Definition sample_build_env (configure_status build_status : Z) : Build.Env :=
  sample_surroundings (Some 8%Z) None (sample_cmake configure_status build_status)
    (λ _, false) (λ d fs0, None).

Definition sample_build_world : Build.World :=
  {| Build.fs := [["/"; "repo"]; ["/"; "repo"; "build"];
                  ["/"; "repo"; "build"; "CMakeCache.txt"];
                  ["/"; "repo"; "src"; "a.cpp"]];
     Build.console := [];
     Build.trace := [] |}.

(** The same without [cmake] on the path; with a [cmake] whose build step
    writes the compile database; with a build directory that is a symbolic
    link, which [shutil.rmtree] refuses; and with a [cmake] whose
    configuration step prints a line that rich refuses. *)
Definition sample_build_env_no_cmake : Build.Env :=
  sample_surroundings None None (λ argv cwd fs0, (Build.NotFound, fs0))
    (λ _, false) (λ d fs0, None).

Definition sample_build_env_database : Build.Env :=
  sample_surroundings (Some 2%Z) (Some "")
    (λ argv cwd fs0,
       (Build.Completed
          {| Build.returncode := 0; Build.stdout := ""; Build.stderr := "" |},
        if bool_decide (argv !! 1 = Some "--build")
        then ["/"; "repo"; "build"; "compile_commands.json"] :: fs0
        else fs0))
    (λ _, false) (λ d fs0, None).


Definition sample_build_env_markup : Build.Env :=
  sample_surroundings (Some 8%Z) None
    (λ argv cwd fs0,
       (Build.Completed
          {| Build.returncode := 0; Build.stdout := "[/x] done";
             Build.stderr := "" |}, fs0))
    (λ line, bool_decide (line = "[dim][/x] done[/dim]")) (λ d fs0, None).

(** ** lint.py *)

(** What a run of the fan-out did, read off its labels: the tasks whose
    child process was started, the tasks whose child process exited with
    output that decodes, what [lint_file] made of each such exit, and what
    the loop over [as_completed] received; each in the order of the run. *)
Definition spawned (tr : list Lint.label) : list nat :=
  omap (λ l, match l with Lint.Spawn i _ => Some i | _ => None end) tr.

Definition exited (tr : list Lint.label) : list nat :=
  omap (λ l, match l with Lint.Exit i _ _ _ => Some i | _ => None end) tr.

Definition exit_results (files : list Path) (tr : list Lint.label)
    : list Lint.lint_result :=
  omap (λ l, match l with
             | Lint.Exit i returncode stdout stderr =>
                 (λ file, (file, (returncode =? 0)%Z, stdout +:+ stderr))
                   <$> files !! i
             | _ => None
             end) tr.

Definition yielded (tr : list Lint.label) : list Lint.lint_result :=
  omap (λ l, match l with Lint.Yield r => Some r | _ => None end) tr.

(** The exit statuses of the child processes of a run. *)
Definition exit_codes (tr : list Lint.label) : list Z :=
  omap (λ l, match l with Lint.Exit _ returncode _ _ => Some returncode | _ => None end) tr.

(** The tasks that an exception has ended: because their child process
    could not be started, or because its output did not decode. *)
Definition refused (tr : list Lint.label) : list nat :=
  omap (λ l, match l with Lint.SpawnFailed i _ _ => Some i | _ => None end) tr.

Definition garbled (tr : list Lint.label) : list nat :=
  omap (λ l, match l with Lint.Garbled i _ => Some i | _ => None end) tr.

Definition raised (tr : list Lint.label) : list nat := refused tr ++ garbled tr.

(** The failed results among the results received. *)
Definition failures (rs : list Lint.lint_result) : list (Path * string) :=
  omap (λ r : Lint.lint_result, if r.1.2 then None else Some (r.1.1, r.2)) rs.

(** An ended task in the queue of [as_completed]: its result, or nothing
    when an exception ended it. *)
Definition queued (st : Lint.state) (i : nat) (o : option Lint.lint_result)
    : Prop :=
  match o with
  | Some r => Lint.tasks st !! i = Some (Lint.Finished r)
  | None => ∃ exn, Lint.tasks st !! i = Some (Lint.Crashed exn)
  end.

(** The invariant of the fan-out over [files] with [K] permits. *)
Record fan_out_inv (files : list Path) (K : nat) (tr : list Lint.label)
    (st : Lint.state) : Prop := {
  inv_tasks : length (Lint.tasks st) = length files;
  inv_sem : Lint.sem_value st + Lint.in_flight st = K;
  inv_todo : Lint.todo st + length (yielded tr) = length files;
  inv_progress : Lint.progress st = length (yielded tr);
  inv_queue :
    ∃ pending,
      exit_results files tr = yielded tr ++ omap id pending ∧
      Forall2 (queued st) (Lint.done_queue st) pending;
  inv_results : length (exit_results files tr) = length (exited tr);
  inv_codes : length (exit_codes tr) = length (exited tr);
  inv_labels :
    length tr = length (spawned tr) + length (exited tr) + length (yielded tr)
                + length (refused tr) + length (garbled tr);
  inv_started : ∀ i,
    i ∈ spawned tr ++ refused tr ↔
    ∃ t, Lint.tasks st !! i = Some t ∧ t ≠ Lint.Waiting;
  inv_exited : ∀ i,
    i ∈ exited tr ↔ ∃ r, Lint.tasks st !! i = Some (Lint.Finished r);
  inv_raised : ∀ i,
    i ∈ raised tr ↔ ∃ exn, Lint.tasks st !! i = Some (Lint.Crashed exn);
  inv_garbled : ∀ i, i ∈ garbled tr → i ∈ spawned tr;
  inv_started_once : NoDup (spawned tr ++ refused tr);
  inv_ended_once : NoDup (exited tr ++ garbled tr);
  inv_failed : Lint.failed_files st = failures (yielded tr);
  inv_success :
    Forall (λ r : Lint.lint_result, r.1.2 = true) (exit_results files tr) ↔
    Forall (λ returncode, returncode = 0%Z) (exit_codes tr)
}.

(** Rich renders every one of [lines]. *)
Definition report_renders (e : Lint.Env) (lines : list string) : Prop :=
  Forall (λ line, Lint.markup_error e line = false) lines.

(** Sample surroundings of lint.py, by the files below the project
    directory, whether clang-tidy is installed, and the platform; rich
    refuses nothing. *)
Definition sample_lint_surroundings (files : tree) (which darwin : bool)
    : Lint.Env :=
  {| Lint.project_dir := ["/"; "repo"];
     Lint.files_below := files;
     Lint.which_clang_tidy := which;
     Lint.platform_darwin := darwin;
     Lint.xcode_include_args := [];
     Lint.markup_error := λ _, false |}.

(** A compile database and one source, on Linux. *)
Definition sample_lint_env : Lint.Env :=
  sample_lint_surroundings
    [["build"; "compile_commands.json"]; ["src"; "a.cpp"]; ["include"; "a.h"]]
    true false.

Definition sample_source : Path := ["/"; "repo"; "src"; "a.cpp"].
Definition sample_database : Path := ["/"; "repo"; "build"; "compile_commands.json"].

(** A run on [sample_source] with one permit in which clang-tidy exits with
    status 1, and the state it ends in. *)
Definition sample_run : list Lint.label :=
  [Lint.Spawn 0 (Lint.lint_cmd sample_database false [] sample_source);
   Lint.Exit 0 1 "a.cpp:1:1: warning" "1 warning generated.";
   Lint.Yield (sample_source, false, "a.cpp:1:1: warning1 warning generated.")].

Definition sample_final : Lint.state :=
  {| Lint.sem_value := 1;
     Lint.tasks := [Lint.Finished (sample_source, false,
                                   "a.cpp:1:1: warning1 warning generated.")];
     Lint.done_queue := [];
     Lint.todo := 0;
     Lint.progress := 1;
     Lint.console := ["[red]✗[/red] a.cpp"];
     Lint.failed_files := [(sample_source, "a.cpp:1:1: warning1 warning generated.")] |}.

(** A run on [sample_source] in which clang-tidy exits with status 0 but
    writes a byte that is not UTF-8, and the state it ends in. *)
Definition sample_garbled_run : list Lint.label :=
  [Lint.Spawn 0 (Lint.lint_cmd sample_database false [] sample_source);
   Lint.Garbled 0 0].

Definition sample_garbled_final : Lint.state :=
  {| Lint.sem_value := 1;
     Lint.tasks := [Lint.Crashed UnicodeDecodeError];
     Lint.done_queue := [0];
     Lint.todo := 1;
     Lint.progress := 0;
     Lint.console := [];
     Lint.failed_files := [] |}.

(** The same surroundings without clang-tidy; and on macOS. *)
Definition sample_lint_env_no_tool : Lint.Env :=
  sample_lint_surroundings
    [["build"; "compile_commands.json"]; ["src"; "a.cpp"]] false false.

Definition sample_lint_env_darwin : Lint.Env :=
  sample_lint_surroundings
    [["build"; "compile_commands.json"]; ["src"; "a.cpp"]] true true.

(** The line the loop of [lint_all_files] prints for a result. *)
Definition result_line (r : Lint.lint_result) : string :=
  (if r.1.2 then "[green]✓[/green] " else "[red]✗[/red] ") +:+ name r.1.1.

(** * Properties of the monad *)

Lemma bind_eq {W A B} (m : M W A) (f : A → M W B) (w : W) :
  (m ≫= f) w =
    match m w with
    | (Return a, w') => f a w'
    | (SysExit c, w') => (SysExit c, w')
    | (Raise exn, w') => (Raise exn, w')
    end.
Proof. done. Qed.

(** * Properties of paths *)

Lemma fnmatch_star_unfold nm ext :
  fnmatch_star nm ext =
    String.eqb nm ext ||
    match nm with
    | EmptyString => false
    | String _ nm' => fnmatch_star nm' ext
    end.
Proof. by destruct nm. Qed.

Lemma fnmatch_star_spec nm ext :
  fnmatch_star nm ext = true ↔ ∃ pre, nm = pre +:+ ext.
Proof.
  induction nm as [|a nm IH]; rewrite fnmatch_star_unfold.
  - rewrite orb_false_r, String.eqb_eq. split.
    + intros <-. by exists "".
    + intros [pre Hpre]. destruct pre; simpl in Hpre; [done|discriminate].
  - rewrite orb_true_iff, String.eqb_eq, IH. split.
    + intros [<-|[pre ->]]; [by exists ""|by exists (String a pre)].
    + intros [[|b pre] Hpre]; simpl in Hpre; [by left|].
      right. exists pre. by injection Hpre.
Qed.

Lemma leb_le s1 s2 : String.leb s1 s2 = true ↔ String.le s1 s2.
Proof. unfold String.le. by rewrite Is_true_true. Qed.

Lemma path_leb_cons a p b q :
  path_leb (a :: p) (b :: q) = if String.eqb a b then path_leb p q else String.leb a b.
Proof. done. Qed.

Global Instance path_le_trans : Transitive path_le.
Proof.
  unfold path_le. intros p. induction p as [|a p IH]; intros [|b q] [|c r]; try done.
  rewrite !path_leb_cons.
  destruct (String.eqb_spec a b) as [->|Hab], (String.eqb_spec b c) as [->|Hbc];
    try done.
  - apply IH.
  - by destruct (String.eqb_spec a c) as [->|Hac].
  - rewrite !leb_le. intros Hle1 Hle2.
    destruct (String.eqb_spec a c) as [->|_].
    + destruct Hab. by apply (anti_symm String.le).
    + apply leb_le. by trans b.
Qed.

Global Instance path_le_anti_symm : AntiSymm (=) path_le.
Proof.
  unfold path_le. intros p. induction p as [|a p IH]; intros [|b q]; try done.
  rewrite !path_leb_cons, (String.eqb_sym b a).
  destruct (String.eqb_spec a b) as [->|Hab].
  - intros ??. f_equal. by apply IH.
  - rewrite !leb_le. intros ??. destruct Hab. by apply (anti_symm String.le).
Qed.

Global Instance path_le_total : Total path_le.
Proof.
  unfold path_le. intros p. induction p as [|a p IH]; intros [|b q]; auto.
  rewrite !path_leb_cons, (String.eqb_sym b a).
  destruct (String.eqb_spec a b) as [->|Hab]; [apply IH|].
  rewrite !leb_le. apply (total String.le).
Qed.

(** * Properties of file discovery *)

Lemma sorted_Sorted l : Sorted path_le (sorted l).
Proof. apply (Sorted_merge_sort path_le). Qed.

Lemma sorted_Permutation l : sorted l ≡ₚ l.
Proof. apply merge_sort_Permutation. Qed.

Lemma sorted_unique l1 l2 : l1 ≡ₚ l2 → sorted l1 = sorted l2.
Proof.
  intros Hperm. apply (Sorted_unique path_le); auto using sorted_Sorted.
  by rewrite !sorted_Permutation.
Qed.

Lemma in_excluded_dir_false dirs file :
  in_excluded_dir dirs file = false ↔ ∀ d, d ∈ dirs → d ∉ file.
Proof.
  unfold in_excluded_dir. rewrite <-not_true_iff_false, existsb_exists. split.
  - intros Hno d Hd Hin. apply Hno. exists d.
    by rewrite <-list_elem_of_In, bool_decide_eq_true.
  - intros Hall (d & Hd & Hin). apply (Hall d).
    + by apply list_elem_of_In.
    + by apply bool_decide_eq_true in Hin.
Qed.

Lemma elem_of_collect_files exts dirs project_dir fs p :
  p ∈ collect_files exts dirs project_dir fs ↔
    ∃ rel ext, rel ∈ fs ∧ p = project_dir ++ rel ∧ ext ∈ exts ∧
               fnmatch_star (name rel) ext = true ∧
               ∀ d, d ∈ dirs → d ∉ p.
Proof.
  unfold collect_files, rglob, joinpath. rewrite list_elem_of_bind. split.
  - intros (ext & Hp & Hext). apply list_elem_of_filter in Hp as [Hex Hp].
    apply list_elem_of_fmap in Hp as (rel & -> & Hrel).
    apply list_elem_of_filter in Hrel as [Hm Hrel].
    exists rel, ext. by rewrite <-in_excluded_dir_false.
  - intros (rel & ext & Hrel & -> & Hext & Hm & Hex). exists ext. split; [|done].
    apply list_elem_of_filter. split; [by apply in_excluded_dir_false|].
    apply list_elem_of_fmap. exists rel. split; [done|].
    by apply list_elem_of_filter.
Qed.

Lemma collect_files_Permutation exts exts' dirs project_dir fs fs' :
  exts ≡ₚ exts' → fs ≡ₚ fs' →
  collect_files exts dirs project_dir fs ≡ₚ collect_files exts' dirs project_dir fs'.
Proof.
  intros Hexts Hfs. unfold collect_files, rglob.
  rewrite <-Hexts. clear Hexts. induction exts as [|ext exts IH]; [done|].
  simpl. by rewrite IH, Hfs.
Qed.

(** Two patterns that match one name: one extension is a tail of the other. *)
Lemma fnmatch_star_overlap nm ext1 ext2 :
  fnmatch_star nm ext1 = true → fnmatch_star nm ext2 = true →
  fnmatch_star ext1 ext2 = true ∨ fnmatch_star ext2 ext1 = true.
Proof.
  induction nm as [|a nm IH];
    [rewrite !(fnmatch_star_unfold "")|rewrite !(fnmatch_star_unfold (String _ _))];
    rewrite !orb_true_iff, !String.eqb_eq.
  - intros [<-|?] [<-|?]; try done. left. by rewrite fnmatch_star_unfold, String.eqb_refl.
  - intros [<-|H1] [<-|H2]; auto.
    + left. by rewrite fnmatch_star_unfold, String.eqb_refl.
    + left. rewrite fnmatch_star_unfold, H2. apply orb_true_r.
    + right. rewrite fnmatch_star_unfold, H1. apply orb_true_r.
Qed.

Lemma collect_files_NoDup exts dirs project_dir fs :
  NoDup exts → tail_free exts → NoDup fs →
  NoDup (collect_files exts dirs project_dir fs).
Proof.
  intros Hexts Hfree Hfs. unfold collect_files. apply NoDup_bind; [| |done].
  - intros ext1 ext2 p Hext1 Hext2 Hp1 Hp2.
    apply list_elem_of_filter in Hp1 as [_ Hp1], Hp2 as [_ Hp2].
    unfold rglob, joinpath in *.
    apply list_elem_of_fmap in Hp1 as (rel1 & -> & Hrel1).
    apply list_elem_of_fmap in Hp2 as (rel2 & Heq & Hrel2).
    apply (inj (app project_dir)) in Heq as <-.
    apply list_elem_of_filter in Hrel1 as [Hm1 _], Hrel2 as [Hm2 _].
    unfold tail_free in Hfree. rewrite Forall_forall in Hfree.
    pose proof (Hfree _ Hext1) as H12. pose proof (Hfree _ Hext2) as H21.
    rewrite Forall_forall in H12, H21.
    destruct (fnmatch_star_overlap _ _ _ Hm1 Hm2); [|symmetry]; auto.
  - intros ext _. apply NoDup_filter. unfold rglob.
    apply (NoDup_fmap_2 (joinpath project_dir)). by apply NoDup_filter.
Qed.

Lemma Format_extensions_ok : NoDup Format.extensions ∧ tail_free Format.extensions.
Proof. split; [by apply (bool_decide_unpack _)|]. repeat constructor; by vm_compute. Qed.

Lemma Lint_extensions_ok : NoDup Lint.extensions ∧ tail_free Lint.extensions.
Proof. split; [by apply (bool_decide_unpack _)|]. repeat constructor; by vm_compute. Qed.

Lemma find_cpp_files_sorted_set_of exts project_dir fs :
  NoDup exts → tail_free exts →
  sorted_set_of (sorted (collect_files exts exclude_dirs project_dir fs))
                exts project_dir fs.
Proof.
  intros Hexts Hfree. split; [|split].
  - intros p. rewrite sorted_Permutation, elem_of_collect_files.
    unfold discovered, joinpath. by setoid_rewrite fnmatch_star_spec.
  - apply sorted_Sorted.
  - intros Hfs. rewrite sorted_Permutation. by apply collect_files_NoDup.
Qed.

(** C6. File discovery (both copies of [find_cpp_files]) returns the sorted
    set of the paths below the project directory whose name ends in one of
    the configured extensions and none of whose parts is [build],
    [vcpkg_installed], [.cache] or [.git], at whatever depth the part
    occurs.  The result does not depend on the order in which the extension
    set is iterated nor on the order in which the directory walk meets the
    entries, so two calls on an unchanged file system agree; and on a file
    system with no match the result is the empty list, not an error. *)
Theorem find_cpp_files_deterministic_sorted_set (project_dir : Path) (fs : tree) :
  sorted_set_of (Format.find_cpp_files project_dir fs)
                Format.extensions project_dir fs ∧
  sorted_set_of (Lint.find_cpp_files project_dir fs)
                Lint.extensions project_dir fs ∧
  (∀ order fs', order ≡ₚ Format.extensions → fs' ≡ₚ fs →
     Format.find_cpp_files_in order project_dir fs' =
     Format.find_cpp_files project_dir fs) ∧
  (∀ order fs', order ≡ₚ Lint.extensions → fs' ≡ₚ fs →
     Lint.find_cpp_files_in order project_dir fs' =
     Lint.find_cpp_files project_dir fs) ∧
  ((∀ p, ¬ discovered Format.extensions project_dir fs p) →
     Format.find_cpp_files project_dir fs = []) ∧
  ((∀ p, ¬ discovered Lint.extensions project_dir fs p) →
     Lint.find_cpp_files project_dir fs = []).
Proof.
  pose proof Format_extensions_ok as [??]. pose proof Lint_extensions_ok as [??].
  assert (HF := find_cpp_files_sorted_set_of Format.extensions project_dir fs).
  assert (HL := find_cpp_files_sorted_set_of Lint.extensions project_dir fs).
  split_and!; auto.
  - intros order fs' Horder Hfs. apply sorted_unique.
    by apply collect_files_Permutation.
  - intros order fs' Horder Hfs. apply sorted_unique.
    by apply collect_files_Permutation.
  - intros Hnone. apply elem_of_nil_inv. intros p Hp.
    apply (Hnone p). by apply HF.
  - intros Hnone. apply elem_of_nil_inv. intros p Hp.
    apply (Hnone p). by apply HL.
Qed.

Example find_cpp_files_example :
  let fs := [["src"; "b.cpp"]; ["build"; "gen.cpp"]; ["include"; "ai"; "types.h"];
             ["src"; "a.cc"]; ["third"; ".git"; "deep"; "x.cxx"]; ["README.md"]] in
  Format.find_cpp_files ["/"; "repo"] fs =
    [["/"; "repo"; "include"; "ai"; "types.h"]; ["/"; "repo"; "src"; "a.cc"];
     ["/"; "repo"; "src"; "b.cpp"]] ∧
  Lint.find_cpp_files ["/"; "repo"] fs =
    [["/"; "repo"; "src"; "a.cc"]; ["/"; "repo"; "src"; "b.cpp"]] ∧
  Lint.find_cpp_files ["/"; "home"; "build"; "repo"] fs = [].
Proof. by vm_compute. Qed.

(** * Properties of format.py *)

Section format_apply.
Import Format.
Context (e : Env).

Lemma format_and_tick_ok file w :
  clang_format e (format_cmd file) = 0%Z →
  format_and_tick e file w =
    (Return (), {| console := console w ++ [tick file];
                   spawned := spawned w ++ [format_cmd file] |}).
Proof.
  intros Hrc. unfold format_and_tick, format_file, mbind, M_bind, spawn. simpl.
  by rewrite Hrc.
Qed.

Lemma format_and_tick_fail file w :
  clang_format e (format_cmd file) ≠ 0%Z →
  format_and_tick e file w =
    (Raise (CalledProcessError (format_cmd file) (clang_format e (format_cmd file))),
     {| console := console w; spawned := spawned w ++ [format_cmd file] |}).
Proof.
  intros Hrc. unfold format_and_tick, format_file, mbind, M_bind, spawn. simpl.
  apply Z.eqb_neq in Hrc. by rewrite Hrc.
Qed.

Lemma for_each_cons {A} (x : A) l body w :
  for_each (x :: l) body w =
    match body x w with
    | (Return _, w') => for_each l body w'
    | (SysExit c, w') => (SysExit c, w')
    | (Raise exn, w') => (Raise exn, w')
    end.
Proof. done. Qed.

(** The loop of apply mode up to the first file the formatter refuses. *)
Lemma for_each_format_fail pre file post w :
  (∀ f, f ∈ pre → clang_format e (format_cmd f) = 0%Z) →
  clang_format e (format_cmd file) ≠ 0%Z →
  for_each (pre ++ file :: post) (format_and_tick e) w =
    (Raise (CalledProcessError (format_cmd file) (clang_format e (format_cmd file))),
     {| console := console w ++ (tick <$> pre);
        spawned := spawned w ++ (format_cmd <$> pre) ++ [format_cmd file] |}).
Proof.
  intros Hpre Hfile. revert w. induction pre as [|f pre IH]; intros w.
  - simpl app. rewrite for_each_cons, format_and_tick_fail by done.
    by rewrite app_nil_r.
  - simpl app. rewrite for_each_cons, format_and_tick_ok, IH.
    + simpl. by rewrite <-!app_assoc.
    + intros g Hg. apply Hpre. by right.
    + apply Hpre. by left.
Qed.

Lemma for_each_format_ok files w :
  (∀ f, f ∈ files → clang_format e (format_cmd f) = 0%Z) →
  for_each files (format_and_tick e) w =
    (Return (), {| console := console w ++ (tick <$> files);
                   spawned := spawned w ++ (format_cmd <$> files) |}).
Proof.
  revert w. induction files as [|f files IH]; intros w Hall.
  - simpl. rewrite !app_nil_r. by destruct w.
  - rewrite for_each_cons, format_and_tick_ok, IH.
    + simpl. by rewrite <-!app_assoc.
    + intros g Hg. apply Hall. by right.
    + apply Hall. by left.
Qed.


End format_apply.

(** C9. In apply mode (no [--check]), when the formatter exits non-zero on a
    file, the run dies at once from the [CalledProcessError] that nothing
    catches (exit status 1): the child processes of the run are those of the
    files before it in the sorted discovery order and its own, none is
    started for the files after it, and the console shows the ticks of the
    files before it and no aggregate report. *)
Theorem format_apply_dies_on_first_failure (e : Format.Env)
    (pre : list Path) (file : Path) (post : list Path) (w : Format.World) :
  Format.which_clang_format e = true →
  Format.find_cpp_files (Format.project_dir e) (Format.files_below e)
    = pre ++ file :: post →
  (∀ f, f ∈ pre → Format.clang_format e (Format.format_cmd f) = 0%Z) →
  Format.clang_format e (Format.format_cmd file) ≠ 0%Z →
  (Format.main e false w).1 =
    Raise (CalledProcessError (Format.format_cmd file)
             (Format.clang_format e (Format.format_cmd file))) ∧
  exit_status (Format.main e false w).1 = 1%Z ∧
  Format.spawned (Format.main e false w).2 =
    Format.spawned w ++ (Format.format_cmd <$> pre) ++ [Format.format_cmd file] ∧
  Format.console (Format.main e false w).2 =
    Format.console w ++ [Format.formatting_banner (pre ++ file :: post)]
                     ++ (Format.tick <$> pre).
Proof.
  intros Hwhich Hfiles Hpre Hfile.
  assert (Format.main e false w =
    (Raise (CalledProcessError (Format.format_cmd file)
              (Format.clang_format e (Format.format_cmd file))),
     {| Format.console := Format.console w
          ++ [Format.formatting_banner (pre ++ file :: post)]
          ++ (Format.tick <$> pre);
        Format.spawned := Format.spawned w ++ (Format.format_cmd <$> pre)
          ++ [Format.format_cmd file] |})) as ->; [|done].
  assert (Format.main e false w = Format.apply_mode e (pre ++ file :: post) w) as ->.
  { unfold Format.main. rewrite Hwhich, Hfiles. by destruct pre. }
  unfold Format.apply_mode. rewrite bind_eq. unfold Format.print at 1.
  cbv beta iota. rewrite bind_eq.
  rewrite (for_each_format_fail e pre file post) by done.
  simpl. by rewrite <-!app_assoc.
Qed.

Lemma format_apply_dies_on_first_failure_witness :
  let w := {| Format.console := []; Format.spawned := [] |} in
  (Format.main sample_format_env false w).1 =
    Raise (CalledProcessError ["clang-format"; "-i"; "/repo/src/b.cpp"] 1) ∧
  exit_status (Format.main sample_format_env false w).1 = 1%Z ∧
  Format.spawned (Format.main sample_format_env false w).2 =
    [["clang-format"; "-i"; "/repo/src/a.cpp"];
     ["clang-format"; "-i"; "/repo/src/b.cpp"]] ∧
  Format.console (Format.main sample_format_env false w).2 =
    ["[blue]Formatting 3 C++ files...[/blue]" +:+ nl; "[green]✓[/green] a.cpp"].
Proof.
  apply (format_apply_dies_on_first_failure sample_format_env
           [["/"; "repo"; "src"; "a.cpp"]] ["/"; "repo"; "src"; "b.cpp"]
           [["/"; "repo"; "src"; "c.cpp"]]
           {| Format.console := []; Format.spawned := [] |}).
  - reflexivity.
  - vm_compute. reflexivity.
  - intros f Hf. apply list_elem_of_singleton in Hf. subst f. reflexivity.
  - vm_compute. discriminate.
Defined.

(** * Properties of build.py *)

Lemma find_app_first {A} (P : A → bool) before x after :
  (∀ y, y ∈ before → P y = false) → P x = true →
  find P (before ++ x :: after) = Some x.
Proof.
  intros Hbefore Hx. induction before as [|y before IH]; simpl.
  - by rewrite Hx.
  - rewrite (Hbefore y) by by left. apply IH. intros z Hz. apply Hbefore. by right.
Qed.

Lemma find_none {A} (P : A → bool) l :
  (∀ y, y ∈ l → P y = false) → find P l = None.
Proof.
  intros Hl. induction l as [|y l IH]; [done|]. simpl.
  rewrite (Hl y) by by left. apply IH. intros z Hz. apply Hl. by right.
Qed.

(** C5. Toolchain resolution walks the fixed list of locations in order and
    returns (resolved) the first that exists, whatever [VCPKG_ROOT] holds;
    the variable counts only when no fixed location exists, its toolchain
    file is returned only if that file exists, and in every other case
    there is no toolchain. *)
Theorem find_vcpkg_toolchain_first_existing (e : Build.Env) (files : list Path) :
  (∀ before location after,
     Build.possible_locations e = before ++ location :: after →
     (∀ l, l ∈ before → l ∉ files) →
     location ∈ files →
     Build.find_vcpkg_toolchain e files =
       Some (str_path (Build.resolve e location))) ∧
  ((∀ l, l ∈ Build.possible_locations e → l ∉ files) →
     (∀ vcpkg_root,
        Build.environ_VCPKG_ROOT e = Some vcpkg_root →
        vcpkg_root ≠ "" →
        Build.toolchain_under e vcpkg_root ∈ files →
        Build.find_vcpkg_toolchain e files =
          Some (str_path (Build.resolve e (Build.toolchain_under e vcpkg_root)))) ∧
     (∀ t, Build.find_vcpkg_toolchain e files = Some t →
        ∃ vcpkg_root,
          Build.environ_VCPKG_ROOT e = Some vcpkg_root ∧
          Build.toolchain_under e vcpkg_root ∈ files ∧
          t = str_path (Build.resolve e (Build.toolchain_under e vcpkg_root))) ∧
     ((∀ vcpkg_root, Build.environ_VCPKG_ROOT e = Some vcpkg_root →
         Build.toolchain_under e vcpkg_root ∉ files) →
      Build.find_vcpkg_toolchain e files = None)).
Proof.
  split.
  - intros before location after Hlocs Hbefore Hloc.
    unfold Build.find_vcpkg_toolchain. rewrite Hlocs, find_app_first; [done| |].
    + intros l Hl. apply bool_decide_eq_false. by apply Hbefore.
    + by apply bool_decide_eq_true.
  - intros Hnone. unfold Build.find_vcpkg_toolchain. rewrite find_none.
    2:{ intros l Hl. apply bool_decide_eq_false. by apply Hnone. }
    split_and!.
    + intros root -> Hroot Hin. unfold nonempty.
      apply String.eqb_neq in Hroot. rewrite Hroot. simpl.
      by rewrite bool_decide_eq_true_2.
    + intros t. destruct (Build.environ_VCPKG_ROOT e) as [root|]; [|done].
      destruct (nonempty root); [|done]. case_bool_decide; [|done].
      intros [= <-]. by exists root.
    + intros Hno. destruct (Build.environ_VCPKG_ROOT e) as [root|]; [|done].
      destruct (nonempty root); [|done].
      rewrite bool_decide_eq_false_2; [done|]. by apply Hno.
Qed.

Section build_steps.
Import Build.
Context (e : Env).

Lemma renders_nil : renders e [].
Proof. constructor. Qed.

Lemma renders_cons line lines :
  renders e (line :: lines) ↔ markup_error e line = false ∧ renders e lines.
Proof. unfold renders. by rewrite Forall_cons. Qed.

Lemma renders_app lines1 lines2 :
  renders e (lines1 ++ lines2) ↔ renders e lines1 ∧ renders e lines2.
Proof. unfold renders. by rewrite Forall_app. Qed.

Lemma renders_singleton line :
  renders e [line] ↔ markup_error e line = false.
Proof. unfold renders. by rewrite Forall_singleton. Qed.

Lemma printed_renders lines : renders e lines → printed e lines = lines.
Proof.
  induction 1 as [|line lines Hline _ IH]; [done|]. simpl. by rewrite Hline, IH.
Qed.

Lemma print_markup_ok line w :
  markup_error e line = false →
  print_markup e line w =
    (Return (), {| fs := fs w; console := console w ++ [line]; trace := trace w |}).
Proof. intros Hline. unfold print_markup. by rewrite Hline. Qed.

Lemma print_markup_refused line w :
  markup_error e line = true → print_markup e line w = (Raise MarkupError, w).
Proof. intros Hline. unfold print_markup. by rewrite Hline. Qed.

(** [run_command] with [check=True], by the way the child process ends. *)
Lemma run_command_eq cmd cwd w :
  run_command e cmd cwd true w =
    if markup_error e (running_line cmd) then (Raise MarkupError, w)
    else
      let r := subprocess_run e cmd cwd (fs w) in
      let after lines :=
        {| fs := r.2;
           console := console w ++ running_line cmd :: lines;
           trace := trace w ++ [EvSpawn cmd cwd (fs w) r.1] |} in
      match r.1 with
      | Completed cp =>
          if (returncode cp =? 0)%Z then
            if decide (renders e (success_lines e cp))
            then (Return cp, after (success_lines e cp))
            else (Raise MarkupError, after [])
          else
            (if decide (renders e (failure_lines e cmd cp))
             then SysExit 1 else Raise MarkupError,
             after (printed e (failure_lines e cmd cp)))
      | NotFound => (Raise (FileNotFoundError cmd), after [])
      | Undecodable => (Raise UnicodeDecodeError, after [])
      | OSFailure msg => (Raise (OSError msg), after [])
      end.
Proof.
  unfold run_command. rewrite bind_eq. unfold print_markup at 1.
  destruct (markup_error e (running_line cmd)); [done|].
  rewrite bind_eq. unfold spawn. cbn [fs console trace].
  destruct (subprocess_run e cmd cwd (fs w)) as [o fs'] eqn:Hrun.
  cbn [fst snd]. destruct o as [cp| | |msg]; try done.
  destruct (returncode cp =? 0)%Z; cbn [andb negb]; cbv iota.
  - unfold success_lines, when.
    destruct (nonempty (str_strip e (stdout cp))).
    + rewrite bind_eq. unfold print_markup.
      destruct (markup_error e (stdout_line e cp)) eqn:Hline.
      * rewrite decide_False; [done|]. by rewrite renders_singleton, Hline.
      * rewrite decide_True by by rewrite renders_singleton.
        cbn [fs console trace]. by rewrite <-?app_assoc.
    + rewrite decide_True by apply renders_nil.
      rewrite bind_eq. unfold mret, M_ret. by rewrite <-?app_assoc.
  - unfold failure_lines, when. rewrite bind_eq. unfold print_markup at 1.
    cbn [fs console trace app printed].
    destruct (markup_error e (error_line e cmd cp)) eqn:Herr.
    { rewrite decide_False; [by rewrite <-?app_assoc|].
      rewrite renders_cons. intros [? _]. congruence. }
    cbn [fs console trace]. rewrite bind_eq.
    destruct (nonempty (stderr cp)).
    + unfold print_markup at 1. cbn [fs console trace app printed].
      destruct (markup_error e (stderr_line cp)) eqn:Hstderr.
      { rewrite decide_False; [by rewrite <-?app_assoc|].
        rewrite !renders_cons. intros (_ & ? & _). congruence. }
      cbn [fs console trace]. rewrite bind_eq.
      destruct (nonempty (stdout cp)).
      * unfold print_markup at 1. cbn [fs console trace app printed].
        destruct (markup_error e (output_line cp)) eqn:Hstdout.
        { rewrite decide_False; [by rewrite <-?app_assoc|].
          rewrite !renders_cons. intros (_ & _ & ? & _). congruence. }
        rewrite decide_True by (rewrite !renders_cons; auto using renders_nil).
        unfold sys_exit. cbn [fs console trace]. by rewrite <-?app_assoc.
      * unfold mret, M_ret. cbn [app printed].
        rewrite decide_True by (rewrite !renders_cons; auto using renders_nil).
        unfold sys_exit. cbn [fs console trace]. by rewrite <-?app_assoc.
    + unfold mret, M_ret at 1. cbn [app]. rewrite bind_eq.
      destruct (nonempty (stdout cp)).
      * unfold print_markup at 1. cbn [fs console trace app printed].
        destruct (markup_error e (output_line cp)) eqn:Hstdout.
        { rewrite decide_False; [by rewrite <-?app_assoc|].
          rewrite !renders_cons. intros (_ & ? & _). congruence. }
        rewrite decide_True by (rewrite !renders_cons; auto using renders_nil).
        unfold sys_exit. cbn [fs console trace]. by rewrite <-?app_assoc.
      * unfold mret, M_ret. cbn [app printed].
        rewrite decide_True by (rewrite !renders_cons; auto using renders_nil).
        unfold sys_exit. cbn [fs console trace]. by rewrite <-?app_assoc.
Qed.

Lemma existsb_renders lines :
  existsb (markup_error e) lines = false ↔ renders e lines.
Proof.
  unfold renders. induction lines as [|line lines IH]; simpl.
  - split; [constructor|done].
  - rewrite orb_false_iff, Forall_cons, IH. done.
Qed.

Lemma print_table_ok cells line w :
  renders e cells →
  print_table e cells line w =
    (Return (), {| fs := fs w; console := console w ++ [line]; trace := trace w |}).
Proof. intros Hcells%existsb_renders. unfold print_table. by rewrite Hcells. Qed.

Lemma print_table_refused cells line w :
  ¬ renders e cells → print_table e cells line w = (Raise MarkupError, w).
Proof.
  intros Hcells. unfold print_table.
  destruct (existsb (markup_error e) cells) eqn:Hex; [done|].
  by apply existsb_renders in Hex.
Qed.

Lemma fs_after_clean_eq clean fs0 :
  fs_after_clean e clean fs0 =
    if bool_decide (build_dir e ∈ fs_before_mkdir e clean fs0)
    then fs_before_mkdir e clean fs0
    else build_dir e :: fs_before_mkdir e clean fs0.
Proof.
  unfold fs_after_clean, fs_before_mkdir, cleaning.
  destruct (clean && bool_decide (build_dir e ∈ fs0)); [|done].
  rewrite bool_decide_eq_false_2; [done|].
  intros Hin%list_elem_of_filter. by destruct Hin as [[]].
Qed.

Lemma clean_events_eq clean fs0 :
  clean_events e clean fs0 = rmtree_events e clean fs0 ++ [EvMkdir (build_dir e)].
Proof. done. Qed.

(** The lines [clean_step] prints. *)
Local Abbreviation cleaned_lines clean fs0 :=
  (if cleaning e clean fs0
   then ["[green]✓[/green] Build directory cleaned"] else []).

Lemma clean_step_rmtree clean w msg fs' :
  cleaning e clean (fs w) = true →
  shutil_rmtree e (build_dir e) (fs w) = Some (msg, fs') →
  clean_step e clean w =
    (Raise (OSError msg),
     {| fs := fs'; console := console w; trace := trace w |}).
Proof.
  unfold cleaning. intros Hcleaning Hrm. unfold clean_step.
  rewrite bind_eq. unfold exists_ at 1. cbv beta iota. rewrite Hcleaning.
  unfold when. rewrite !bind_eq. unfold rmtree. by rewrite Hrm.
Qed.

Lemma clean_step_before_mkdir clean w :
  (cleaning e clean (fs w) = true →
   shutil_rmtree e (build_dir e) (fs w) = None) →
  clean_step e clean w =
    mkdir e (build_dir e)
      {| fs := fs_before_mkdir e clean (fs w);
         console := console w ++ cleaned_lines clean (fs w);
         trace := trace w ++ rmtree_events e clean (fs w) |}.
Proof.
  unfold fs_before_mkdir, rmtree_events, cleaning. intros Hrm. unfold clean_step.
  rewrite bind_eq. unfold exists_ at 1. cbv beta iota.
  destruct (clean && bool_decide (build_dir e ∈ fs w)); unfold when.
  - rewrite !bind_eq. unfold rmtree at 1. rewrite Hrm by done. by unfold print.
  - rewrite bind_eq. unfold mret, M_ret. rewrite !app_nil_r. by destruct w.
Qed.

Lemma clean_step_mkdir clean w msg :
  (cleaning e clean (fs w) = true →
   shutil_rmtree e (build_dir e) (fs w) = None) →
  path_mkdir e (build_dir e) (fs_before_mkdir e clean (fs w)) = Some msg →
  clean_step e clean w =
    (Raise (OSError msg),
     {| fs := fs_before_mkdir e clean (fs w);
        console := console w ++ cleaned_lines clean (fs w);
        trace := trace w ++ rmtree_events e clean (fs w) |}).
Proof.
  intros Hrm Hmk. rewrite clean_step_before_mkdir by done.
  unfold mkdir. cbn [fs console trace]. by rewrite Hmk.
Qed.

Lemma clean_step_ok clean w :
  (cleaning e clean (fs w) = true →
   shutil_rmtree e (build_dir e) (fs w) = None) →
  path_mkdir e (build_dir e) (fs_before_mkdir e clean (fs w)) = None →
  clean_step e clean w =
    (Return (),
     {| fs := fs_after_clean e clean (fs w);
        console := console w ++ cleaned_lines clean (fs w);
        trace := trace w ++ clean_events e clean (fs w) |}).
Proof.
  intros Hrm Hmk. rewrite clean_step_before_mkdir by done.
  unfold mkdir. cbn [fs console trace]. rewrite Hmk.
  by rewrite fs_after_clean_eq, clean_events_eq, app_assoc.
Qed.

Lemma toolchain_step_ok w :
  renders e (toolchain_lines (find_vcpkg_toolchain e (fs w))) →
  ∃ lines,
    toolchain_step e w =
      (Return (find_vcpkg_toolchain e (fs w)),
       {| fs := fs w; console := console w ++ lines; trace := trace w |}).
Proof.
  unfold toolchain_step, toolchain_lines. intros Hlines. rewrite bind_eq.
  cbv beta iota. rewrite bind_eq.
  destruct (find_vcpkg_toolchain e (fs w)) as [t|]; [destruct (nonempty t)|].
  - apply renders_singleton in Hlines. rewrite print_markup_ok by done.
    by eexists [_].
  - unfold warn_no_toolchain, mbind, M_bind, print, mret, M_ret. simpl.
    rewrite <-app_assoc. by eexists.
  - unfold warn_no_toolchain, mbind, M_bind, print, mret, M_ret. simpl.
    rewrite <-app_assoc. by eexists.
Qed.

Lemma toolchain_step_refused w :
  ¬ renders e (toolchain_lines (find_vcpkg_toolchain e (fs w))) →
  toolchain_step e w = (Raise MarkupError, w).
Proof.
  unfold toolchain_step, toolchain_lines. intros Hlines. rewrite bind_eq.
  cbv beta iota. rewrite bind_eq.
  destruct (find_vcpkg_toolchain e (fs w)) as [t|]; [destruct (nonempty t)|].
  - rewrite print_markup_refused; [done|].
    rewrite renders_singleton in Hlines. by destruct (markup_error e _).
  - destruct Hlines. apply renders_nil.
  - destruct Hlines. apply renders_nil.
Qed.

Lemma export_step_missing w :
  compile_commands_src e ∉ fs w →
  export_step e w =
    (Return (),
     {| fs := fs w; console := console w ++ [database_warning];
        trace := trace w |}).
Proof.
  intros Hsrc. unfold export_step. rewrite bind_eq. unfold exists_ at 1.
  cbv beta iota. by rewrite bool_decide_eq_false_2.
Qed.

Lemma export_step_copy_failed w msg fs' :
  compile_commands_src e ∈ fs w →
  shutil_copy2 e (compile_commands_src e) (compile_commands_dst e) (fs w) =
    Some (msg, fs') →
  export_step e w =
    (Raise (OSError msg),
     {| fs := fs'; console := console w; trace := trace w |}).
Proof.
  intros Hsrc Hcopy. unfold export_step. rewrite bind_eq. unfold exists_ at 1.
  cbv beta iota. rewrite bool_decide_eq_true_2 by done.
  rewrite bind_eq. unfold copy2. by rewrite Hcopy.
Qed.

Lemma export_step_copied w :
  compile_commands_src e ∈ fs w →
  shutil_copy2 e (compile_commands_src e) (compile_commands_dst e) (fs w) = None →
  export_step e w =
    print_markup e (exported_line e)
      {| fs := fs_with (compile_commands_dst e) (fs w);
         console := console w;
         trace := trace w ++
                  [EvCopy (compile_commands_src e) (compile_commands_dst e)] |}.
Proof.
  intros Hsrc Hcopy. unfold export_step. rewrite bind_eq. unfold exists_ at 1.
  cbv beta iota. rewrite bool_decide_eq_true_2 by done.
  rewrite bind_eq. unfold copy2. by rewrite Hcopy.
Qed.

Local Ltac in_tail :=
  repeat first [assumption | apply elem_of_app; right | apply elem_of_cons; right].
Local Ltac in_list :=
  repeat first [apply list_elem_of_here | apply list_elem_of_further
               | apply elem_of_app; right].

(** Every run of [main] ends in one of the ways of [main_ending]. *)
Lemma main_ends mode tests clean verbose export_compile_commands jobs w :
  main_ending e mode tests clean verbose export_compile_commands jobs w
    (main e mode tests clean verbose export_compile_commands jobs w).
Proof.
  unfold main. rewrite bind_eq.
  destruct (decide (renders e (config_cells e))) as [Hcells|Hcells].
  2:{ rewrite print_table_refused by done. by apply end_table. }
  rewrite print_table_ok by done.
  rewrite bind_eq. unfold print at 1. cbv beta iota. cbn [fs console trace].
  rewrite bind_eq.
  set (table := config_table e mode tests clean export_compile_commands jobs).
  assert (Hrm : (cleaning e clean (fs w) = true →
                 shutil_rmtree e (build_dir e) (fs w) = None) ∨
                ∃ msg fs', cleaning e clean (fs w) = true ∧
                  shutil_rmtree e (build_dir e) (fs w) = Some (msg, fs')).
  { destruct (cleaning e clean (fs w)); [|by left].
    destruct (shutil_rmtree e (build_dir e) (fs w)) as [[msg fs']|];
      [right; by eexists _, _|by left]. }
  destruct Hrm as [Hrm|(msg & fs' & Hcleaning & Hrm)].
  2:{ rewrite (clean_step_rmtree _ _ msg fs') by done. cbn [fs console trace].
      rewrite <-app_assoc. by eapply end_rmtree. }
  destruct (path_mkdir e (build_dir e) (fs_before_mkdir e clean (fs w)))
    as [msg|] eqn:Hmk.
  { rewrite (clean_step_mkdir _ _ msg) by done. cbn [fs console trace].
    rewrite <-!app_assoc. by eapply end_mkdir. }
  rewrite clean_step_ok by done. cbn [fs console trace]. rewrite bind_eq.
  set (fs1 := fs_after_clean e clean (fs w)).
  destruct (decide (renders e (toolchain_lines (find_vcpkg_toolchain e fs1))))
    as [Htc|Htc].
  2:{ rewrite toolchain_step_refused by done. rewrite <-!app_assoc.
      by eapply end_toolchain. }
  match goal with |- context [toolchain_step e ?w0] =>
    destruct (toolchain_step_ok w0 Htc) as [lines0 ->] end.
  cbn [fs console trace]. rewrite bind_eq. unfold print at 1. cbv beta iota.
  cbn [fs console trace]. rewrite bind_eq.
  assert (Hpro : prologue_ok e clean w) by done.
  set (cfg := cmake_args e mode tests export_compile_commands
                (find_vcpkg_toolchain e fs1)).
  (* the configuration step *)
  unfold configure_step at 1. rewrite bind_eq, run_command_eq.
  cbn [fs console trace]. fold cfg.
  destruct (markup_error e (running_line cfg)) eqn:Hline1.
  { rewrite <-!app_assoc. by eapply end_configure_line. }
  assert (Hstart : configure_started e mode tests clean export_compile_commands w)
    by done.
  cbv zeta.
  set (r1 := subprocess_run e cfg (build_dir e) fs1).
  destruct (r1.1) as [cp1| | |msg] eqn:Hr1.
  2,3,4: rewrite <-!app_assoc, <-Hr1; eapply end_configure_spawn; [done|];
         fold fs1 cfg r1; by rewrite Hr1.
  destruct (returncode cp1 =? 0)%Z eqn:Hrc1.
  2:{ apply Z.eqb_neq in Hrc1. rewrite <-!app_assoc, <-Hr1.
      destruct (decide (renders e (failure_lines e cfg cp1))) as [Herr|Herr].
      - eapply end_configure_failed; [done..|]. intros line Hline.
        rewrite printed_renders by done. in_tail.
      - by eapply end_configure_report. }
  apply Z.eqb_eq in Hrc1.
  destruct (decide (renders e (success_lines e cp1))) as [Hout1|Hout1].
  2:{ rewrite <-!app_assoc, <-Hr1. by eapply end_configure_stdout. }
  assert (Hcfg : configured e mode tests clean export_compile_commands w cp1)
    by done.
  unfold print at 1. cbv beta iota. cbn [fs console trace]. rewrite bind_eq.
  (* the build step *)
  set (bld := build_args e verbose jobs).
  unfold build_step at 1. rewrite bind_eq, run_command_eq.
  cbn [fs console trace]. fold bld.
  destruct (markup_error e (running_line bld)) eqn:Hline2.
  { rewrite <-!app_assoc, <-Hr1. by eapply end_build_line. }
  assert (Hstart2 : build_started e mode tests clean verbose
                      export_compile_commands jobs w cp1) by done.
  cbv zeta.
  set (r2 := subprocess_run e bld (build_dir e) r1.2).
  destruct (r2.1) as [cp2| | |msg] eqn:Hr2.
  2,3,4: rewrite <-!app_assoc; cbn [app]; rewrite <-Hr1, <-Hr2;
         eapply end_build_spawn; [done|];
         fold fs1 cfg r1 bld r2; by rewrite Hr2.
  destruct (returncode cp2 =? 0)%Z eqn:Hrc2.
  2:{ apply Z.eqb_neq in Hrc2.
      rewrite <-!app_assoc. cbn [app]. rewrite <-Hr1, <-Hr2.
      destruct (decide (renders e (failure_lines e bld cp2))) as [Herr|Herr].
      - eapply end_build_failed; [done..|]. intros line Hline.
        rewrite printed_renders by done. in_tail.
      - by eapply end_build_report. }
  apply Z.eqb_eq in Hrc2.
  destruct (decide (renders e (success_lines e cp2))) as [Hout2|Hout2].
  2:{ rewrite <-!app_assoc. cbn [app]. rewrite <-Hr1, <-Hr2.
      by eapply end_build_stdout. }
  assert (Hbuilt : built e mode tests clean verbose export_compile_commands
                     jobs w cp1 cp2) by done.
  unfold print at 1. cbv beta iota. cbn [fs console trace]. rewrite bind_eq.
  (* the export step *)
  assert (Hcopying : copying e mode tests clean verbose export_compile_commands
                       jobs w =
                     export_compile_commands &&
                     bool_decide (compile_commands_src e ∈ r2.2)) by done.
  destruct export_compile_commands; unfold when.
  - destruct (decide (compile_commands_src e ∈ r2.2)) as [Hsrc|Hsrc].
    + rewrite bool_decide_eq_true_2 in Hcopying by done.
      destruct (shutil_copy2 e (compile_commands_src e) (compile_commands_dst e)
                  r2.2) as [[msg fs']|] eqn:Hcopy.
      { rewrite (export_step_copy_failed _ msg fs') by done.
        cbn [fs console trace]. rewrite <-!app_assoc. cbn [app].
        rewrite <-Hr1, <-Hr2. by eapply end_copy. }
      rewrite export_step_copied by done. cbn [fs console trace].
      destruct (markup_error e (exported_line e)) eqn:Hexp.
      { rewrite print_markup_refused by done.
        rewrite <-!app_assoc. cbn [app]. rewrite <-Hr1, <-Hr2.
        by eapply end_exported_line. }
      rewrite print_markup_ok by done. cbn [fs console trace].
      rewrite bind_eq. unfold print at 1. cbv beta iota. cbn [fs console trace].
      destruct (markup_error e (results_panel e tests)) eqn:Hpanel.
      * rewrite print_markup_refused by done.
        rewrite <-!app_assoc. cbn [app]. rewrite <-Hr1, <-Hr2.
        by eapply end_exported_panel.
      * rewrite print_markup_ok by done. cbn [fs console trace].
        rewrite <-!app_assoc. cbn [app]. rewrite <-Hr1, <-Hr2.
        eapply end_exported; [done..|]. in_list.
    + rewrite bool_decide_eq_false_2 in Hcopying by done.
      rewrite export_step_missing by done. cbn [fs console trace].
      rewrite bind_eq. unfold print at 1. cbv beta iota. cbn [fs console trace].
      destruct (markup_error e (results_panel e tests)) eqn:Hpanel.
      * rewrite print_markup_refused by done.
        rewrite <-!app_assoc. cbn [app]. rewrite <-Hr1, <-Hr2.
        eapply end_panel; [done..|]. intros _. in_list.
      * rewrite print_markup_ok by done. cbn [fs console trace].
        rewrite <-!app_assoc. cbn [app]. rewrite <-Hr1, <-Hr2.
        eapply end_not_exported; [done..|]. intros _. in_list.
  - unfold mret, M_ret at 1. cbv beta iota.
    rewrite bind_eq. unfold print at 1. cbv beta iota. cbn [fs console trace].
    destruct (markup_error e (results_panel e tests)) eqn:Hpanel.
    * rewrite print_markup_refused by done.
      rewrite <-!app_assoc. cbn [app]. rewrite <-Hr1, <-Hr2.
      by eapply end_panel.
    * rewrite print_markup_ok by done. cbn [fs console trace].
      rewrite <-!app_assoc. cbn [app]. rewrite <-Hr1, <-Hr2.
      by eapply end_not_exported.
Qed.

End build_steps.

(** * Properties of build.py: the runs of [main] *)

Lemma rmtree_events_inv e clean fs0 ev :
  ev ∈ rmtree_events e clean fs0 → ev = Build.EvRmtree (Build.build_dir e).
Proof.
  unfold rmtree_events. destruct (cleaning e clean fs0).
  - by intros ->%list_elem_of_singleton.
  - by intros ?%elem_of_nil.
Qed.

Lemma clean_events_inv e clean fs0 ev :
  ev ∈ clean_events e clean fs0 →
  ev = Build.EvRmtree (Build.build_dir e) ∨ ev = Build.EvMkdir (Build.build_dir e).
Proof.
  rewrite clean_events_eq, elem_of_app, list_elem_of_singleton.
  intros [?%rmtree_events_inv|?]; auto.
Qed.

Lemma last_app_2 {A} (l : list A) a b : last (l ++ [a; b]) = Some b.
Proof. change (l ++ [a; b]) with (l ++ [a] ++ [b]). by rewrite app_assoc, last_snoc. Qed.


Lemma spawn_exception_Some cmd o exn :
  Build.spawn_exception cmd o = Some exn →
  (o = Build.NotFound ∧ exn = FileNotFoundError cmd) ∨
  (o = Build.Undecodable ∧ exn = UnicodeDecodeError) ∨
  (∃ msg, o = Build.OSFailure msg ∧ exn = OSError msg).
Proof. destruct o; intros [=]; subst; eauto. Qed.

(** Takes a membership in the events of a run apart. *)
Ltac inv_events H :=
  repeat match type of H with
  | _ ∈ _ ++ _ => apply elem_of_app in H as [H|H]
  | _ ∈ _ :: _ => apply elem_of_cons in H as [H|H]
  | _ ∈ [] => by apply elem_of_nil in H
  | _ ∈ clean_events _ _ _ => apply clean_events_inv in H as [H|H]
  | _ ∈ rmtree_events _ _ _ => apply rmtree_events_inv in H
  end.

(** The events of a run, as an extension of the trace. *)
Ltac run_events :=
  cbn [fst snd Build.fs Build.console Build.trace];
  first [ eexists; split; [reflexivity|]
        | exists []; split; [by rewrite app_nil_r|] ].

(** X11. When the executable of a child process of [main] is not found,
    nothing catches the [FileNotFoundError]: that attempt is the last thing
    the run does, the script dies with exit status 1, and it does not leave
    through [sys.exit]. *)
Theorem build_missing_executable (e : Build.Env) (mode : Build.build_mode)
    (tests clean verbose export_compile_commands : bool) (jobs : option Z)
    (w : Build.World) :
  let out := Build.main e mode tests clean verbose export_compile_commands jobs w in
  ∃ evs,
    Build.trace out.2 = Build.trace w ++ evs ∧
    ∀ argv cwd fs0,
      Build.EvSpawn argv cwd fs0 Build.NotFound ∈ evs →
      out.1 = Raise (FileNotFoundError argv) ∧
      exit_status out.1 = 1%Z ∧
      last evs = Some (Build.EvSpawn argv cwd fs0 Build.NotFound).
Proof.
  cbv zeta.
  destruct (main_ends e mode tests clean verbose export_compile_commands jobs w)
    as [ | | | | |exn ? _ Hexn|cp1 ? _ Hr1|cp1 ? _ Hr1|cp1 ? _ Hr1
       |cp1 ? (_ & Hr1 & _)|cp1 exn ? ((_ & Hr1 & _) & _) Hexn
       |cp1 cp2 ? ((_ & Hr1 & _) & _) Hr2|cp1 cp2 ? ((_ & Hr1 & _) & _) Hr2
       |cp1 cp2 ? ((_ & Hr1 & _) & _) Hr2
       |cp1 cp2 ? ? ? (((_ & Hr1 & _) & _) & Hr2 & _)
       |cp1 cp2 ? (((_ & Hr1 & _) & _) & Hr2 & _)
       |cp1 cp2 ? (((_ & Hr1 & _) & _) & Hr2 & _)
       |cp1 cp2 ? (((_ & Hr1 & _) & _) & Hr2 & _)
       |cp1 cp2 ? (((_ & Hr1 & _) & _) & Hr2 & _)
       |cp1 cp2 ? (((_ & Hr1 & _) & _) & Hr2 & _)];
    run_events; intros argv cwd fs0 Hin; inv_events Hin; try discriminate;
    simplify_eq.
  all: try congruence.
  all: try (destruct (spawn_exception_Some _ _ _ Hexn)
              as [[? ->]|[[? ->]|(? & ? & ->)]]; try congruence).
  all: repeat match goal with H : _ = Build.NotFound |- _ => rewrite H; clear H end.
  - split_and!; [done..|]. apply last_snoc.
  - split_and!; [done..|]. apply last_app_2.
Qed.


(** Opens the stages a run has gone through. *)
Ltac open_stages :=
  repeat match goal with
  | H : built _ _ _ _ _ _ _ _ _ _ |- _ => destruct H as (? & ? & ? & ?)
  | H : build_started _ _ _ _ _ _ _ _ _ |- _ => destruct H as [? ?]
  | H : configured _ _ _ _ _ _ _ |- _ => destruct H as (? & ? & ? & ?)
  | H : configure_started _ _ _ _ _ _ |- _ => destruct H as [? ?]
  | H : prologue_ok _ _ _ |- _ => destruct H as (? & ? & ? & ?)
  end.


(** A child process that has completed did not fail to start; a child
    process of which all exited with 0 did not exit non-zero. *)
Ltac spawn_contra :=
  match goal with
  | Hexn : Build.spawn_exception _ ?o = Some _, H : Build.Completed _ = ?o |- _ =>
      rewrite <-H in Hexn; discriminate
  | Hexn : Build.spawn_exception _ ?o = Some _, H : ?o = Build.Completed _ |- _ =>
      rewrite H in Hexn; discriminate
  end.





(** How far a run of [main] gets: the table is refused; [rmtree] fails;
    [mkdir] fails; a line before the configuration is refused; or the
    configuration process is started, and then only child processes and
    the copy of the compile database follow. *)
Lemma main_start (e : Build.Env) (mode : Build.build_mode)
    (tests clean verbose export_compile_commands : bool) (jobs : option Z)
    (w : Build.World) :
  let out := Build.main e mode tests clean verbose export_compile_commands jobs w in
  let bd := Build.build_dir e in
  let fs1 := fs_after_clean e clean (Build.fs w) in
  let cfg := Build.cmake_args e mode tests export_compile_commands
               (Build.find_vcpkg_toolchain e fs1) in
  (¬ renders e (Build.config_cells e) ∧ out = (Raise MarkupError, w)) ∨
  (renders e (Build.config_cells e) ∧ cleaning e clean (Build.fs w) = true ∧
   ∃ msg fs',
     Build.shutil_rmtree e bd (Build.fs w) = Some (msg, fs') ∧
     out.1 = Raise (OSError msg) ∧ Build.fs out.2 = fs' ∧
     Build.trace out.2 = Build.trace w) ∨
  (renders e (Build.config_cells e) ∧
   (cleaning e clean (Build.fs w) = true →
    Build.shutil_rmtree e bd (Build.fs w) = None) ∧
   ∃ msg,
     Build.path_mkdir e bd (fs_before_mkdir e clean (Build.fs w)) = Some msg ∧
     out.1 = Raise (OSError msg) ∧
     Build.fs out.2 = fs_before_mkdir e clean (Build.fs w) ∧
     Build.trace out.2 = Build.trace w ++ rmtree_events e clean (Build.fs w)) ∨
  (renders e (Build.config_cells e) ∧
   (cleaning e clean (Build.fs w) = true →
    Build.shutil_rmtree e bd (Build.fs w) = None) ∧
   Build.path_mkdir e bd (fs_before_mkdir e clean (Build.fs w)) = None ∧
   ¬ renders e (toolchain_lines (Build.find_vcpkg_toolchain e fs1) ++
                [Build.running_line cfg]) ∧
   out.1 = Raise MarkupError ∧ Build.fs out.2 = fs1 ∧
   Build.trace out.2 = Build.trace w ++ clean_events e clean (Build.fs w)) ∨
  (configure_started e mode tests clean export_compile_commands w ∧
   ∃ after,
     Build.trace out.2 =
       Build.trace w ++ clean_events e clean (Build.fs w) ++
       Build.EvSpawn cfg bd fs1 (Build.subprocess_run e cfg bd fs1).1 :: after ∧
     Forall (λ ev, is_spawn ev ∨ is_copy ev) after).
Proof.
  cbv zeta.
  destruct (main_ends e mode tests clean verbose export_compile_commands jobs w);
    [by left
    |right; left; split_and!; [done..|]; by eexists _, _
    |do 2 right; left; split_and!; [done..|]; by eexists
    |do 3 right; left; split_and!; try done; rewrite renders_app; tauto
    |do 3 right; left;
     match goal with H : prologue_ok _ _ _ |- _ => destruct H as (? & ? & ? & ?) end;
     split_and!; try done; rewrite renders_app, renders_singleton;
     intros [_ ?]; congruence
    |do 4 right; open_stages; split; [done|]; cbn [fst snd Build.trace]..].
  all: first [ by exists []
             | eexists [_]; split; [done|]; repeat constructor; by left
             | eexists [_; _]; split; [done|]; repeat constructor;
               first [by left|by right] ].
Qed.


Lemma no_spawn_clean_events e clean fs0 :
  Forall (λ ev, ¬ is_spawn ev) (clean_events e clean fs0).
Proof.
  apply Forall_forall. intros ev [->| ->]%clean_events_inv; by intros [].
Qed.

Lemma no_spawn_rmtree_events e clean fs0 :
  Forall (λ ev, ¬ is_spawn ev) (rmtree_events e clean fs0).
Proof.
  apply Forall_forall. intros ev ->%rmtree_events_inv. by intros [].
Qed.






(** A run in which both steps succeed, and one in which the configuration
    succeeds but prints a line that rich refuses. *)
Example build_success_example :
  let out := Build.main (sample_build_env 0 0) Build.debug false false false false
               None sample_build_world in
  out.1 = Return () ∧ exit_status out.1 = 0%Z ∧
  length (Build.trace out.2) = 3.
Proof. by vm_compute. Qed.

Example build_refused_output_example :
  let out := Build.main sample_build_env_markup Build.debug false false false false
               None sample_build_world in
  out.1 = Raise MarkupError ∧ exit_status out.1 = 1%Z ∧
  Build.trace out.2 =
    [Build.EvMkdir ["/"; "repo"; "build"];
     Build.EvSpawn ["cmake"; "/repo"; "-DCMAKE_BUILD_TYPE=Debug"; "-DBUILD_TESTS=OFF";
                    "-DBUILD_EXAMPLES=ON"] ["/"; "repo"; "build"]
       (Build.fs sample_build_world)
       (Build.Completed {| Build.returncode := 0; Build.stdout := "[/x] done";
                           Build.stderr := "" |})].
Proof. by vm_compute. Qed.
(** * Properties of build.py: the parallelism degree and the toolchain *)

Lemma or__spec (a b : option Z) :
  Build.or_ a b =
    match a with
    | Some n => if decide (n = 0%Z) then b else Some n
    | None => b
    end.
Proof.
  destruct a as [n|]; [|done]. simpl.
  destruct (Z.eqb_spec n 0); by case_decide.
Qed.

(** C8 (as the code has it).  The build step is started with
    [--parallel N] as its last two arguments, where [N] is the value of
    [--jobs] when one is given and is not 0; otherwise the processor count
    when it is known and not 0; otherwise 4.  So every explicit non-zero
    [--jobs] value is passed on as it is. *)
Theorem parallel_jobs_choice (e : Build.Env) (verbose : bool) (jobs : option Z) :
  Build.build_args e verbose jobs =
    ["cmake"; "--build"; "."] ++ (if verbose then ["--verbose"] else [])
    ++ ["--parallel"; str_int (Build.parallel_jobs e jobs)] ∧
  (∀ n, jobs = Some n → n ≠ 0%Z → Build.parallel_jobs e jobs = n) ∧
  (jobs = None ∨ jobs = Some 0%Z →
   (∀ c, Build.cpu_count e = Some c → c ≠ 0%Z → Build.parallel_jobs e jobs = c) ∧
   (Build.cpu_count e = None ∨ Build.cpu_count e = Some 0%Z →
    Build.parallel_jobs e jobs = 4%Z)).
Proof.
  split; [done|]. unfold Build.parallel_jobs. rewrite !or__spec. split.
  - intros n -> Hn. by rewrite !decide_False.
  - intros Hjobs. split.
    + intros c -> Hc. destruct Hjobs as [-> | ->]; simpl; by rewrite !decide_False.
    + intros [-> | ->]; by destruct Hjobs as [-> | ->].
Qed.

Example parallel_jobs_example :
  Build.build_args (sample_build_env 0 0) true (Some 3%Z) =
    ["cmake"; "--build"; "."; "--verbose"; "--parallel"; "3"] ∧
  Build.build_args (sample_build_env 0 0) false None =
    ["cmake"; "--build"; "."; "--parallel"; "8"].
Proof. by vm_compute. Qed.

(** C8 as stated fails for [--jobs 0]: on a machine with eight cores the
    build tool gets [--parallel 8], not [--parallel 0]. *)
Lemma explicit_zero_jobs_not_passed :
  Build.build_args (sample_build_env 0 0) false (Some 0%Z) =
    ["cmake"; "--build"; "."; "--parallel"; "8"] ∧
  Build.build_args (sample_build_env 0 0) false (Some 0%Z) ≠
    ["cmake"; "--build"; "."; "--parallel"; str_int 0].
Proof. split; by vm_compute. Qed.


(** X8. [jobs or os.cpu_count() or 4] is never 0, whatever [--jobs] and the
    processor count are: the build tool is never given [--parallel 0]. *)
Theorem parallel_jobs_nonzero (e : Build.Env) (jobs : option Z) :
  Build.parallel_jobs e jobs ≠ 0%Z.
Proof.
  unfold Build.parallel_jobs. rewrite !or__spec.
  destruct jobs as [n|], (Build.cpu_count e) as [c|]; simpl;
    repeat case_decide; simpl; done.
Qed.

Lemma find_None_inv {A} (P : A → bool) l :
  find P l = None → ∀ y, y ∈ l → P y = false.
Proof.
  intros Hfind y Hy. apply list_elem_of_In in Hy. by eapply List.find_none.
Qed.

(** X9. Toolchain resolution yields no toolchain exactly when none of the
    fixed locations exists and [VCPKG_ROOT] is unset, or empty, or names a
    root whose toolchain file does not exist: an empty [VCPKG_ROOT] counts
    as unset. *)
Theorem find_vcpkg_toolchain_none (e : Build.Env) (files : list Path) :
  Build.find_vcpkg_toolchain e files = None ↔
    (∀ l, l ∈ Build.possible_locations e → l ∉ files) ∧
    match Build.environ_VCPKG_ROOT e with
    | None => True
    | Some vcpkg_root =>
        vcpkg_root = "" ∨ Build.toolchain_under e vcpkg_root ∉ files
    end.
Proof.
  unfold Build.find_vcpkg_toolchain. split.
  - destruct (find _ _) as [location|] eqn:Hfind; [done|].
    intros Hnone. split.
    + intros l Hl. pose proof (find_None_inv _ _ Hfind l Hl) as Hb.
      simpl in Hb. by apply bool_decide_eq_false in Hb.
    + destruct (Build.environ_VCPKG_ROOT e) as [root|]; [|done].
      unfold nonempty in Hnone. destruct (String.eqb_spec root ""); [by left|].
      simpl in Hnone. right. by case_bool_decide.
  - intros [Hfixed Henv]. rewrite find_none.
    2:{ intros l Hl. apply bool_decide_eq_false. by apply Hfixed. }
    destruct (Build.environ_VCPKG_ROOT e) as [root|]; [|done].
    destruct Henv as [->|Hno]; [done|].
    destruct (nonempty root); [|done]. by rewrite bool_decide_eq_false_2.
Qed.

Example find_vcpkg_toolchain_example :
  let e := sample_build_env 0 0 in
  let local := ["vcpkg"; "scripts"; "buildsystems"; "vcpkg.cmake"] in
  let system := ["/"; "usr"; "local"; "share"; "vcpkg"; "scripts"; "buildsystems";
                 "vcpkg.cmake"] in
  Build.find_vcpkg_toolchain e [system; local] =
    Some "vcpkg/scripts/buildsystems/vcpkg.cmake" ∧
  Build.find_vcpkg_toolchain e [system] =
    Some "/usr/local/share/vcpkg/scripts/buildsystems/vcpkg.cmake" ∧
  Build.find_vcpkg_toolchain e [] = None.
Proof. by vm_compute. Qed.

(** * Properties of build.py: [run_command] and the stages of [main] *)

(** [run_command] without [check]. *)
Lemma run_command_no_check_eq e cmd cwd w :
  Build.run_command e cmd cwd false w =
    if Build.markup_error e (Build.running_line cmd) then (Raise MarkupError, w)
    else
      let r := Build.subprocess_run e cmd cwd (Build.fs w) in
      let after lines :=
        {| Build.fs := r.2;
           Build.console := Build.console w ++ Build.running_line cmd :: lines;
           Build.trace := Build.trace w ++ [Build.EvSpawn cmd cwd (Build.fs w) r.1] |} in
      match r.1 with
      | Build.Completed cp =>
          if decide (renders e (success_lines e cp))
          then (Return cp, after (success_lines e cp))
          else (Raise MarkupError, after [])
      | Build.NotFound => (Raise (FileNotFoundError cmd), after [])
      | Build.Undecodable => (Raise UnicodeDecodeError, after [])
      | Build.OSFailure msg => (Raise (OSError msg), after [])
      end.
Proof.
  unfold Build.run_command. rewrite bind_eq. unfold Build.print_markup at 1.
  destruct (Build.markup_error e (Build.running_line cmd)); [done|].
  rewrite bind_eq. unfold Build.spawn. cbn [Build.fs Build.console Build.trace].
  destruct (Build.subprocess_run e cmd cwd (Build.fs w)) as [o fs'] eqn:Hrun.
  cbn [fst snd]. destruct o as [cp| | |msg]; try done.
  cbn [andb]. cbv iota. unfold success_lines, Build.when.
  destruct (nonempty (Build.str_strip e (Build.stdout cp))).
  - rewrite bind_eq. unfold Build.print_markup.
    destruct (Build.markup_error e (Build.stdout_line e cp)) eqn:Hline.
    + rewrite decide_False; [done|]. by rewrite renders_singleton, Hline.
    + rewrite decide_True by by rewrite renders_singleton.
      cbn [Build.fs Build.console Build.trace]. by rewrite <-?app_assoc.
  - rewrite decide_True by apply renders_nil.
    rewrite bind_eq. unfold mret, M_ret. by rewrite <-?app_assoc.
Qed.

(** X10. [run_command] starts at most one child process, with or without
    [check]: none when rich refuses the command line (the [MarkupError]
    comes before [subprocess.run]), and otherwise exactly one, after which
    the run goes on from the file system the process left; a process that
    does not complete raises the exception of [subprocess.run], a missing
    executable [FileNotFoundError], in both modes.  Without [check] a
    non-zero exit status is no error: the completed process is returned to
    the caller whatever its status when rich renders the stripped standard
    output (or it is blank), and the [MarkupError] is raised otherwise;
    nothing but the command line and that output is printed, and the script
    does not exit. *)
Theorem run_command_one_process (e : Build.Env) (cmd : list string) (cwd : Path)
    (w : Build.World) :
  let ran := Build.subprocess_run e cmd cwd (Build.fs w) in
  (∀ check,
     let out := Build.run_command e cmd cwd check w in
     (Build.markup_error e (Build.running_line cmd) = true →
      out = (Raise MarkupError, w)) ∧
     (Build.markup_error e (Build.running_line cmd) = false →
      Build.trace out.2 =
        Build.trace w ++ [Build.EvSpawn cmd cwd (Build.fs w) ran.1] ∧
      Build.fs out.2 = ran.2 ∧
      (∀ exn, Build.spawn_exception cmd ran.1 = Some exn → out.1 = Raise exn) ∧
      (ran.1 = Build.NotFound → out.1 = Raise (FileNotFoundError cmd)))) ∧
  (∀ cp,
     Build.markup_error e (Build.running_line cmd) = false →
     ran.1 = Build.Completed cp →
     let out := Build.run_command e cmd cwd false w in
     (out.1 = Return cp ↔ renders e (success_lines e cp)) ∧
     (out.1 = Raise MarkupError ↔ ¬ renders e (success_lines e cp)) ∧
     Build.console out.2 =
       Build.console w ++ [Build.running_line cmd] ++
       printed e (success_lines e cp)).
Proof.
  intros ran. split.
  - intros check. cbv zeta.
    assert (Hcases :
      Build.run_command e cmd cwd check w =
        if Build.markup_error e (Build.running_line cmd) then (Raise MarkupError, w)
        else
          match ran.1 with
          | Build.Completed cp =>
              ((Build.run_command e cmd cwd check w).1,
               {| Build.fs := ran.2;
                  Build.console := Build.console (Build.run_command e cmd cwd check w).2;
                  Build.trace :=
                    Build.trace w ++ [Build.EvSpawn cmd cwd (Build.fs w) ran.1] |})
          | o =>
              (match Build.spawn_exception cmd o with
               | Some exn => Raise exn
               | None => Return {| Build.returncode := 0; Build.stdout := "";
                                   Build.stderr := "" |}
               end,
               {| Build.fs := ran.2;
                  Build.console := Build.console w ++ [Build.running_line cmd];
                  Build.trace :=
                    Build.trace w ++ [Build.EvSpawn cmd cwd (Build.fs w) ran.1] |})
          end).
    { destruct check; [rewrite run_command_eq|rewrite run_command_no_check_eq];
        destruct (Build.markup_error e (Build.running_line cmd)); try done;
        cbv zeta; fold ran; destruct (ran.1) as [cp| | |msg]; try done.
      - destruct (Build.returncode cp =? 0)%Z; repeat case_decide; done.
      - repeat case_decide; done. }
    split; intros Hline; rewrite Hline in Hcases; [done|].
    rewrite Hcases. destruct (ran.1) as [cp| | |msg]; simpl;
      split_and!; try done; by intros exn [= <-].
  - intros cp Hline Hcp. cbv zeta. rewrite run_command_no_check_eq, Hline.
    cbv zeta. fold ran. rewrite Hcp. case_decide as Hr.
    + rewrite (printed_renders _ _ Hr). simpl. split_and!; [done| |done].
      split; [done|]. intros Hn. by destruct Hn.
    + simpl. split_and!.
      * split; [done|]. intros ?. contradiction.
      * done.
      * unfold success_lines in *.
        destruct (nonempty (Build.str_strip e (Build.stdout cp))); [|done].
        cbn [printed].
        destruct (Build.markup_error e (Build.stdout_line e cp)) eqn:Hst; [done|].
        destruct Hr. by apply renders_singleton.
Qed.
Example build_missing_executable_example :
  let out := Build.main sample_build_env_no_cmake Build.release true false false
               false None sample_build_world in
  out.1 = Raise (FileNotFoundError
                   ["cmake"; "/repo"; "-DCMAKE_BUILD_TYPE=Release";
                    "-DBUILD_TESTS=ON"; "-DBUILD_EXAMPLES=ON"]) ∧
  length (Build.trace out.2) = 2.
Proof. by vm_compute. Qed.

(** Two accounts of the stages of one run do not contradict each other. *)
Ltac stage_contra :=
  open_stages;
  repeat match goal with
  | H : ?c = true → _, H' : ?c = true |- _ => specialize (H H')
  end;
  try match goal with
  | H1 : ?o = Build.Completed ?a, H2 : ?o = Build.Completed ?b |- _ =>
      assert (b = a) as -> by congruence; clear H2
  end;
  try match goal with
  | H1 : ?o = Build.Completed ?a, H2 : ?o = Build.Completed ?b |- _ =>
      assert (b = a) as -> by congruence; clear H2
  end;
  first [contradiction | congruence | spawn_contra].

(** X12. [main] runs at most two child processes, both in the build
    directory.  No process is started when something before the
    configuration fails ([configure_started] does not hold: rich refuses a
    cell of the table, the line of the toolchain or the command line, or
    [rmtree] or [mkdir] raises).  Otherwise the configuration is started,
    on the file system [mkdir] left.  The build is started exactly when
    moreover the configuration exited with status 0 and rich rendered its
    output and the command line of the build ([build_started]); it starts
    on the file system the configuration left, with the arguments of
    [build_args], and after it nothing happens to the file system but the
    copy of the compile database. *)
Theorem build_steps_in_sequence (e : Build.Env) (mode : Build.build_mode)
    (tests clean verbose export_compile_commands : bool) (jobs : option Z)
    (w : Build.World) :
  let bd := Build.build_dir e in
  let out := Build.main e mode tests clean verbose export_compile_commands jobs w in
  let fs1 := fs_after_clean e clean (Build.fs w) in
  let cfg := Build.cmake_args e mode tests export_compile_commands
               (Build.find_vcpkg_toolchain e fs1) in
  let configuration := Build.subprocess_run e cfg bd fs1 in
  let bld := Build.build_args e verbose jobs in
  let building := Build.subprocess_run e bld bd configuration.2 in
  ∃ evs,
    Build.trace out.2 = Build.trace w ++ evs ∧
    ((¬ configure_started e mode tests clean export_compile_commands w ∧
      Forall (λ ev, ¬ is_spawn ev) evs) ∨
     (configure_started e mode tests clean export_compile_commands w ∧
      (∀ cp1, ¬ build_started e mode tests clean verbose export_compile_commands
                  jobs w cp1) ∧
      ∃ before,
        evs = before ++ [Build.EvSpawn cfg bd fs1 configuration.1] ∧
        Forall (λ ev, ¬ is_spawn ev) before) ∨
     (∃ cp1,
        build_started e mode tests clean verbose export_compile_commands jobs w cp1 ∧
        ∃ before copies,
          evs = before ++
                [Build.EvSpawn cfg bd fs1 configuration.1;
                 Build.EvSpawn bld bd configuration.2 building.1] ++ copies ∧
          Forall (λ ev, ¬ is_spawn ev) before ∧
          Forall is_copy copies)).
Proof.
  cbv zeta.
  destruct (main_ends e mode tests clean verbose export_compile_commands jobs w);
    run_events.
  1-5: left; split;
         [intros ?; stage_contra
         |auto using no_spawn_clean_events, no_spawn_rmtree_events].
  1-5: right; left; split_and!;
         [by open_stages
         |intros cp1' ?; stage_contra
         |eexists; split; [reflexivity|apply no_spawn_clean_events]].
  all: right; right; eexists; split; [by open_stages|];
       exists (clean_events e clean (Build.fs w));
       first [ exists []; split_and!;
                 [reflexivity|apply no_spawn_clean_events|constructor]
             | eexists [_]; split_and!;
                 [reflexivity|apply no_spawn_clean_events|by repeat constructor] ].
Qed.
(** X13. Whatever [--clean] is, a configuration process that [main] starts
    is started after [mkdir], on a file system in which the build directory
    exists.  When the directory did not exist before, creating it is the
    only thing [main] does to the file system before the configuration
    ([--clean] then removes nothing).  When [mkdir] raises (the path is a
    regular file, say), the run ends with that [OSError] and exit status 1,
    without a process and without a directory made. *)
Theorem build_dir_made (e : Build.Env) (mode : Build.build_mode)
    (tests clean verbose export_compile_commands : bool) (jobs : option Z)
    (w : Build.World) :
  let bd := Build.build_dir e in
  let out := Build.main e mode tests clean verbose export_compile_commands jobs w in
  ∃ evs,
    Build.trace out.2 = Build.trace w ++ evs ∧
    (Forall (λ ev, ¬ is_spawn ev) evs ∨
     ∃ before fs1 o after,
       evs = before ++
             Build.EvSpawn (Build.cmake_args e mode tests export_compile_commands
                              (Build.find_vcpkg_toolchain e fs1)) bd fs1 o :: after ∧
       Forall (λ ev, ¬ is_spawn ev) before ∧
       last before = Some (Build.EvMkdir bd) ∧
       bd ∈ fs1 ∧
       (bd ∉ Build.fs w → before = [Build.EvMkdir bd] ∧ fs1 = bd :: Build.fs w)) ∧
    (∀ msg,
       Build.path_mkdir e bd (fs_before_mkdir e clean (Build.fs w)) = Some msg →
       Forall (λ ev, ¬ is_spawn ev) evs ∧
       (Build.EvMkdir bd ∉ evs) ∧
       exit_status out.1 = 1%Z ∧
       (renders e (Build.config_cells e) →
        (cleaning e clean (Build.fs w) = true →
         Build.shutil_rmtree e bd (Build.fs w) = None) →
        out.1 = Raise (OSError msg))).
Proof.
  intros bd out.
  pose proof (main_start e mode tests clean verbose export_compile_commands jobs w)
    as Hstart.
  cbv zeta in Hstart. fold out bd in Hstart.
  assert (Hno : ∀ ev, ev ∈ rmtree_events e clean (Build.fs w) → ev ≠ Build.EvMkdir bd).
  { by intros ev ->%rmtree_events_inv. }
  destruct Hstart as [[Hcells Hout]|[(Hcells & Hc & msg & fs' & Hfail & Hres & Hfs & Htr)
      |[(Hcells & Hok & msg & Hfail & Hres & Hfs & Htr)
       |[(Hcells & Hok & Hmk & Hlines & Hres & Hfs & Htr)
        |[(Hpro & Hline) (after & Htr & Hafter)]]]]].
  - exists []. rewrite Hout, app_nil_r. split; [done|]. split; [by left|].
    intros msg _. split_and!; [done| |done|done]. by intros ?%elem_of_nil.
  - exists []. rewrite Htr, app_nil_r. split; [done|]. split; [by left|].
    intros msg' _. rewrite Hres. split_and!; [done| |done|].
    + by intros ?%elem_of_nil.
    + intros _ Hok. specialize (Hok Hc). unfold bd in *. congruence.
  - exists (rmtree_events e clean (Build.fs w)). split; [done|].
    split; [left; apply no_spawn_rmtree_events|].
    intros msg' Hfail'. rewrite Hres. split_and!.
    + apply no_spawn_rmtree_events.
    + intros Hin. by apply Hno in Hin.
    + done.
    + intros _ _. unfold bd in *. congruence.
  - exists (clean_events e clean (Build.fs w)). split; [done|].
    split; [left; apply no_spawn_clean_events|].
    intros msg' Hfail'. unfold bd in *. congruence.
  - destruct Hpro as (Hcells & Hok & Hmk & Htool).
    eexists. split; [exact Htr|].
    split; [|intros msg' Hfail'; unfold bd in *; congruence]. right.
    eexists (clean_events e clean (Build.fs w)),
      (fs_after_clean e clean (Build.fs w)), _, after.
    split; [done|]. split; [apply no_spawn_clean_events|].
    rewrite clean_events_eq. split; [apply last_snoc|].
    unfold fs_after_clean, rmtree_events, cleaning. fold bd. split.
    + destruct clean; simpl; repeat case_bool_decide; try done; by left.
    + intros Hnew. rewrite (bool_decide_eq_false_2 _ Hnew), andb_false_r. by simpl.
Qed.



Example compile_database_export_example :
  let out := Build.main sample_build_env_database Build.debug false false false
               true None sample_build_world in
  out.1 = Return () ∧
  last (Build.trace out.2) =
    Some (Build.EvCopy ["/"; "repo"; "build"; "compile_commands.json"]
            ["/"; "repo"; "compile_commands.json"]) ∧
  ["/"; "repo"; "compile_commands.json"] ∈ Build.fs out.2.
Proof.
  vm_compute. split_and!; [done..|].
  repeat (apply elem_of_cons; first [by left|right]).
Qed.
(** * Properties of lint.py: the bounded fan-out *)

Lemma spawned_snoc tr l :
  spawned (tr ++ [l]) =
    spawned tr ++ match l with Lint.Spawn i _ => [i] | _ => [] end.
Proof. unfold spawned. rewrite omap_app. by destruct l. Qed.

Lemma exited_snoc tr l :
  exited (tr ++ [l]) =
    exited tr ++ match l with Lint.Exit i _ _ _ => [i] | _ => [] end.
Proof. unfold exited. rewrite omap_app. by destruct l. Qed.

Lemma exit_codes_snoc tr l :
  exit_codes (tr ++ [l]) =
    exit_codes tr ++ match l with Lint.Exit _ rc _ _ => [rc] | _ => [] end.
Proof. unfold exit_codes. rewrite omap_app. by destruct l. Qed.

Lemma yielded_snoc tr l :
  yielded (tr ++ [l]) =
    yielded tr ++ match l with Lint.Yield r => [r] | _ => [] end.
Proof. unfold yielded. rewrite omap_app. by destruct l. Qed.

Lemma refused_snoc tr l :
  refused (tr ++ [l]) =
    refused tr ++ match l with Lint.SpawnFailed i _ _ => [i] | _ => [] end.
Proof. unfold refused. rewrite omap_app. by destruct l. Qed.

Lemma garbled_snoc tr l :
  garbled (tr ++ [l]) =
    garbled tr ++ match l with Lint.Garbled i _ => [i] | _ => [] end.
Proof. unfold garbled. rewrite omap_app. by destruct l. Qed.

Lemma exit_results_snoc files tr l :
  exit_results files (tr ++ [l]) =
    exit_results files tr ++
    match l with
    | Lint.Exit i rc out err =>
        match files !! i with
        | Some file => [Lint.lint_file_result file rc out err]
        | None => []
        end
    | _ => []
    end.
Proof.
  unfold exit_results. rewrite omap_app. destruct l as [| | | i rc out err | |]; try done.
  simpl. by destruct (files !! i).
Qed.

Lemma in_flight_insert (ts : list Lint.task) i t t' :
  ts !! i = Some t →
  length (filter (λ t, t = Lint.InFlight) (<[i:=t']> ts))
    + (if decide (t = Lint.InFlight) then 1 else 0) =
  length (filter (λ t, t = Lint.InFlight) ts)
    + (if decide (t' = Lint.InFlight) then 1 else 0).
Proof.
  revert i. induction ts as [|t0 ts IH]; intros [|i] Hi; simplify_eq/=.
  - rewrite !filter_cons. repeat case_decide; simpl; lia.
  - specialize (IH i Hi). rewrite !filter_cons.
    destruct (decide (t0 = Lint.InFlight)); simpl; lia.
Qed.

Lemma in_flight_replicate n :
  length (filter (λ t, t = Lint.InFlight) (replicate n Lint.Waiting)) = 0.
Proof. induction n as [|n IH]; [done|]. simpl. by rewrite filter_cons_False. Qed.

Lemma NoDup_snoc_l {A} (l1 l2 : list A) x :
  NoDup ((l1 ++ [x]) ++ l2) ↔ (x ∉ l1 ++ l2) ∧ NoDup (l1 ++ l2).
Proof.
  rewrite <-app_assoc. simpl. by rewrite <-Permutation_middle, NoDup_cons.
Qed.

Lemma NoDup_snoc_r {A} (l1 l2 : list A) x :
  NoDup (l1 ++ (l2 ++ [x])) ↔ (x ∉ l1 ++ l2) ∧ NoDup (l1 ++ l2).
Proof. by rewrite app_assoc, <-Permutation_cons_append, NoDup_cons. Qed.

Lemma init_inv files jobs st0 :
  Lint.init files jobs = Return st0 →
  fan_out_inv files (Z.to_nat jobs) [] st0.
Proof.
  unfold Lint.init. destruct (jobs <? 0)%Z; [done|]. intros [= <-].
  split; simpl; try done.
  - by rewrite length_replicate.
  - unfold Lint.in_flight. simpl. rewrite in_flight_replicate. lia.
  - exists []. split; [done|]. constructor.
  - intros i. rewrite elem_of_nil. split; [done|].
    intros (t & [-> _]%lookup_replicate & Ht). done.
  - intros i. rewrite elem_of_nil. split; [done|].
    intros (r & [? _]%lookup_replicate). done.
  - intros i. rewrite elem_of_nil. split; [done|].
    intros (r & [? _]%lookup_replicate). done.
  - constructor.
  - constructor.
Qed.

Section fan_out_invariant.
Context (files : list Path) (compile_commands : Path) (fix_ : bool)
        (extra : list string) (K : nat).

Local Abbreviation step := (Lint.step files compile_commands fix_ extra).
Local Abbreviation run := (Lint.run files compile_commands fix_ extra).

(** The ended tasks in the queue are not touched when a task that has not
    ended changes. *)
Lemma queued_insert st i t t' pending :
  Lint.tasks st !! i = Some t →
  (t = Lint.Waiting ∨ t = Lint.InFlight) →
  Forall2 (queued st) (Lint.done_queue st) pending →
  Forall2 (λ j o, match o with
                  | Some r => <[i:=t']> (Lint.tasks st) !! j = Some (Lint.Finished r)
                  | None => ∃ exn, <[i:=t']> (Lint.tasks st) !! j =
                                     Some (Lint.Crashed exn)
                  end) (Lint.done_queue st) pending.
Proof.
  intros Hi Ht Hq. eapply Forall2_impl; [done|].
  intros j [r|] Hj; simpl in Hj.
  - rewrite list_lookup_insert_ne; [done|]. intros ->. destruct Ht; congruence.
  - destruct Hj as [exn Hj]. exists exn.
    rewrite list_lookup_insert_ne; [done|]. intros ->. destruct Ht; congruence.
Qed.

Lemma step_inv tr st l st' :
  fan_out_inv files K tr st → step st l st' → fan_out_inv files K (tr ++ [l]) st'.
Proof.
  intros [Htasks Hsem Htodo Hprog (pending & Hres & Hq) Hlen Hcodes Hlabels Hsp Hex
            Hrs Hgb Hsp1 Hex1 Hfail Hsucc] Hstep.
  destruct Hstep as [st i file Hi Hfile Hpos
                    |st i file exn Hi Hfile Hpos
                    |st i file rc out err Hi Hfile
                    |st i file rc Hi Hfile
                    |st i queue n file success output Hq0 Hi Htodo0].
  - (* a task takes a permit and starts its child process *)
    pose proof (lookup_lt_Some _ _ _ Hi) as Hlt.
    split; unfold raised in *; simpl;
      rewrite ?spawned_snoc, ?exited_snoc, ?yielded_snoc, ?exit_results_snoc,
        ?exit_codes_snoc, ?refused_snoc, ?garbled_snoc, ?app_nil_r; try done.
    + by rewrite length_insert.
    + unfold Lint.in_flight in *. simpl.
      pose proof (in_flight_insert _ _ _ Lint.InFlight Hi) as Hins.
      rewrite decide_False, decide_True in Hins by done. lia.
    + exists pending. split; [done|]. eapply (queued_insert st); eauto.
    + rewrite !length_app. simpl. lia.
    + intros j. specialize (Hsp j). rewrite !elem_of_app in *.
      rewrite list_elem_of_singleton.
      destruct (decide (j = i)) as [->|Hne].
      * rewrite list_lookup_insert_eq by done. split; [|auto].
        intros _. by eexists.
      * rewrite list_lookup_insert_ne by done. tauto.
    + intros j. rewrite Hex. destruct (decide (j = i)) as [->|Hne].
      * rewrite list_lookup_insert_eq by done. rewrite Hi.
        split; by intros [? ?].
      * by rewrite list_lookup_insert_ne.
    + intros j. rewrite Hrs. destruct (decide (j = i)) as [->|Hne].
      * rewrite list_lookup_insert_eq by done. rewrite Hi.
        split; by intros [? ?].
      * by rewrite list_lookup_insert_ne.
    + intros j Hj. apply elem_of_app. left. auto.
    + apply NoDup_snoc_l. split; [|done].
      intros Hj. apply Hsp in Hj as (t & Ht & Hne). congruence.
  - (* the start of a child process raises *)
    pose proof (lookup_lt_Some _ _ _ Hi) as Hlt.
    split; unfold raised in *; simpl;
      rewrite ?spawned_snoc, ?exited_snoc, ?yielded_snoc, ?exit_results_snoc,
        ?exit_codes_snoc, ?refused_snoc, ?garbled_snoc, ?app_nil_r; try done.
    + by rewrite length_insert.
    + unfold Lint.in_flight in *. simpl.
      pose proof (in_flight_insert _ _ _ (Lint.Crashed exn) Hi) as Hins.
      rewrite !decide_False in Hins by done. lia.
    + exists (pending ++ [None]). split.
      { rewrite omap_app. simpl. by rewrite app_nil_r. }
      apply Forall2_app.
      * eapply (queued_insert st); eauto.
      * constructor; [|constructor]. simpl. exists exn.
        by rewrite list_lookup_insert_eq.
    + rewrite !length_app. simpl. lia.
    + intros j. specialize (Hsp j). rewrite !elem_of_app in *.
      rewrite list_elem_of_singleton.
      destruct (decide (j = i)) as [->|Hne].
      * rewrite list_lookup_insert_eq by done. split; [|auto].
        intros _. by eexists.
      * rewrite list_lookup_insert_ne by done. tauto.
    + intros j. rewrite Hex. destruct (decide (j = i)) as [->|Hne].
      * rewrite list_lookup_insert_eq by done. rewrite Hi.
        split; by intros [? ?].
      * by rewrite list_lookup_insert_ne.
    + intros j. specialize (Hrs j). rewrite !elem_of_app in *.
      rewrite list_elem_of_singleton.
      destruct (decide (j = i)) as [->|Hne].
      * rewrite list_lookup_insert_eq by done. split; [|auto].
        intros _. by eexists.
      * rewrite list_lookup_insert_ne by done. tauto.
    + apply NoDup_snoc_r. split; [|done].
      intros Hj. apply Hsp in Hj as (t & Ht & Hne). congruence.
  - (* a child process exits, its output decodes *)
    pose proof (lookup_lt_Some _ _ _ Hi) as Hlt.
    split; unfold raised in *; simpl;
      rewrite ?spawned_snoc, ?exited_snoc, ?yielded_snoc, ?exit_results_snoc,
        ?exit_codes_snoc, ?refused_snoc, ?garbled_snoc, ?Hfile, ?app_nil_r; try done.
    + by rewrite length_insert.
    + unfold Lint.in_flight in *. simpl.
      pose proof (in_flight_insert _ _ _
        (Lint.Finished (Lint.lint_file_result file rc out err)) Hi) as Hins.
      rewrite decide_True, decide_False in Hins by done. lia.
    + exists (pending ++ [Some (Lint.lint_file_result file rc out err)]). split.
      { rewrite omap_app. simpl. by rewrite Hres, app_assoc. }
      apply Forall2_app.
      * eapply (queued_insert st); eauto.
      * constructor; [|constructor]. simpl.
        by rewrite list_lookup_insert_eq.
    + rewrite !length_app. simpl. lia.
    + rewrite !length_app. simpl. lia.
    + rewrite !length_app. simpl. lia.
    + intros j. rewrite Hsp. destruct (decide (j = i)) as [->|Hne].
      * rewrite list_lookup_insert_eq by done. rewrite Hi.
        split; intros _; by eexists.
      * by rewrite list_lookup_insert_ne.
    + intros j. rewrite elem_of_app, list_elem_of_singleton, Hex.
      destruct (decide (j = i)) as [->|Hne].
      * rewrite list_lookup_insert_eq by done. split; [|auto].
        intros _. by eexists.
      * rewrite list_lookup_insert_ne by done.
        split; [by intros [?|?]|by left].
    + intros j. rewrite Hrs. destruct (decide (j = i)) as [->|Hne].
      * rewrite list_lookup_insert_eq by done. rewrite Hi.
        split; by intros [? ?].
      * by rewrite list_lookup_insert_ne.
    + apply NoDup_snoc_l. split; [|done].
      intros [Hj|Hj]%elem_of_app.
      * apply Hex in Hj as (r & Hr). congruence.
      * assert (i ∈ refused tr ++ garbled tr) as (? & ?)%Hrs; [|congruence].
        apply elem_of_app. by right.
    + rewrite !Forall_app, !Forall_singleton, Hsucc. simpl.
      by rewrite Z.eqb_eq.
  - (* a child process exits, its output does not decode *)
    pose proof (lookup_lt_Some _ _ _ Hi) as Hlt.
    split; unfold raised in *; simpl;
      rewrite ?spawned_snoc, ?exited_snoc, ?yielded_snoc, ?exit_results_snoc,
        ?exit_codes_snoc, ?refused_snoc, ?garbled_snoc, ?app_nil_r; try done.
    + by rewrite length_insert.
    + unfold Lint.in_flight in *. simpl.
      pose proof (in_flight_insert _ _ _ (Lint.Crashed UnicodeDecodeError) Hi) as Hins.
      rewrite decide_True, decide_False in Hins by done. lia.
    + exists (pending ++ [None]). split.
      { rewrite omap_app. simpl. by rewrite app_nil_r. }
      apply Forall2_app.
      * eapply (queued_insert st); eauto.
      * constructor; [|constructor]. simpl. eexists.
        by rewrite list_lookup_insert_eq.
    + rewrite !length_app. simpl. lia.
    + intros j. rewrite Hsp. destruct (decide (j = i)) as [->|Hne].
      * rewrite list_lookup_insert_eq by done. rewrite Hi.
        split; intros _; by eexists.
      * by rewrite list_lookup_insert_ne.
    + intros j. rewrite Hex. destruct (decide (j = i)) as [->|Hne].
      * rewrite list_lookup_insert_eq by done. rewrite Hi.
        split; by intros [? ?].
      * by rewrite list_lookup_insert_ne.
    + intros j. specialize (Hrs j). rewrite !elem_of_app in *.
      rewrite list_elem_of_singleton.
      destruct (decide (j = i)) as [->|Hne].
      * rewrite list_lookup_insert_eq by done. split; [|auto].
        intros _. by eexists.
      * rewrite list_lookup_insert_ne by done. tauto.
    + intros j [Hj| ->%list_elem_of_singleton]%elem_of_app; [auto|].
      assert (i ∈ spawned tr ++ refused tr) as [?|Hj]%elem_of_app; [|done|].
      { apply Hsp. by eexists. }
      assert (i ∈ refused tr ++ garbled tr) as (? & ?)%Hrs; [|congruence].
      apply elem_of_app. by left.
    + apply NoDup_snoc_r. split; [|done].
      intros [Hj|Hj]%elem_of_app.
      * apply Hex in Hj as (r & Hr). congruence.
      * assert (i ∈ refused tr ++ garbled tr) as (? & ?)%Hrs; [|congruence].
        apply elem_of_app. by right.
  - (* the loop receives the oldest ended task *)
    rewrite Hq0 in Hq. apply Forall2_cons_inv_l in Hq as (o & pending' & Hr & Hq & ->).
    destruct o as [r|]; simpl in Hr; [|destruct Hr as [? ?]; congruence].
    assert (r = (file, success, output)) as -> by congruence.
    split; unfold raised in *; simpl;
      rewrite ?spawned_snoc, ?exited_snoc, ?yielded_snoc, ?exit_results_snoc,
        ?exit_codes_snoc, ?refused_snoc, ?garbled_snoc, ?app_nil_r; try done.
    + rewrite length_app. simpl. lia.
    + rewrite length_app. simpl. lia.
    + exists pending'. split; [|done]. by rewrite Hres, <-app_assoc.
    + rewrite !length_app. simpl. lia.
    + unfold failures in *. rewrite omap_app, Hfail. simpl.
      destruct success; simpl; by rewrite ?app_nil_r.
Qed.

Lemma run_inv st0 tr st :
  fan_out_inv files K [] st0 → run st0 tr st → fan_out_inv files K tr st.
Proof. intros Hinit. induction 1; eauto using step_inv. Qed.

Lemma in_flight_none (ts : list Lint.task) :
  Lint.InFlight ∉ ts → length (filter (λ t, t = Lint.InFlight) ts) = 0.
Proof.
  induction ts as [|t ts IH]; [done|]. rewrite not_elem_of_cons. intros [Hne Hts].
  rewrite filter_cons_False by done. auto.
Qed.

(** Indices without repetition below [n]. *)
Lemma NoDup_below_length (l : list nat) n :
  NoDup l → (∀ i, i ∈ l → i < n) → length l ≤ n.
Proof.
  intros Hl Hlt. rewrite <-(length_seq n 0). apply submseteq_length.
  apply NoDup_submseteq; [done|]. intros i Hi. apply elem_of_seq.
  specialize (Hlt i Hi). lia.
Qed.

Lemma NoDup_below_full (l : list nat) n :
  NoDup l → (∀ i, i ∈ l → i < n) → n ≤ length l → l ≡ₚ seq 0 n.
Proof.
  intros Hl Hlt Hn. apply submseteq_length_Permutation.
  - apply NoDup_submseteq; [done|]. intros i Hi. apply elem_of_seq.
    specialize (Hlt i Hi). lia.
  - by rewrite length_seq.
Qed.

Lemma NoDup_below_missing (l : list nat) n :
  NoDup l → length l < n → ∃ i, i < n ∧ i ∉ l.
Proof.
  intros Hl Hlen.
  destruct (decide (Exists (λ i, i ∉ l) (seq 0 n))) as [Hex|Hall].
  - apply Exists_exists in Hex as (i & Hi%elem_of_seq & Hnot).
    exists i. split; [lia|done].
  - apply not_Exists_Forall in Hall; [|apply _].
    rewrite Forall_forall in Hall.
    assert (seq 0 n ⊆+ l) as Hsub%submseteq_length.
    { apply NoDup_submseteq; [apply NoDup_seq|].
      intros i Hi. specialize (Hall i Hi). simpl in Hall.
      by destruct (decide (i ∈ l)). }
    rewrite length_seq in Hsub. lia.
Qed.

Section reachable.
Context (tr : list Lint.label) (st : Lint.state).
Context (Hinv : fan_out_inv files K tr st).

Lemma started_below i : i ∈ spawned tr ++ refused tr → i < length files.
Proof.
  intros (t & Ht & _)%(inv_started _ _ _ _ Hinv).
  rewrite <-(inv_tasks _ _ _ _ Hinv). by eapply lookup_lt_Some.
Qed.

Lemma spawned_below i : i ∈ spawned tr → i < length files.
Proof. intros Hi. apply started_below, elem_of_app. by left. Qed.

Lemma spawned_NoDup : NoDup (spawned tr).
Proof. pose proof (inv_started_once _ _ _ _ Hinv) as H. by apply NoDup_app in H as (? & _). Qed.

Lemma exited_NoDup : NoDup (exited tr).
Proof. pose proof (inv_ended_once _ _ _ _ Hinv) as H. by apply NoDup_app in H as (? & _). Qed.

Lemma exited_spawned i : i ∈ exited tr → i ∈ spawned tr.
Proof.
  intros Hi. pose proof Hi as (r & Hr)%(inv_exited _ _ _ _ Hinv).
  assert (i ∈ spawned tr ++ refused tr) as [?|Hj]%elem_of_app; [|done|].
  { apply (inv_started _ _ _ _ Hinv). by eexists. }
  assert (i ∈ raised tr) as (? & ?)%(inv_raised _ _ _ _ Hinv); [|congruence].
  apply elem_of_app. by left.
Qed.

Lemma ended_below i : i ∈ exited tr ++ garbled tr → i < length files.
Proof.
  intros [Hi|Hi]%elem_of_app.
  - by apply spawned_below, exited_spawned.
  - by apply spawned_below, (inv_garbled _ _ _ _ Hinv).
Qed.

Lemma in_flight_le : Lint.in_flight st ≤ K.
Proof. pose proof (inv_sem _ _ _ _ Hinv). lia. Qed.

Lemma run_length : length tr ≤ 3 * length files.
Proof.
  rewrite (inv_labels _ _ _ _ Hinv).
  pose proof (NoDup_below_length _ (length files)
                (inv_started_once _ _ _ _ Hinv) started_below) as Hs.
  pose proof (NoDup_below_length _ (length files)
                (inv_ended_once _ _ _ _ Hinv) ended_below) as He.
  rewrite length_app in Hs, He.
  pose proof (inv_todo _ _ _ _ Hinv). lia.
Qed.

(** Once the loop over [as_completed] is over, every task has been
    started once, has exited with output that decodes, and has had its
    result received: no task has raised. *)
Lemma fan_out_done :
  Lint.loop_done st →
  yielded tr = exit_results files tr ∧
  length (yielded tr) = length files ∧
  exited tr ≡ₚ seq 0 (length files) ∧
  spawned tr ≡ₚ seq 0 (length files) ∧
  Lint.in_flight st = 0 ∧
  raised tr = [] ∧
  Lint.done_queue st = [].
Proof.
  unfold Lint.loop_done. intros Htodo.
  destruct (inv_queue _ _ _ _ Hinv) as (pending & Hres & Hq).
  pose proof (inv_todo _ _ _ _ Hinv) as Hlen. rewrite Htodo in Hlen. simpl in Hlen.
  pose proof (NoDup_below_length (exited tr) (length files) exited_NoDup
                (λ i Hi, spawned_below i (exited_spawned i Hi))) as Hle.
  pose proof (inv_results _ _ _ _ Hinv) as Hlen'.
  rewrite Hres, length_app in Hlen'.
  assert (omap id pending = []) as Hnone by (apply length_zero_iff_nil; lia).
  rewrite Hnone, app_nil_r in Hres.
  assert (exited tr ≡ₚ seq 0 (length files)) as Hexited.
  { apply NoDup_below_full; [apply exited_NoDup| |simpl in *; lia].
    intros i Hi. by apply spawned_below, exited_spawned. }
  assert (spawned tr ≡ₚ seq 0 (length files)) as Hspawned.
  { apply NoDup_Permutation; [apply spawned_NoDup|apply NoDup_seq|].
    intros i. split.
    - intros Hi%spawned_below. apply elem_of_seq. lia.
    - rewrite <-Hexited. apply exited_spawned. }
  assert (∀ i t, Lint.tasks st !! i = Some t → ∃ r, t = Lint.Finished r) as Hall.
  { intros i t Hi.
    assert (i ∈ exited tr) as (r & Hr)%(inv_exited _ _ _ _ Hinv).
    { rewrite Hexited. apply elem_of_seq.
      apply lookup_lt_Some in Hi. rewrite (inv_tasks _ _ _ _ Hinv) in Hi. lia. }
    exists r. congruence. }
  assert (raised tr = []) as Hraised.
  { destruct (raised tr) as [|i l] eqn:Hr; [done|].
    assert (i ∈ raised tr) as (exn & Hexn)%(inv_raised _ _ _ _ Hinv)
      by (rewrite Hr; left).
    by destruct (Hall _ _ Hexn). }
  split_and!; [done..| |done|].
  - unfold Lint.in_flight. apply in_flight_none.
    intros [i Hi]%list_elem_of_lookup. by destruct (Hall _ _ Hi).
  - destruct Hq as [|i o queue pending' Hio _]; [done|].
    destruct o as [r|]; [done|]. destruct Hio as [exn Hexn].
    by destruct (Hall _ _ Hexn).
Qed.

(** With a permit to hand out and no task ended by an exception, the event
    loop is never blocked before the loop over [as_completed] is over: a
    step is possible after which still no task has raised. *)
Lemma fan_out_progress :
  0 < K → raised tr = [] → ¬ Lint.loop_done st →
  ∃ l st', step st l st' ∧ raised (tr ++ [l]) = [].
Proof.
  intros HK Hraised Htodo. unfold Lint.loop_done in Htodo.
  assert (∀ i exn, Lint.tasks st !! i ≠ Some (Lint.Crashed exn)) as Hnone.
  { intros i exn Hi.
    assert (i ∈ raised tr) as Hin by (apply (inv_raised _ _ _ _ Hinv); eauto).
    rewrite Hraised in Hin. by apply elem_of_nil in Hin. }
  assert (∀ l, match l with
               | Lint.SpawnFailed _ _ _ | Lint.Garbled _ _ => False
               | _ => True
               end → raised (tr ++ [l]) = []) as Hstill.
  { intros l Hl. unfold raised in *. rewrite refused_snoc, garbled_snoc.
    apply app_eq_nil in Hraised as [-> ->]. by destruct l. }
  destruct (inv_queue _ _ _ _ Hinv) as (pending & Hres & Hq).
  destruct (Lint.done_queue st) as [|i queue] eqn:Hqueue.
  - apply Forall2_nil_inv_l in Hq as ->. simpl in Hres. rewrite app_nil_r in Hres.
    assert (length (exited tr) < length files) as Hlen.
    { rewrite <-(inv_results _ _ _ _ Hinv), Hres.
      pose proof (inv_todo _ _ _ _ Hinv). lia. }
    apply NoDup_below_missing in Hlen as (i & Hi & Hnot); [|apply exited_NoDup].
    destruct (lookup_lt_is_Some_2 files i Hi) as [file Hfile].
    destruct (decide (Lint.InFlight ∈ Lint.tasks st)) as [Hin|Hnofl].
    + apply list_elem_of_lookup in Hin as [j Hj].
      destruct (lookup_lt_is_Some_2 files j) as [file' Hfile'].
      { rewrite <-(inv_tasks _ _ _ _ Hinv). by eapply lookup_lt_Some. }
      eexists _, _. split.
      * by apply (Lint.step_exit _ _ _ _ st j file' 0%Z "" "").
      * by apply Hstill.
    + destruct (lookup_lt_is_Some_2 (Lint.tasks st) i) as [t Ht].
      { by rewrite (inv_tasks _ _ _ _ Hinv). }
      destruct t as [| |r|exn].
      * eexists _, _. split.
        -- apply (Lint.step_acquire _ _ _ _ st i file); [done..|].
           pose proof (inv_sem _ _ _ _ Hinv) as Hsem.
           unfold Lint.in_flight in Hsem. rewrite in_flight_none in Hsem by done. lia.
        -- by apply Hstill.
      * destruct Hnofl. by eapply list_elem_of_lookup_2.
      * destruct Hnot. apply (inv_exited _ _ _ _ Hinv). by eexists.
      * by destruct (Hnone i exn).
  - apply Forall2_cons_inv_l in Hq as (o & pending' & Hr & _ & _).
    destruct o as [[[file success] output]|]; simpl in Hr.
    + destruct (Lint.todo st) as [|n] eqn:Hn; [done|].
      eexists _, _. split; [by eapply Lint.step_yield|]. by apply Hstill.
    + destruct Hr as [exn Hexn]. by destruct (Hnone i exn).
Qed.

End reachable.

(** With a permit to hand out, every run in which no task has raised
    extends to one in which the loop over [as_completed] is over. *)
Lemma run_completes st0 tr st :
  0 < K → fan_out_inv files K [] st0 → run st0 tr st → raised tr = [] →
  ∃ tr' st', run st0 (tr ++ tr') st' ∧ raised (tr ++ tr') = [] ∧ Lint.loop_done st'.
Proof.
  intros HK Hinit.
  remember (3 * length files - length tr) as fuel eqn:Hfuel.
  revert tr st Hfuel.
  induction (lt_wf fuel) as [fuel _ IH]. intros tr st -> Hrun Hraised.
  destruct (decide (Lint.todo st = 0)) as [Hdone|Hmore].
  { exists [], st. by rewrite app_nil_r. }
  pose proof (run_inv _ _ _ Hinit Hrun) as Hinv.
  destruct (fan_out_progress tr st Hinv HK Hraised Hmore) as (l & st1 & Hstep & Hstill).
  assert (run st0 (tr ++ [l]) st1) as Hrun1 by by econstructor.
  pose proof (run_length _ _ (run_inv _ _ _ Hinit Hrun1)) as Hlen.
  rewrite length_app in Hlen. simpl in Hlen.
  destruct (IH (3 * length files - length (tr ++ [l]))) with (tr := tr ++ [l]) (st := st1)
    as (tr' & st' & Hrun' & Hraised' & Hdone');
    [rewrite length_app; simpl; lia|done|done|done|].
  exists (l :: tr'), st'. rewrite cons_middle, app_assoc. by split_and!.
Qed.

End fan_out_invariant.
Lemma init_Return files jobs :
  (0 ≤ jobs)%Z → ∃ st0, Lint.init files jobs = Return st0.
Proof.
  intros Hjobs. unfold Lint.init.
  destruct (Z.ltb_spec jobs 0); [lia|]. by eexists.
Qed.

Lemma init_nonneg files jobs st0 :
  Lint.init files jobs = Return st0 → (0 ≤ jobs)%Z.
Proof. unfold Lint.init. by destruct (Z.ltb_spec jobs 0). Qed.

(** Every child process of a run is [clang-tidy] on one of the files. *)
Lemma run_spawn_cmd files compile_commands fix_ extra st0 tr st i cmd :
  Lint.run files compile_commands fix_ extra st0 tr st →
  Lint.Spawn i cmd ∈ tr →
  ∃ file, files !! i = Some file ∧
          cmd = Lint.lint_cmd compile_commands fix_ extra file.
Proof.
  induction 1 as [|tr st l st' _ IH Hstep]; [by intros ?%elem_of_nil|].
  intros [Hin|Hin%list_elem_of_singleton]%elem_of_app; [auto|].
  destruct Hstep; simplify_eq. eauto.
Qed.

(** The runs of the fan-out are closed under prefixes. *)
Lemma run_prefix files compile_commands fix_ extra st0 tr1 tr2 st :
  Lint.run files compile_commands fix_ extra st0 (tr1 ++ tr2) st →
  ∃ st1, Lint.run files compile_commands fix_ extra st0 tr1 st1.
Proof.
  revert st. induction tr2 as [|l tr2 IH] using rev_ind; intros st Hrun.
  - rewrite app_nil_r in Hrun. by exists st.
  - rewrite app_assoc in Hrun.
    inversion Hrun as [Hnil|tr' st' l' st'' Hrun' Hstep Heq].
    + by destruct (tr1 ++ tr2).
    + apply app_inj_tail in Heq as [-> ->]. by eapply IH.
Qed.

Lemma raised_app tr1 tr2 : raised (tr1 ++ tr2) = [] → raised tr1 = [].
Proof.
  unfold raised, refused, garbled. rewrite !omap_app.
  intros [[-> _]%app_eq_nil [-> _]%app_eq_nil]%app_eq_nil. done.
Qed.

(** A task that an exception has ended has raised. *)
Lemma loop_raises_raised files K tr st exn :
  fan_out_inv files K tr st → Lint.loop_raises st exn → raised tr ≠ [].
Proof.
  intros Hinv (i & queue & _ & Hi) Hnone.
  assert (i ∈ raised tr) as Hin by (apply (inv_raised _ _ _ _ Hinv); eauto).
  rewrite Hnone in Hin. by apply elem_of_nil in Hin.
Qed.

Lemma sample_run_runs :
  ∃ st0, Lint.init [sample_source] 1 = Return st0 ∧
         Lint.run [sample_source] sample_database false [] st0 sample_run sample_final.
Proof.
  set (r := (sample_source, false, "a.cpp:1:1: warning1 warning generated.")).
  set (st0 := {| Lint.sem_value := 1; Lint.tasks := [Lint.Waiting];
                 Lint.done_queue := []; Lint.todo := 1; Lint.progress := 0;
                 Lint.console := []; Lint.failed_files := [] |}).
  set (st1 := {| Lint.sem_value := 0; Lint.tasks := [Lint.InFlight];
                 Lint.done_queue := []; Lint.todo := 1; Lint.progress := 0;
                 Lint.console := []; Lint.failed_files := [] |}).
  set (st2 := {| Lint.sem_value := 1; Lint.tasks := [Lint.Finished r];
                 Lint.done_queue := [0]; Lint.todo := 1; Lint.progress := 0;
                 Lint.console := []; Lint.failed_files := [] |}).
  exists st0. split; [reflexivity|].
  apply (Lint.run_snoc _ _ _ _ st0 [_; _] st2).
  - apply (Lint.run_snoc _ _ _ _ st0 [_] st1).
    + apply (Lint.run_snoc _ _ _ _ st0 [] st0); [apply Lint.run_nil|].
      exact (Lint.step_acquire [sample_source] sample_database false [] st0 0 sample_source eq_refl eq_refl
               (Nat.lt_0_succ 0)).
    + exact (Lint.step_exit [sample_source] sample_database false [] st1 0 sample_source 1 _ _ eq_refl eq_refl).
  - exact (Lint.step_yield [sample_source] sample_database false [] st2 0 [] 0 sample_source false _
             eq_refl eq_refl eq_refl).
Qed.

Lemma sample_garbled_run_runs :
  ∃ st0, Lint.init [sample_source] 1 = Return st0 ∧
         Lint.run [sample_source] sample_database false [] st0 sample_garbled_run
           sample_garbled_final.
Proof.
  set (st0 := {| Lint.sem_value := 1; Lint.tasks := [Lint.Waiting];
                 Lint.done_queue := []; Lint.todo := 1; Lint.progress := 0;
                 Lint.console := []; Lint.failed_files := [] |}).
  set (st1 := {| Lint.sem_value := 0; Lint.tasks := [Lint.InFlight];
                 Lint.done_queue := []; Lint.todo := 1; Lint.progress := 0;
                 Lint.console := []; Lint.failed_files := [] |}).
  exists st0. split; [reflexivity|].
  apply (Lint.run_snoc _ _ _ _ st0 [_] st1).
  - apply (Lint.run_snoc _ _ _ _ st0 [] st0); [apply Lint.run_nil|].
    exact (Lint.step_acquire [sample_source] sample_database false [] st0 0 sample_source eq_refl eq_refl
             (Nat.lt_0_succ 0)).
  - exact (Lint.step_garbled [sample_source] sample_database false [] st1 0 sample_source 0 eq_refl eq_refl).
Qed.

(** No step is possible from the initial state of a fan-out without
    permits. *)
Lemma zero_permits_no_run files compile_commands fix_ extra st0 tr st :
  files ≠ [] →
  Lint.init files 0 = Return st0 →
  Lint.run files compile_commands fix_ extra st0 tr st →
  tr = [] ∧ st = st0.
Proof.
  intros Hfiles [= <-]. induction 1 as [|tr st l st' _ [-> ->] Hstep]; [done|].
  exfalso. inversion Hstep; simplify_eq/=; try lia.
  all: match goal with
       | H : replicate _ _ !! _ = Some _ |- _ => by apply lookup_replicate in H as [? _]
       end.
Qed.

(** C1 (as the code has it).  In every state of every run of the fan-out
    over [files] with [--jobs K], at most [K] child processes are in flight,
    no file's operation has been started twice, and the run has made at most
    [3 * N] steps.  Once the loop over [as_completed] is over, every file's
    operation has been started exactly once and has exited, and none has
    raised.  When [K >= 1] and no operation has raised (a child process that
    cannot be started, output that is not valid UTF-8), the run goes on
    whatever the scheduling: as long as the loop is not over a step is
    possible, and the run extends to one in which the loop is over.  Once
    an operation has raised the loop is never over: the exception reaches
    the loop in place of a result. *)
Theorem fan_out_bounded_and_complete (files : list Path) (compile_commands : Path)
    (fix_ : bool) (extra : list string) (jobs : Z)
    (st0 : Lint.state) (tr : list Lint.label) (st : Lint.state) :
  Lint.init files jobs = Return st0 →
  Lint.run files compile_commands fix_ extra st0 tr st →
  (Z.of_nat (Lint.in_flight st) ≤ jobs)%Z ∧
  NoDup (spawned tr) ∧
  (∀ i cmd, Lint.Spawn i cmd ∈ tr →
     ∃ file, files !! i = Some file ∧
             cmd = Lint.lint_cmd compile_commands fix_ extra file) ∧
  length tr ≤ 3 * length files ∧
  (Lint.loop_done st →
     spawned tr ≡ₚ seq 0 (length files) ∧
     exited tr ≡ₚ seq 0 (length files) ∧
     Lint.in_flight st = 0 ∧
     raised tr = []) ∧
  ((1 ≤ jobs)%Z → raised tr = [] →
     (¬ Lint.loop_done st →
        ∃ l st', Lint.step files compile_commands fix_ extra st l st' ∧
                 raised (tr ++ [l]) = []) ∧
     (∃ tr' st',
        Lint.run files compile_commands fix_ extra st0 (tr ++ tr') st' ∧
        raised (tr ++ tr') = [] ∧
        Lint.loop_done st')) ∧
  (raised tr ≠ [] →
     ∀ tr' st',
       Lint.run files compile_commands fix_ extra st0 (tr ++ tr') st' →
       ¬ Lint.loop_done st').
Proof.
  intros Hinit Hrun.
  pose proof (init_nonneg _ _ _ Hinit) as Hjobs.
  pose proof (init_inv _ _ _ Hinit) as Hinv0.
  pose proof (run_inv _ _ _ _ _ _ _ _ Hinv0 Hrun) as Hinv.
  split_and!.
  - pose proof (in_flight_le _ _ _ _ Hinv). lia.
  - apply (spawned_NoDup _ _ _ _ Hinv).
  - intros i cmd. by eapply run_spawn_cmd.
  - by eapply run_length.
  - intros Hdone.
    by destruct (fan_out_done _ _ _ _ Hinv Hdone) as (_ & _ & ? & ? & ? & ? & _).
  - intros HK Hraised. split.
    + eapply fan_out_progress; [done|lia|done].
    + eapply run_completes; [|done..]. lia.
  - intros Hraised tr' st' Hrun' Hdone.
    pose proof (run_inv _ _ _ _ _ _ _ _ Hinv0 Hrun') as Hinv'.
    destruct (fan_out_done _ _ _ _ Hinv' Hdone) as (_ & _ & _ & _ & _ & Hnone & _).
    by apply raised_app in Hnone.
Qed.

Lemma fan_out_bounded_and_complete_witness :
  (Z.of_nat (Lint.in_flight sample_final) ≤ 1)%Z ∧
  NoDup (spawned sample_run) ∧
  (∀ i cmd, Lint.Spawn i cmd ∈ sample_run →
     ∃ file, [sample_source] !! i = Some file ∧
             cmd = Lint.lint_cmd sample_database false [] file) ∧
  length sample_run ≤ 3 * length [sample_source] ∧
  (Lint.loop_done sample_final →
     spawned sample_run ≡ₚ seq 0 (length [sample_source]) ∧
     exited sample_run ≡ₚ seq 0 (length [sample_source]) ∧
     Lint.in_flight sample_final = 0 ∧
     raised sample_run = []).
Proof.
  destruct sample_run_runs as (st0 & Hinit & Hrun).
  destruct (fan_out_bounded_and_complete [sample_source] sample_database false []
              1 st0 sample_run sample_final Hinit Hrun)
    as (H1 & H2 & H3 & H4 & H5 & _).
  by split_and!.
Defined.

(** C1 as stated fails for [--jobs 0]: the semaphore starts at 0, so in
    every run no operation is ever started and the loop is never over. *)
Lemma zero_jobs_nothing_runs :
  ∃ st0,
    Lint.init [sample_source] 0 = Return st0 ∧
    ∀ tr st,
      Lint.run [sample_source] sample_database false [] st0 tr st →
      spawned tr = [] ∧ ¬ Lint.loop_done st.
Proof.
  eexists. split; [reflexivity|]. intros tr st Hrun.
  apply zero_permits_no_run in Hrun as [-> ->]; done.
Qed.

(** A run with one permit in which the output of clang-tidy does not
    decode: the exception is what the loop receives, and the loop is not
    over. *)
Example garbled_output_ends_the_loop :
  ∃ st0,
    Lint.init [sample_source] 1 = Return st0 ∧
    Lint.run [sample_source] sample_database false [] st0 sample_garbled_run
      sample_garbled_final ∧
    Lint.loop_raises sample_garbled_final UnicodeDecodeError ∧
    ¬ Lint.loop_done sample_garbled_final ∧
    yielded sample_garbled_run = [].
Proof.
  destruct sample_garbled_run_runs as (st0 & Hinit & Hrun).
  exists st0. split_and!; [done|done| |done|done]. by exists 0, [].
Qed.

(** * Properties of lint.py: the results and the exit status *)




Lemma failures_nil rs :
  failures rs = [] ↔ Forall (λ r : Lint.lint_result, r.1.2 = true) rs.
Proof.
  unfold failures. induction rs as [|[[file success] output] rs IH]; csimpl.
  - split; [constructor|done].
  - rewrite Forall_cons. simpl. destruct success; csimpl.
    + rewrite IH. split; [by split|by intros [_ ?]].
    + split; [done|by intros [? _]].
Qed.



Lemma summary_status fix_ success :
  (Lint.summary fix_ success).2 = if success then 0%Z else 1%Z.
Proof. by destruct fix_, success. Qed.

(** The value of [lint_all_files] once its loop is over: whether every
    child process exited with status 0. *)
Lemma lint_all_files_value_spec files K tr st :
  fan_out_inv files K tr st → Lint.loop_done st →
  Lint.lint_all_files_value st = true ↔
    Forall (λ returncode, returncode = 0%Z) (exit_codes tr).
Proof.
  intros Hinv Hdone. destruct (fan_out_done _ _ _ _ Hinv Hdone) as (Hall & _).
  unfold Lint.lint_all_files_value.
  rewrite bool_decide_eq_true, (inv_failed _ _ _ _ Hinv), failures_nil, Hall.
  apply (inv_success _ _ _ _ Hinv).
Qed.

(** The probe of [get_system_include_args] is no step of the fan-out. *)
Lemma probe_labels e files tr :
  spawned (Lint.probe e ++ tr) = spawned tr ∧
  exited (Lint.probe e ++ tr) = exited tr ∧
  exit_codes (Lint.probe e ++ tr) = exit_codes tr ∧
  exit_results files (Lint.probe e ++ tr) = exit_results files tr ∧
  yielded (Lint.probe e ++ tr) = yielded tr ∧
  refused (Lint.probe e ++ tr) = refused tr ∧
  garbled (Lint.probe e ++ tr) = garbled tr ∧
  raised (Lint.probe e ++ tr) = raised tr.
Proof. unfold Lint.probe, raised. by destruct (Lint.platform_darwin e). Qed.

Lemma print_lines_cases e lines :
  ((Lint.print_lines e lines).1 = Return () ∧
   (Lint.print_lines e lines).2 = lines ∧ report_renders e lines) ∨
  ((Lint.print_lines e lines).1 = Raise MarkupError ∧
   ¬ report_renders e lines).
Proof.
  unfold report_renders. induction lines as [|line lines IH]; simpl.
  - left. by split_and!.
  - destruct (Lint.markup_error e line) eqn:Hline.
    + right. split; [done|]. rewrite Forall_cons. intros [? _]. congruence.
    + destruct (Lint.print_lines e lines) as [r printed]. simpl in *.
      destruct IH as [(-> & -> & Hr)|[-> Hr]].
      * left. split_and!; [done..|]. by constructor.
      * right. split; [done|]. rewrite Forall_cons. by intros [_ ?].
Qed.

Lemma print_lines_prefix e lines :
  (Lint.print_lines e lines).2 `prefix_of` lines.
Proof.
  induction lines as [|line lines IH]; simpl; [done|].
  destruct (Lint.markup_error e line); [apply prefix_nil|].
  destruct (Lint.print_lines e lines) as [r printed]. simpl in *.
  by apply prefix_cons.
Qed.

(** The report is printed in full, or rich refuses one of its lines. *)
Lemma print_report_cases e st :
  ((Lint.print_report e st).1 = Return () ∧
   (Lint.print_report e st).2 = Lint.lint_all_files_report st ∧
   report_renders e (Lint.report_details st)) ∨
  ((Lint.print_report e st).1 = Raise MarkupError ∧
   ¬ report_renders e (Lint.report_details st) ∧
   Lint.failed_files st ≠ []).
Proof.
  unfold Lint.print_report, Lint.lint_all_files_report, Lint.report_details.
  destruct (Lint.failed_files st) as [|entry entries] eqn:Hfailed.
  - left. split_and!; [done..|]. constructor.
  - rewrite <-Hfailed.
    destruct (print_lines_cases e (Lint.failed_files st ≫=
                λ entry, [nl +:+ "[yellow]" +:+ str_path entry.1 +:+ ":[/yellow]";
                          entry.2])) as [(Hr & Hp & Hren)|[Hr Hren]];
      destruct (Lint.print_lines e _) as [r printed]; simpl in *; subst.
    + left. by split_and!.
    + right. split_and!; [done..|]. by rewrite Hfailed.
Qed.

(** C3 (as the code has it).  With clang-tidy installed, a compile database
    found whose path rich renders, at least one file discovered and
    [--jobs] at least 1, the script does exit, and when it exits without a
    per-file operation having raised, every file's child process has run to
    its end, failing or not; the exit status is then 0 if and only if every
    one of them exited with status 0, and 1 otherwise, with [--fix] or
    without.  When a per-file operation has raised, the exit status is 1
    whatever the child processes returned. *)
Theorem lint_exit_status (e : Lint.Env) (fix_ : bool) (jobs : Z)
    (compile_commands : Path) :
  Lint.which_clang_tidy e = true →
  Lint.find_compile_commands e = Some compile_commands →
  Lint.markup_error e (Lint.using_line compile_commands) = false →
  Lint.find_cpp_files (Lint.project_dir e) (Lint.files_below e) ≠ [] →
  (1 ≤ jobs)%Z →
  (∃ tr code, Lint.main e fix_ jobs tr code ∧ raised tr = []) ∧
  (∀ tr code,
     Lint.main e fix_ jobs tr code →
     (raised tr = [] →
      exited tr ≡ₚ
        seq 0 (length (Lint.find_cpp_files (Lint.project_dir e)
                         (Lint.files_below e))) ∧
      (code = 0%Z ↔ Forall (λ returncode, returncode = 0%Z) (exit_codes tr)) ∧
      (code = 1%Z ↔ ¬ Forall (λ returncode, returncode = 0%Z) (exit_codes tr))) ∧
     (raised tr ≠ [] → code = 1%Z)).
Proof.
  intros Hwhich Hcc Hline Hfiles Hjobs.
  set (files := Lint.find_cpp_files (Lint.project_dir e) (Lint.files_below e)) in *.
  split.
  - destruct (init_Return files jobs) as [st0 Hinit]; [lia|].
    pose proof (init_inv _ _ _ Hinit) as Hinv0.
    destruct (run_completes files compile_commands fix_
                (Lint.get_system_include_args e) (Z.to_nat jobs) st0 [] st0)
      as (tr & st & Hrun & Hraised & Hdone); [lia|done|constructor|done|].
    simpl in Hrun, Hraised.
    destruct (probe_labels e files tr) as (_ & _ & _ & _ & _ & _ & _ & Hprobe).
    destruct (print_report_cases e st) as [(Hr & _)|(Hr & _)].
    + eexists (Lint.probe e ++ tr), _. split; [by eapply Lint.main_linted|].
      by rewrite Hprobe.
    + eexists (Lint.probe e ++ tr), _.
      split; [by eapply Lint.main_report_refused|]. by rewrite Hprobe.
  - intros tr code Hmain.
    destruct Hmain as [Hno|? Hno|cc' ? Hcc' Hno|cc' ? ? ? Hno
                      |cc' exn ? ? ? ? Hinit
                      |cc' st0 tr st exn ? ? ? ? Hinit Hrun Hexn
                      |cc' st0 tr st exn ? ? ? ? Hinit Hrun Hdone Hreport
                      |cc' st0 tr st ? ? ? ? Hinit Hrun Hdone Hreport];
      try congruence.
    + by destruct Hfiles.
    + destruct (init_Return files jobs) as [st0 Hst0]; [lia|].
      fold files in Hinit. congruence.
    + fold files in Hinit, Hrun.
      pose proof (init_inv _ _ _ Hinit) as Hinv0.
      pose proof (run_inv _ _ _ _ _ _ _ _ Hinv0 Hrun) as Hinv.
      destruct (probe_labels e files tr) as (_ & _ & _ & _ & _ & _ & _ & ->).
      split; [|done]. intros Hnone.
      by destruct (loop_raises_raised _ _ _ _ _ Hinv Hexn).
    + fold files in Hinit, Hrun.
      pose proof (init_inv _ _ _ Hinit) as Hinv0.
      pose proof (run_inv _ _ _ _ _ _ _ _ Hinv0 Hrun) as Hinv.
      destruct (probe_labels e files tr) as (_ & -> & -> & _ & _ & _ & _ & ->).
      destruct (fan_out_done _ _ _ _ Hinv Hdone) as (_ & _ & Hexited & _).
      split; [|done]. intros _. split; [done|].
      destruct (print_report_cases e st) as [(Hr & _)|(_ & _ & Hfailed)];
        [congruence|].
      assert (¬ Forall (λ returncode, returncode = 0%Z) (exit_codes tr)) as Hnz.
      { rewrite <-(lint_all_files_value_spec _ _ _ _ Hinv Hdone).
        unfold Lint.lint_all_files_value. by rewrite bool_decide_eq_true. }
      simpl. split; split; done.
    + fold files in Hinit, Hrun.
      pose proof (init_inv _ _ _ Hinit) as Hinv0.
      pose proof (run_inv _ _ _ _ _ _ _ _ Hinv0 Hrun) as Hinv.
      destruct (probe_labels e files tr) as (_ & -> & -> & _ & _ & _ & _ & ->).
      destruct (fan_out_done _ _ _ _ Hinv Hdone)
        as (_ & _ & Hexited & _ & _ & Hnone & _).
      split; [|done]. intros _. split; [done|]. rewrite summary_status.
      rewrite <-(lint_all_files_value_spec _ _ _ _ Hinv Hdone).
      by destruct (Lint.lint_all_files_value st).
Qed.

Lemma sample_lint_files :
  Lint.find_cpp_files (Lint.project_dir sample_lint_env)
                      (Lint.files_below sample_lint_env) = [sample_source].
Proof. by vm_compute. Qed.

Lemma lint_exit_status_witness :
  (∃ tr code, Lint.main sample_lint_env true 4 tr code ∧ raised tr = []) ∧
  (∀ tr code,
     Lint.main sample_lint_env true 4 tr code →
     (raised tr = [] →
      exited tr ≡ₚ
        seq 0 (length (Lint.find_cpp_files (Lint.project_dir sample_lint_env)
                         (Lint.files_below sample_lint_env))) ∧
      (code = 0%Z ↔ Forall (λ returncode, returncode = 0%Z) (exit_codes tr)) ∧
      (code = 1%Z ↔ ¬ Forall (λ returncode, returncode = 0%Z) (exit_codes tr))) ∧
     (raised tr ≠ [] → code = 1%Z)).
Proof.
  apply (lint_exit_status sample_lint_env true 4 sample_database).
  - reflexivity.
  - reflexivity.
  - reflexivity.
  - rewrite sample_lint_files. discriminate.
  - lia.
Defined.

(** C3 as stated fails when [--jobs] is not positive.  With [--jobs 0] the
    script never exits, so there is no exit status 0 although no file
    failed; with [--jobs -1] the semaphore's constructor raises and the exit
    status is 1 although no child process exited non-zero. *)
Lemma nonpositive_jobs_exit_status :
  Lint.which_clang_tidy sample_lint_env = true ∧
  Lint.find_compile_commands sample_lint_env = Some sample_database ∧
  Lint.find_cpp_files (Lint.project_dir sample_lint_env)
                      (Lint.files_below sample_lint_env) = [sample_source] ∧
  (∀ tr code, ¬ Lint.main sample_lint_env false 0 tr code) ∧
  Lint.main sample_lint_env false (-1) [] 1 ∧
  Forall (λ returncode, returncode = 0%Z) (exit_codes []).
Proof.
  split_and!; [done|done|apply sample_lint_files| | |constructor].
  - intros tr code Hmain.
    destruct Hmain as [Hno|? Hno|cc' ? Hcc' Hno|cc' ? ? ? Hno
                      |cc' exn ? ? ? ? Hinit
                      |cc' st0 tr st exn ? ? ? ? Hinit Hrun Hexn
                      |cc' st0 tr st exn ? ? ? ? Hinit Hrun Hdone Hreport
                      |cc' st0 tr st ? ? ? ? Hinit Hrun Hdone Hreport];
      try done.
    all: rewrite sample_lint_files in Hinit, Hrun.
    all: apply zero_permits_no_run in Hrun as [-> ->]; [|done..].
    all: injection Hinit as <-; try done.
    by destruct Hexn as (i & queue & ? & _).
  - eapply (Lint.main_semaphore_refused sample_lint_env false (-1)
              sample_database (ValueError _)); done.
Qed.

(** A run in which every child process exits with status 0 but the output
    of one does not decode: the exit status is 1. *)
Example garbled_output_exit_status :
  Lint.main sample_lint_env false 1 sample_garbled_run 1 ∧
  Forall (λ returncode, returncode = 0%Z) (exit_codes sample_garbled_run).
Proof.
  split; [|constructor].
  destruct sample_garbled_run_runs as (st0 & Hinit & Hrun).
  apply (Lint.main_task_raised sample_lint_env false 1 sample_database st0
           sample_garbled_run sample_garbled_final UnicodeDecodeError);
    try done.
  by exists 0, [].
Qed.
(** * Headers: formatted, never linted *)




Lemma elem_of_find_cpp_files_Format project_dir fs p :
  p ∈ Format.find_cpp_files project_dir fs ↔
    discovered Format.extensions project_dir fs p.
Proof.
  destruct Format_extensions_ok.
  by apply (find_cpp_files_sorted_set_of Format.extensions project_dir fs).
Qed.

Lemma elem_of_find_cpp_files_Lint project_dir fs p :
  p ∈ Lint.find_cpp_files project_dir fs ↔
    discovered Lint.extensions project_dir fs p.
Proof.
  destruct Lint_extensions_ok.
  by apply (find_cpp_files_sorted_set_of Lint.extensions project_dir fs).
Qed.



Section format_check.
Import Format.
Context (e : Env).




End format_check.


(** * Further properties of file discovery *)

(** X1. When the path of the project directory itself has a part named like
    an excluded directory ([build], [vcpkg_installed], [.cache], [.git]),
    both copies of [find_cpp_files] return the empty list whatever lies below
    it: [file.parts] holds the parts of the project directory too. *)
Theorem discovery_below_excluded_name (project_dir : Path) (fs : tree) (d : string) :
  d ∈ exclude_dirs →
  d ∈ project_dir →
  Format.find_cpp_files project_dir fs = [] ∧
  Lint.find_cpp_files project_dir fs = [].
Proof.
  intros Hd Hin. split; apply elem_of_nil_inv; intros p Hp.
  - apply elem_of_find_cpp_files_Format in Hp
      as (rel & ext & _ & -> & _ & _ & Hex).
    apply (Hex d Hd). unfold joinpath. apply elem_of_app. by left.
  - apply elem_of_find_cpp_files_Lint in Hp
      as (rel & ext & _ & -> & _ & _ & Hex).
    apply (Hex d Hd). unfold joinpath. apply elem_of_app. by left.
Qed.

Lemma discovery_below_excluded_name_witness :
  Format.find_cpp_files ["/"; "home"; "build"; "repo"] [["src"; "a.cpp"]] = [] ∧
  Lint.find_cpp_files ["/"; "home"; "build"; "repo"] [["src"; "a.cpp"]] = [].
Proof.
  apply (discovery_below_excluded_name _ _ "build").
  - by apply (bool_decide_unpack _).
  - by apply (bool_decide_unpack _).
Defined.

Lemma parent_removelast (p : Path) :
  p ≠ ["/"] → Format.parent p = removelast p.
Proof.
  intros Hp. unfold Format.parent.
  repeat (case_match; try done).
Qed.

Lemma str_path_relative (dir file_name : string) :
  dir ≠ "/" → str_path [dir; file_name] = dir +:+ "/" +:+ file_name.
Proof.
  intros Hdir. unfold str_path.
  repeat (case_match; try done); by simplify_eq.
Qed.

(** X2. The listing of check mode shows a file by its last two parts only
    ([file.relative_to(file.parent.parent)]): whatever lies above the
    directory of the file does not show, so files of the same name in
    directories of the same name get the same line. *)
Theorem shown_last_two (above : Path) (dir file_name : string) :
  dir ≠ "/" →
  Format.shown (above ++ [dir; file_name]) = dir +:+ "/" +:+ file_name.
Proof.
  intros Hdir. unfold Format.shown.
  change (above ++ [dir; file_name]) with (above ++ [dir] ++ [file_name]).
  rewrite app_assoc.
  rewrite (parent_removelast ((above ++ [dir]) ++ [file_name])), removelast_last.
  2:{ intros Heq. apply (f_equal length) in Heq.
      rewrite !length_app in Heq. simpl in Heq. lia. }
  rewrite (parent_removelast (above ++ [dir])), removelast_last.
  2:{ intros Heq. destruct above as [|? [|? ?]]; simplify_eq/=. }
  unfold Format.relative_to. rewrite <-app_assoc, drop_app_length.
  by apply str_path_relative.
Qed.

Lemma shown_last_two_witness :
  Format.shown (["/"; "repo"; "lib"] ++ ["src"; "x.cpp"]) = "src/x.cpp" ∧
  Format.shown (["/"; "repo"; "app"] ++ ["src"; "x.cpp"]) = "src/x.cpp".
Proof.
  split.
  - apply (shown_last_two ["/"; "repo"; "lib"] "src" "x.cpp"). discriminate.
  - apply (shown_last_two ["/"; "repo"; "app"] "src" "x.cpp"). discriminate.
Defined.

(** * Further properties of lint.py *)

(** X3. [find_compile_commands] prefers the compile database of the build
    directory to the one in the project root, returns the one in the root
    when only that one exists, and finds none exactly when neither
    exists. *)
Theorem find_compile_commands_priority (e : Lint.Env) :
  let in_build := ["build"; "compile_commands.json"] in
  let in_root := ["compile_commands.json"] in
  (in_build ∈ Lint.files_below e →
     Lint.find_compile_commands e = Some (joinpath (Lint.project_dir e) in_build)) ∧
  (in_build ∉ Lint.files_below e → in_root ∈ Lint.files_below e →
     Lint.find_compile_commands e = Some (joinpath (Lint.project_dir e) in_root)) ∧
  (Lint.find_compile_commands e = None ↔
     (in_build ∉ Lint.files_below e) ∧ (in_root ∉ Lint.files_below e)).
Proof.
  intros in_build in_root. unfold Lint.find_compile_commands. fold in_build in_root.
  split_and!.
  - intros Hb. by rewrite bool_decide_eq_true_2.
  - intros Hb Hr. by rewrite bool_decide_eq_false_2, bool_decide_eq_true_2.
  - repeat case_bool_decide; split; try done; by intros [? ?].
Qed.

(** No step of the fan-out is a probe. *)
Lemma run_no_probe files compile_commands fix_ extra st0 tr st cmd :
  Lint.run files compile_commands fix_ extra st0 tr st → Lint.Probe cmd ∉ tr.
Proof.
  induction 1 as [|tr st l st' _ IH Hstep]; [by intros ?%elem_of_nil|].
  intros [Hin|Hin%list_elem_of_singleton]%elem_of_app; [done|].
  by destruct Hstep.
Qed.

(** A run of the fan-out that has made a step had a permit to give. *)
Lemma run_nonempty_jobs files compile_commands fix_ extra jobs st0 tr st :
  files ≠ [] →
  Lint.init files jobs = Return st0 →
  Lint.run files compile_commands fix_ extra st0 tr st →
  tr ≠ [] → (1 ≤ jobs)%Z.
Proof.
  intros Hfiles Hinit Hrun Htr. pose proof (init_nonneg _ _ _ Hinit) as Hjobs.
  destruct (decide (jobs = 0%Z)) as [->|]; [|lia].
  apply zero_permits_no_run in Hrun as [-> _]; done.
Qed.

Lemma probe_first e tr' tr1 cmd tr2 :
  (∀ cmd', Lint.Probe cmd' ∉ tr') →
  Lint.probe e ++ tr' = tr1 ++ Lint.Probe cmd :: tr2 → tr1 = [].
Proof.
  intros Hno Heq. unfold Lint.probe in Heq.
  assert (Hin : ∀ l tr0, l = tr0 ++ Lint.Probe cmd :: tr2 → Lint.Probe cmd ∈ l).
  { intros l tr0 ->. apply elem_of_app. right. by left. }
  destruct (Lint.platform_darwin e); simpl in Heq.
  - destruct tr1 as [|l tr1]; [done|]. injection Heq as _ Heq.
    by destruct (Hno cmd (Hin _ _ Heq)).
  - by destruct (Hno cmd (Hin _ _ Heq)).
Qed.

Lemma elem_of_probe_run e tr' cmd :
  (∀ cmd', Lint.Probe cmd' ∉ tr') →
  Lint.Probe cmd ∈ Lint.probe e ++ tr' →
  cmd = ["xcode-select"; "-p"] ∧ Lint.platform_darwin e = true.
Proof.
  intros Hno [Hin|Hin]%elem_of_app; [|by destruct (Hno cmd)].
  unfold Lint.probe in Hin. destruct (Lint.platform_darwin e).
  - apply list_elem_of_singleton in Hin. by injection Hin as ->.
  - by apply elem_of_nil in Hin.
Qed.

(** X4. Once click has parsed the options, every exit of [main] has status
    0 or 1.  When clang-tidy is not installed or no compile database is
    found, the script exits with 1 without having started any child
    process; when no file is discovered it starts none either, and exits
    with 0 exactly when rich renders the path of the compile database.  The
    only child process that is not a clang-tidy is the [xcode-select] of
    [get_system_include_args], on macOS and with at least one file
    discovered; it comes first and once, and it is started also when
    [asyncio.Semaphore] then refuses a negative [--jobs], which ends the
    script with status 1.  A run in which a clang-tidy is started, or its
    start attempted, has clang-tidy installed, a compile database whose
    path rich renders, at least one file and [--jobs] at least 1. *)
Theorem lint_main_preconditions (e : Lint.Env) (fix_ : bool) (jobs : Z)
    (tr : list Lint.label) (code : Z) :
  Lint.main e fix_ jobs tr code →
  (code = 0%Z ∨ code = 1%Z) ∧
  (Lint.which_clang_tidy e = false ∨ Lint.find_compile_commands e = None →
     tr = [] ∧ code = 1%Z) ∧
  (∀ compile_commands,
     Lint.which_clang_tidy e = true →
     Lint.find_compile_commands e = Some compile_commands →
     Lint.find_cpp_files (Lint.project_dir e) (Lint.files_below e) = [] →
     tr = [] ∧
     (code = 0%Z ↔
      Lint.markup_error e (Lint.using_line compile_commands) = false)) ∧
  (∀ tr1 cmd tr2, tr = tr1 ++ Lint.Probe cmd :: tr2 → tr1 = []) ∧
  (∀ cmd, Lint.Probe cmd ∈ tr →
     cmd = ["xcode-select"; "-p"] ∧ Lint.platform_darwin e = true ∧
     Lint.which_clang_tidy e = true ∧
     Lint.find_cpp_files (Lint.project_dir e) (Lint.files_below e) ≠ []) ∧
  (∀ compile_commands,
     (jobs < 0)%Z →
     Lint.which_clang_tidy e = true →
     Lint.find_compile_commands e = Some compile_commands →
     Lint.markup_error e (Lint.using_line compile_commands) = false →
     Lint.find_cpp_files (Lint.project_dir e) (Lint.files_below e) ≠ [] →
     tr = Lint.probe e ∧ code = 1%Z) ∧
  (spawned tr ++ refused tr ≠ [] →
     Lint.which_clang_tidy e = true ∧
     (∃ compile_commands,
        Lint.find_compile_commands e = Some compile_commands ∧
        Lint.markup_error e (Lint.using_line compile_commands) = false) ∧
     Lint.find_cpp_files (Lint.project_dir e) (Lint.files_below e) ≠ [] ∧
     (1 ≤ jobs)%Z).
Proof.
  intros Hmain.
  assert (Hnil : ∀ tr1 cmd tr2, [] = tr1 ++ Lint.Probe cmd :: tr2 → tr1 = []).
  { intros tr1 cmd tr2 Heq. by destruct tr1. }
  assert (Hcode : ∀ exn, exit_status (@Raise () exn) = 1%Z) by done.
  destruct Hmain as [Hno|? Hno|cc ? Hcc Hno|cc ? Hcc ? Hno
                    |cc exn ? Hcc ? ? Hinit
                    |cc st0 tr st exn ? Hcc ? ? Hinit Hrun Hexn
                    |cc st0 tr st exn ? Hcc ? ? Hinit Hrun Hdone Hreport
                    |cc st0 tr st ? Hcc ? ? Hinit Hrun Hdone Hreport];
    rewrite ?Hcode.
  1-4: split_and!;
         [auto
         |try (intros [?|?]; congruence); done
         |intros cc' ? Hcc' ?; try congruence;
          (split; [done|]); split; intros ?; congruence
         |done
         |by intros cmd ?%elem_of_nil
         |intros cc' ? ? Hcc' ? ?; congruence
         |done].
  1:{ (* the semaphore is refused *)
    assert (Hno : ∀ cmd', Lint.Probe cmd' ∉ (@nil Lint.label))
      by (intros ? ?%elem_of_nil; done).
    destruct (probe_labels e [] []) as (Hsp & _ & _ & _ & _ & Hrf & _).
    rewrite app_nil_r in Hsp, Hrf.
    split_and!.
    + by right.
    + intros [?|?]; congruence.
    + congruence.
    + intros tr1 cmd tr2 Heq. apply (probe_first e [] tr1 cmd tr2 Hno).
      by rewrite app_nil_r.
    + intros cmd Hin. rewrite <-(app_nil_r (Lint.probe e)) in Hin.
      destruct (elem_of_probe_run e [] cmd Hno Hin). by split_and!.
    + done.
    + rewrite Hsp, Hrf. done. }
  all: pose proof (λ cmd, run_no_probe _ _ _ _ _ _ _ cmd Hrun) as Hnoprobe.
  all: destruct (probe_labels e [] tr) as (Hsp & _ & _ & _ & _ & Hrf & _).
  all: split_and!.
  all: try (intros [?|?]; congruence).
  all: try (intros cc' ? ? Hnone; congruence).
  all: try (intros tr1 cmd tr2 Heq; by apply (probe_first e tr tr1 cmd tr2 Hnoprobe)).
  all: try (intros cmd Hin; destruct (elem_of_probe_run e tr cmd Hnoprobe Hin);
            by split_and!).
  all: try (intros cc' Hneg; apply init_nonneg in Hinit; lia).
  all: try (rewrite Hsp, Hrf; intros Hne; split_and!; [done|by eauto|done|];
            eapply run_nonempty_jobs; [done|done|done|];
            intros ->; by destruct Hne).
  all: try (by right).
  rewrite summary_status. destruct (Lint.lint_all_files_value st); auto.
Qed.

Lemma sample_run_main : Lint.main sample_lint_env false 1 sample_run 1.
Proof.
  destruct sample_run_runs as (st0 & Hinit & Hrun).
  apply (Lint.main_linted sample_lint_env false 1 sample_database st0
           sample_run sample_final); try done.
Qed.

Lemma lint_main_preconditions_witness :
  Lint.main sample_lint_env false 1 sample_run 1 ∧
  (spawned sample_run ++ refused sample_run ≠ [] →
     Lint.which_clang_tidy sample_lint_env = true ∧
     (∃ compile_commands,
        Lint.find_compile_commands sample_lint_env = Some compile_commands ∧
        Lint.markup_error sample_lint_env (Lint.using_line compile_commands) = false) ∧
     Lint.find_cpp_files (Lint.project_dir sample_lint_env)
                         (Lint.files_below sample_lint_env) ≠ [] ∧
     (1 ≤ 1)%Z).
Proof.
  split; [exact sample_run_main|].
  by destruct (lint_main_preconditions sample_lint_env false 1 sample_run 1
                 sample_run_main) as (_ & _ & _ & _ & _ & _ & H).
Defined.

(** Without clang-tidy the script exits with 1 at once. *)
Example lint_without_clang_tidy :
  Lint.main sample_lint_env_no_tool false 4 [] 1.
Proof. by apply Lint.main_no_clang_tidy. Qed.

(** On macOS [xcode-select] is started before the semaphore refuses a
    negative [--jobs]. *)
Example probe_before_semaphore :
  Lint.main sample_lint_env_darwin false (-1) [Lint.Probe ["xcode-select"; "-p"]] 1.
Proof.
  eapply (Lint.main_semaphore_refused sample_lint_env_darwin false (-1)
            (["/"; "repo"; "build"; "compile_commands.json"]) (ValueError _));
    try done.
Qed.

Lemma run_console files compile_commands fix_ extra jobs st0 tr st :
  Lint.init files jobs = Return st0 →
  Lint.run files compile_commands fix_ extra st0 tr st →
  Lint.console st = result_line <$> yielded tr.
Proof.
  intros Hinit. induction 1 as [|tr st l st' _ IH Hstep].
  - unfold Lint.init in Hinit. destruct (jobs <? 0)%Z; by simplify_eq.
  - rewrite yielded_snoc. destruct Hstep; simpl; rewrite ?app_nil_r; try done.
    by rewrite IH, fmap_app.
Qed.

(** X5. The semaphore's permits are conserved: in every state of every run
    the counter plus the number of tasks in flight is the [--jobs] value, and
    no more tasks are in flight than there are files.  Once the loop over
    [as_completed] is over, every permit has been given back, no finished
    task is left waiting to be received, and every task has returned. *)
Theorem semaphore_permits_conserved (files : list Path) (compile_commands : Path)
    (fix_ : bool) (extra : list string) (jobs : Z)
    (st0 : Lint.state) (tr : list Lint.label) (st : Lint.state) :
  Lint.init files jobs = Return st0 →
  Lint.run files compile_commands fix_ extra st0 tr st →
  Z.of_nat (Lint.sem_value st + Lint.in_flight st) = jobs ∧
  Lint.in_flight st ≤ length files ∧
  (Lint.loop_done st →
     Z.of_nat (Lint.sem_value st) = jobs ∧
     Lint.done_queue st = [] ∧
     ∀ i, i < length files → ∃ r, Lint.tasks st !! i = Some (Lint.Finished r)).
Proof.
  intros Hinit Hrun.
  pose proof (init_nonneg _ _ _ Hinit) as Hjobs.
  pose proof (init_inv _ _ _ Hinit) as Hinv0.
  pose proof (run_inv _ _ _ _ _ _ _ _ Hinv0 Hrun) as Hinv.
  pose proof (inv_sem _ _ _ _ Hinv) as Hsem.
  split_and!.
  - lia.
  - rewrite <-(inv_tasks _ _ _ _ Hinv). apply length_filter.
  - intros Hdone.
    destruct (fan_out_done _ _ _ _ Hinv Hdone)
      as (Hall & _ & Hexited & _ & Hzero & _ & Hqueue).
    split_and!.
    + lia.
    + done.
    + intros i Hi. apply (inv_exited _ _ _ _ Hinv). rewrite Hexited.
      apply elem_of_seq. lia.
Qed.

Lemma semaphore_permits_conserved_witness :
  Z.of_nat (Lint.sem_value sample_final + Lint.in_flight sample_final) = 1%Z ∧
  Lint.in_flight sample_final ≤ length [sample_source] ∧
  (Lint.loop_done sample_final →
     Z.of_nat (Lint.sem_value sample_final) = 1%Z ∧
     Lint.done_queue sample_final = [] ∧
     ∀ i, i < length [sample_source] →
          ∃ r, Lint.tasks sample_final !! i = Some (Lint.Finished r)).
Proof.
  destruct sample_run_runs as (st0 & Hinit & Hrun).
  exact (semaphore_permits_conserved [sample_source] sample_database false []
           1 st0 sample_run sample_final Hinit Hrun).
Defined.

(** X6. In every run of the fan-out a child process exits only after it was
    started, and the loop receives a result only after the process that
    produced it has exited: before an [Exit] of task [i] the run holds the
    [Spawn] of [i], and before a [Yield] of [r] the exit that [r] was made
    of.  At every point there are at most as many results received as
    exits, as many exits as starts, and as many starts as files. *)
Theorem fan_out_causality (files : list Path) (compile_commands : Path)
    (fix_ : bool) (extra : list string) (jobs : Z)
    (st0 : Lint.state) (tr : list Lint.label) (st : Lint.state) :
  Lint.init files jobs = Return st0 →
  Lint.run files compile_commands fix_ extra st0 tr st →
  (∀ tr1 tr2 i returncode stdout stderr,
     tr = tr1 ++ Lint.Exit i returncode stdout stderr :: tr2 →
     i ∈ spawned tr1 ∧ i ∉ exited tr1) ∧
  (∀ tr1 tr2 r,
     tr = tr1 ++ Lint.Yield r :: tr2 →
     r ∈ exit_results files tr1) ∧
  length (yielded tr) ≤ length (exited tr) ∧
  length (exited tr) ≤ length (spawned tr) ∧
  length (spawned tr) ≤ length files.
Proof.
  intros Hinit Hrun.
  pose proof (init_inv _ _ _ Hinit) as Hinv0.
  pose proof (run_inv _ _ _ _ _ _ _ _ Hinv0 Hrun) as Hinv.
  split_and!.
  - intros tr1 tr2 i rc out err ->.
    rewrite cons_middle, app_assoc in Hrun.
    apply run_prefix in Hrun as [st1 Hrun1].
    pose proof (run_inv _ _ _ _ _ _ _ _ Hinv0 Hrun1) as Hinv1.
    assert (i ∈ spawned (tr1 ++ [Lint.Exit i rc out err])) as Hsp.
    { apply (exited_spawned _ _ _ _ Hinv1). rewrite exited_snoc.
      apply elem_of_app. right. by left. }
    rewrite spawned_snoc, app_nil_r in Hsp. split; [done|].
    pose proof (exited_NoDup _ _ _ _ Hinv1) as Hnodup.
    rewrite exited_snoc in Hnodup. apply NoDup_app in Hnodup as (_ & Hnot & _).
    intros Hin. apply (Hnot i Hin). by left.
  - intros tr1 tr2 r ->.
    rewrite cons_middle, app_assoc in Hrun.
    apply run_prefix in Hrun as [st1 Hrun1].
    pose proof (run_inv _ _ _ _ _ _ _ _ Hinv0 Hrun1) as Hinv1.
    destruct (inv_queue _ _ _ _ Hinv1) as (pending & Hres & _).
    rewrite exit_results_snoc, yielded_snoc, app_nil_r in Hres.
    rewrite Hres, !elem_of_app. left. right. by left.
  - destruct (inv_queue _ _ _ _ Hinv) as (pending & Hres & _).
    rewrite <-(inv_results _ _ _ _ Hinv), Hres, length_app. lia.
  - apply submseteq_length, NoDup_submseteq; [apply (exited_NoDup _ _ _ _ Hinv)|].
    apply (exited_spawned _ _ _ _ Hinv).
  - apply NoDup_below_length; [apply (spawned_NoDup _ _ _ _ Hinv)|].
    apply (spawned_below _ _ _ _ Hinv).
Qed.

Lemma fan_out_causality_witness :
  (∀ tr1 tr2 i returncode stdout stderr,
     sample_run = tr1 ++ Lint.Exit i returncode stdout stderr :: tr2 →
     i ∈ spawned tr1 ∧ i ∉ exited tr1) ∧
  (∀ tr1 tr2 r,
     sample_run = tr1 ++ Lint.Yield r :: tr2 →
     r ∈ exit_results [sample_source] tr1) ∧
  length (yielded sample_run) ≤ length (exited sample_run) ∧
  length (exited sample_run) ≤ length (spawned sample_run) ∧
  length (spawned sample_run) ≤ length [sample_source].
Proof.
  destruct sample_run_runs as (st0 & Hinit & Hrun).
  exact (fan_out_causality [sample_source] sample_database false []
           1 st0 sample_run sample_final Hinit Hrun).
Defined.

(** X7. The console of the fan-out follows the order of completion: in
    every state of every run it holds one line per result received, in the
    order received, a tick when the exit status was 0 and a cross otherwise,
    with the name of the file; when the loop is over there is one line per
    file. *)
Theorem fan_out_console_order (files : list Path) (compile_commands : Path)
    (fix_ : bool) (extra : list string) (jobs : Z)
    (st0 : Lint.state) (tr : list Lint.label) (st : Lint.state) :
  Lint.init files jobs = Return st0 →
  Lint.run files compile_commands fix_ extra st0 tr st →
  Lint.console st = result_line <$> yielded tr ∧
  (Lint.loop_done st →
     Lint.console st = result_line <$> exit_results files tr ∧
     length (Lint.console st) = length files).
Proof.
  intros Hinit Hrun.
  pose proof (run_console _ _ _ _ _ _ _ _ Hinit Hrun) as Hconsole.
  split; [done|]. intros Hdone.
  pose proof (init_inv _ _ _ Hinit) as Hinv0.
  pose proof (run_inv _ _ _ _ _ _ _ _ Hinv0 Hrun) as Hinv.
  destruct (fan_out_done _ _ _ _ Hinv Hdone) as (Hall & Hlen & _).
  rewrite Hconsole, length_fmap. by rewrite <-Hall.
Qed.

Lemma fan_out_console_order_witness :
  Lint.console sample_final = result_line <$> yielded sample_run ∧
  (Lint.loop_done sample_final →
     Lint.console sample_final = result_line <$> exit_results [sample_source] sample_run ∧
     length (Lint.console sample_final) = length [sample_source]).
Proof.
  destruct sample_run_runs as (st0 & Hinit & Hrun).
  exact (fan_out_console_order [sample_source] sample_database false []
           1 st0 sample_run sample_final Hinit Hrun).
Defined.
(** * Further properties of format.py *)

Section format_check_exact.
Import Format.
Context (e : Env).




End format_check_exact.



(** X16. format.py starts no child process unless clang-format is
    installed: without it both modes leave through [sys.exit(1)].  With it
    and no file discovered, both modes (also [--check]) print one line,
    start no child process and end normally, with exit status 0. *)
Theorem format_early_exits (e : Format.Env) (check : bool) (w : Format.World) :
  let out := Format.main e check w in
  (Format.which_clang_format e = false →
     out.1 = SysExit 1 ∧ Format.spawned out.2 = Format.spawned w) ∧
  (Format.which_clang_format e = true →
   (∀ p, ¬ discovered Format.extensions (Format.project_dir e)
            (Format.files_below e) p) →
     out.1 = Return () ∧ exit_status out.1 = 0%Z ∧
     Format.spawned out.2 = Format.spawned w ∧
     Format.console out.2 = Format.console w ++ ["[yellow]No C++ files found[/yellow]"]).
Proof.
  intros out. subst out. unfold Format.main. split.
  - intros ->. by simpl.
  - intros -> Hnone. simpl negb. cbv iota.
    destruct (Format.find_cpp_files _ _) as [|p files] eqn:Hfiles; [done|].
    exfalso. apply (Hnone p).
    apply elem_of_find_cpp_files_Format. rewrite Hfiles. by left.
Qed.

(** The first element of a list that fails a decidable test. *)
Lemma first_failure {A} (P : A → Prop) `{!∀ x, Decision (P x)} (l : list A) :
  ¬ Forall P l →
  ∃ pre x post, l = pre ++ x :: post ∧ Forall P pre ∧ ¬ P x.
Proof.
  induction l as [|x l IH]; intros Hl.
  - by destruct Hl.
  - destruct (decide (P x)) as [Hx|Hx].
    + destruct IH as (pre & y & post & -> & Hpre & Hy).
      { intros Hall. apply Hl. by constructor. }
      exists (x :: pre), y, post. split_and!; [done| |done]. by constructor.
    + by exists [], x, l.
Qed.

(** X17. Apply mode of format.py, with clang-format installed and at least
    one file discovered, ends normally (exit status 0) exactly when the
    formatter exits with 0 on every discovered file.  The formatter was then
    started once on every file, in discovery order, and the console holds
    the banner, one tick per file in that order, and the closing line. *)
Theorem format_apply_all_or_nothing (e : Format.Env) (w : Format.World) :
  Format.which_clang_format e = true →
  Format.find_cpp_files (Format.project_dir e) (Format.files_below e) ≠ [] →
  let files := Format.find_cpp_files (Format.project_dir e) (Format.files_below e) in
  let out := Format.main e false w in
  (out.1 = Return () ↔
   ∀ f, f ∈ files → Format.clang_format e (Format.format_cmd f) = 0%Z) ∧
  (out.1 = Return () →
   Format.spawned out.2 = Format.spawned w ++ (Format.format_cmd <$> files) ∧
   ∃ closing,
     Format.console out.2 =
       Format.console w ++
       Format.formatting_banner files :: (Format.tick <$> files) ++ [closing]).
Proof.
  intros Hwhich Hfiles files out.
  assert (Hmain : out = Format.apply_mode e files w).
  { subst out. unfold Format.main. rewrite Hwhich. simpl negb. cbv iota.
    fold files in Hfiles |- *. clearbody files. by destruct files. }
  rewrite Hmain. clear Hmain out. clearbody files.
  destruct (decide (Forall (λ f, Format.clang_format e (Format.format_cmd f) = 0%Z)
                      files)) as [Hall|Hnot].
  - rewrite Forall_forall in Hall.
    assert (Hout : Format.apply_mode e files w =
      (Return (),
       {| Format.console :=
            Format.console w ++ Format.formatting_banner files ::
              (Format.tick <$> files) ++
              [nl +:+ "[green]✅ All files have been formatted[/green]"];
          Format.spawned := Format.spawned w ++ (Format.format_cmd <$> files) |})).
    { unfold Format.apply_mode. rewrite bind_eq. unfold Format.print at 1.
      cbv beta iota. rewrite bind_eq, for_each_format_ok by done.
      unfold Format.print. cbn [Format.console Format.spawned].
      by rewrite <-!app_assoc. }
    rewrite Hout. cbn [fst snd Format.console Format.spawned].
    split; [done|]. intros _. split; [done|]. by eexists.
  - apply first_failure in Hnot as (pre & file & post & -> & Hpre & Hfile);
      [|apply _].
    rewrite Forall_forall in Hpre.
    assert (Hout : (Format.apply_mode e (pre ++ file :: post) w).1 =
      Raise (CalledProcessError (Format.format_cmd file)
               (Format.clang_format e (Format.format_cmd file)))).
    { unfold Format.apply_mode. rewrite bind_eq. unfold Format.print at 1.
      cbv beta iota. by rewrite bind_eq, for_each_format_fail. }
    rewrite Hout. split; [|done]. split; [done|].
    intros Hall. destruct Hfile. apply Hall, elem_of_app. right. by left.
Qed.

Lemma format_apply_all_or_nothing_witness :
  let e := sample_check_env in
  let w := {| Format.console := []; Format.spawned := [] |} in
  Format.which_clang_format e = true ∧
  Format.find_cpp_files (Format.project_dir e) (Format.files_below e) ≠ [] ∧
  ((Format.main e false w).1 = Return () ↔
   ∀ f, f ∈ Format.find_cpp_files (Format.project_dir e) (Format.files_below e) →
        Format.clang_format e (Format.format_cmd f) = 0%Z).
Proof.
  intros e w. split; [reflexivity|]. split; [by vm_compute|].
  apply (format_apply_all_or_nothing e w); [reflexivity|by vm_compute].
Defined.

(** * Further properties of lint.py: the closing report *)

Lemma elem_of_failures rs file out :
  (file, false, out) ∈ rs → (file, out) ∈ failures rs.
Proof.
  intros Hin. apply list_elem_of_omap. by exists (file, false, out).
Qed.

(** X18. The closing report of [lint_all_files].  Once the loop is over,
    the failed files are the results with a non-zero exit status, in the
    order of completion; the report the function sets out to print is empty
    exactly when every child process exited with 0; and for every child
    process that exited non-zero it holds the path of its file followed at
    once by its standard output and standard error, concatenated.  What
    gets printed is the report up to the first line that rich refuses: the
    whole report, after which the function returns, exactly when rich
    renders every path line and every output; otherwise the [MarkupError]
    ends the function. *)
Theorem lint_report_lists_failures (e : Lint.Env) (files : list Path)
    (compile_commands : Path) (fix_ : bool) (extra : list string) (jobs : Z)
    (st0 : Lint.state) (tr : list Lint.label) (st : Lint.state) :
  Lint.init files jobs = Return st0 →
  Lint.run files compile_commands fix_ extra st0 tr st →
  Lint.loop_done st →
  Lint.failed_files st = failures (exit_results files tr) ∧
  (Lint.lint_all_files_report st = [] ↔
   Forall (λ returncode, returncode = 0%Z) (exit_codes tr)) ∧
  (∀ i returncode stdout stderr file,
     Lint.Exit i returncode stdout stderr ∈ tr →
     files !! i = Some file →
     returncode ≠ 0%Z →
     ∃ above below,
       Lint.lint_all_files_report st =
         above ++ [nl +:+ "[yellow]" +:+ str_path file +:+ ":[/yellow]";
                   stdout +:+ stderr] ++ below) ∧
  (Lint.print_report e st).2 `prefix_of` Lint.lint_all_files_report st ∧
  ((Lint.print_report e st).1 = Return () ↔
   report_renders e (Lint.report_details st)) ∧
  ((Lint.print_report e st).1 = Raise MarkupError ↔
   ¬ report_renders e (Lint.report_details st)) ∧
  ((Lint.print_report e st).1 = Return () →
   (Lint.print_report e st).2 = Lint.lint_all_files_report st).
Proof.
  intros Hinit Hrun Hdone.
  pose proof (init_inv _ _ _ Hinit) as Hinv0.
  pose proof (run_inv _ _ _ _ _ _ _ _ Hinv0 Hrun) as Hinv.
  destruct (fan_out_done _ _ _ _ Hinv Hdone) as (Hall & _).
  pose proof (inv_failed _ _ _ _ Hinv) as Hfailed. rewrite Hall in Hfailed.
  split; [done|]. split_and!.
  - rewrite <-(inv_success _ _ _ _ Hinv), <-failures_nil, <-Hfailed.
    unfold Lint.lint_all_files_report. by destruct (Lint.failed_files st).
  - intros i rc out err file Hin Hfile Hrc.
    assert (Hentry : (file, out +:+ err) ∈ Lint.failed_files st).
    { rewrite Hfailed. apply elem_of_failures, list_elem_of_omap.
      exists (Lint.Exit i rc out err). split; [done|]. rewrite Hfile. csimpl.
      apply Z.eqb_neq in Hrc. by rewrite Hrc. }
    apply list_elem_of_split in Hentry as (l1 & l2 & Hsplit).
    unfold Lint.lint_all_files_report, Lint.report_details. rewrite Hsplit.
    destruct (l1 ++ (file, out +:+ err) :: l2) eqn:Hl; [by destruct l1|].
    rewrite <-Hl. rewrite bind_app, bind_cons. cbv beta. cbn [fst snd].
    set (entry_lines := λ entry : Path * string,
           [nl +:+ "[yellow]" +:+ str_path entry.1 +:+ ":[/yellow]"; entry.2]).
    exists (Lint.report_heading :: (l1 ≫= entry_lines)), (l2 ≫= entry_lines).
    reflexivity.
  - unfold Lint.print_report, Lint.lint_all_files_report.
    destruct (Lint.failed_files st); [done|].
    pose proof (print_lines_prefix e (Lint.report_details st)) as Hpre.
    destruct (Lint.print_lines e _) as [r printed]. by apply prefix_cons.
  - destruct (print_report_cases e st) as [(-> & _ & ?)|(-> & ? & _)]; by split.
  - destruct (print_report_cases e st) as [(-> & _ & ?)|(-> & ? & _)]; by split.
  - intros Hr. destruct (print_report_cases e st) as [(_ & ? & _)|(? & _)];
      [done|congruence].
Qed.

Lemma lint_report_lists_failures_witness :
  Lint.loop_done sample_final ∧
  Lint.failed_files sample_final = failures (exit_results [sample_source] sample_run) ∧
  (Lint.lint_all_files_report sample_final = [] ↔
   Forall (λ returncode, returncode = 0%Z) (exit_codes sample_run)) ∧
  (Lint.print_report sample_lint_env sample_final).2 =
    Lint.lint_all_files_report sample_final.
Proof.
  split; [reflexivity|].
  destruct sample_run_runs as (st0 & Hinit & Hrun).
  destruct (lint_report_lists_failures sample_lint_env [sample_source]
              sample_database false [] 1 st0 sample_run sample_final Hinit Hrun
              eq_refl) as (H1 & H2 & _ & _ & _ & _ & H7).
  split_and!; [done..|]. by apply H7.
Defined.
